(** * SPOS scheduler and scheduling strategies

    A shallow embedding of [os_scheduler.c] and
    [os_scheduling_strategies.c]: the process table, the five scheduling
    strategies, the critical-section gate, [os_exec], the boot functions
    and the timer interrupt that drives the context switch.

    Conventions.  Every [uint8_t] is a [Z] whose wrap-around is written
    with [u8]; the 16-bit stack pointer wraps with [u16].  C arrays are
    lists; an access outside the array is undefined behaviour in C and
    is the outcome [Fault] here.  A [while(1)] loop takes fuel; the
    outcome [Diverge] says that the code has not returned when the fuel
    is used up, or that it cannot return at all. *)

From Stdlib Require Import ZArith Lia String.
From stdpp Require Import base tactics option list list_numbers.

Local Open Scope Z_scope.

(** ** Outcomes of C code *)

Inductive outcome (A : Type) : Type :=
  | Ok (a : A)
  | Diverge
  | Fault.
Arguments Ok {A} a.
Arguments Diverge {A}.
Arguments Fault {A}.

#[global] Instance outcome_ret : MRet outcome := fun A a => Ok a.
#[global] Instance outcome_bind : MBind outcome := fun A B f m =>
  match m with
  | Ok a => f a
  | Diverge => Diverge
  | Fault => Fault
  end.

(** ** Machine integers *)

Definition u8 (x : Z) : Z := x mod 256.
Definition u16 (x : Z) : Z := x mod 65536.

(** ** Data model (os_process.h, os_scheduling_strategies.h as used by the
    two source files) *)

Inductive ProcessState : Type :=
  | OS_PS_UNUSED
  | OS_PS_READY
  | OS_PS_RUNNING.

#[global] Instance ProcessState_eq_dec : EqDecision ProcessState.
Proof. solve_decision. Defined.

Inductive SchedulingStrategy : Type :=
  | OS_SS_EVEN
  | OS_SS_RANDOM
  | OS_SS_RUN_TO_COMPLETION
  | OS_SS_ROUND_ROBIN
  | OS_SS_INACTIVE_AGING.

#[global] Instance SchedulingStrategy_eq_dec : EqDecision SchedulingStrategy.
Proof. solve_decision. Defined.

(** A slot of the process table.  [program] is the entry address (0 is
    NULL), [sp] the saved stack pointer (the union's [as_int] and [as_ptr]
    views are the same number). *)
Record Process : Type := mkProcess {
  program : Z;
  state : ProcessState;
  priority : Z;
  sp : Z;
  checksum : Z
}.

Record SchedulingInformation : Type := mkSchedulingInformation {
  timeSlice : Z;
  age : list Z
}.

(** Modelled from the spec: defines.h is not among the sources; the spec
    gives the canonical table size 8, and the literal 7 in the cyclic
    search of the Even strategy is that size minus one. *)
Definition MAX_NUMBER_OF_PROCESSES : Z := 8.

(** The constants, macros and the one type width that the two source
    files take from headers that are not among the sources. *)
Class Platform : Type := {
  (** bit number of the timer-2 compare-match interrupt enable in TIMSK2 *)
  OCIE2A : Z;
  (** the sentinel that [os_exec] returns on failure *)
  INVALID_PROCESS : Z;
  (** width in bits of the type [Age] *)
  AGE_BITS : N;
  PROCESS_STACK_BOTTOM : Z -> Z;
  STACK_SIZE_PROC : Z;
  BOTTOM_OF_ISR_STACK : Z;
  DEFAULT_PRIORITY : Z;
  (** address of the function [idle] *)
  idle : Z
}.

Definition set_state (s : ProcessState) (p : Process) : Process :=
  mkProcess (program p) s (priority p) (sp p) (checksum p).
Definition set_sp (v : Z) (p : Process) : Process :=
  mkProcess (program p) (state p) (priority p) v (checksum p).
Definition set_checksum (v : Z) (p : Process) : Process :=
  mkProcess (program p) (state p) (priority p) (sp p) v.

Definition set_timeSlice (v : Z) (si : SchedulingInformation) : SchedulingInformation :=
  mkSchedulingInformation v (age si).
Definition set_age (a : list Z) (si : SchedulingInformation) : SchedulingInformation :=
  mkSchedulingInformation (timeSlice si) a.

(** ** Arrays *)

(** [a[i]] as an rvalue. *)
Definition load {A} (a : list A) (i : Z) : outcome A :=
  if decide (0 <= i) then
    match a !! Z.to_nat i with
    | Some x => Ok x
    | None => Fault
    end
  else Fault.

(** [a[i] = x]. *)
Definition store {A} (a : list A) (i : Z) (x : A) : outcome (list A) :=
  if decide (0 <= i < Z.of_nat (length a)) then Ok (<[Z.to_nat i := x]> a)
  else Fault.

(** [for (i = lo; i < lo + n; i++) body], the loop state threaded through
    the body. *)
Fixpoint for_loop {St} (n : nat) (i : Z) (body : Z -> St -> outcome St)
    (s : St) : outcome St :=
  match n with
  | O => Ok s
  | S n' => s' ← body i s; for_loop n' (i + 1) body s'
  end.

Definition for_each_slot {St} (body : Z -> St -> outcome St) (s : St)
  : outcome St :=
  for_loop (Z.to_nat MAX_NUMBER_OF_PROCESSES) 0 body s.

Definition is_ready (p : Process) : bool :=
  bool_decide (state p = OS_PS_READY).

(** ** os_scheduling_strategies.c *)

Section Strategies.
Context `{Platform}.

Definition wrap_age (x : Z) : Z := x mod 2 ^ Z.of_N AGE_BITS.

Definition os_resetProcessSchedulingInformation (id : Z)
    (si : SchedulingInformation) : outcome SchedulingInformation :=
  a ← store (age si) id 0;
  Ok (set_age a si).

(** The counting loop that opens Even, Random, RoundRobin and
    RunToCompletion. *)
Definition numberOfReadyProcs (processes : list Process) : outcome Z :=
  for_each_slot (fun i n =>
    p ← load processes i;
    if is_ready p then Ok (u8 (n + 1)) else Ok n) 0.

(** The [while(1)] search shared by Even and RunToCompletion. *)
Fixpoint next_ready (fuel : nat) (processes : list Process) (current : Z)
  : outcome Z :=
  match fuel with
  | O => Diverge
  | S fuel' =>
      let current' := if decide (current = 7) then 1 else u8 (current + 1) in
      p ← load processes current';
      if is_ready p then Ok current'
      else next_ready fuel' processes current'
  end.

Definition os_Scheduler_Even (fuel : nat) (processes : list Process)
    (current : Z) : outcome Z :=
  n ← numberOfReadyProcs processes;
  if decide (n = 1) then Ok 0
  else next_ready fuel processes current.

(** [rnd] is the value that this call's [rand()] returns.  The
    variable-length array starts with unspecified contents; every cell
    that is read has been written by the gathering loop. *)
Definition os_Scheduler_Random (rnd : Z) (processes : list Process)
    (current : Z) : outcome Z :=
  n ← numberOfReadyProcs processes;
  if decide (n = 1) then Ok 0
  else
    '(array, n') ← for_each_slot (fun i '(array, k) =>
        p ← load processes i;
        if is_ready p then
          array' ← store array k i;
          Ok (array', u8 (k + 1))
        else Ok (array, k)) (replicate (Z.to_nat n) 0, 0);
    load array (Z.rem rnd (n' - 1) + 1).

Definition os_Scheduler_RoundRobin (processes : list Process) (current : Z)
    (si : SchedulingInformation) : outcome (Z * SchedulingInformation) :=
  cur ← load processes current;
  if is_ready cur && bool_decide (timeSlice si > 0) then
    Ok (current, set_timeSlice (u8 (timeSlice si - 1)) si)
  else
    n ← numberOfReadyProcs processes;
    if decide (n = 1) then Ok (0, si)
    else
      processWithHighestPriority ← for_each_slot (fun i best =>
          p ← load processes i;
          if decide (priority p > best) then Ok i else Ok best) 0;
      Ok (processWithHighestPriority, si).

(** First loop of InactiveAging: the ages of the ready slots grow by
    their priority. *)
Definition grow_ages (processes : list Process) (ages : list Z)
  : outcome (list Z) :=
  for_each_slot (fun iterator ages =>
    p ← load processes iterator;
    if is_ready p then
      a ← load ages iterator;
      store ages iterator (wrap_age (a + priority p))
    else Ok ages) ages.

(** Second loop of InactiveAging. *)
Definition oldest (processes : list Process) (ages : list Z) : outcome Z :=
  for_each_slot (fun iterator nextProcess =>
    p ← load processes iterator;
    if is_ready p then
      a ← load ages iterator;
      an ← load ages nextProcess;
      if decide (a >= an) then
        pn ← load processes nextProcess;
        if bool_decide (a = an) && bool_decide (priority p >= priority pn) then
          if decide (priority p > priority pn) then Ok iterator
          else Ok nextProcess
        else
          if decide (a > an) then Ok iterator else Ok nextProcess
      else Ok nextProcess
    else Ok nextProcess) 0.

Definition os_Scheduler_InactiveAging (processes : list Process)
    (current : Z) (si : SchedulingInformation)
  : outcome (Z * SchedulingInformation) :=
  ages ← grow_ages processes (age si);
  nextProcess ← oldest processes ages;
  ages' ← store ages nextProcess 0;
  Ok (nextProcess, set_age ages' si).

Definition os_Scheduler_RunToCompletion (fuel : nat)
    (processes : list Process) (current : Z) : outcome Z :=
  cur ← load processes current;
  if is_ready cur then Ok current
  else
    n ← numberOfReadyProcs processes;
    if decide (n = 1) then Ok 0
    else next_ready fuel processes current.

End Strategies.

(** ** Global state of os_scheduler.c and of the processor *)

(** The globals of the two files ([os_processes], [currentProcess],
    [currentProc], [actual], [criticalSectionCount], [schedulingInfo]), the
    autostart list (the programs reachable from [autostart_head]), the
    processor ([SP], [SREG], [TIMSK2], the program counter and the 32
    registers), the data memory, and the messages handed to
    [os_errorPStr]. *)
Record OS : Type := mkOS {
  os_processes : list Process;
  currentProcess : Z;
  currentProc : Z;
  actual : SchedulingStrategy;
  criticalSectionCount : Z;
  schedulingInfo : SchedulingInformation;
  autostart_head : list Z;
  SP : Z;
  SREG : Z;
  TIMSK2 : Z;
  PC : Z;
  regs : list Z;
  mem : Z -> Z;
  errors : list string
}.

Definition with_os_processes (v : list Process) (st : OS) : OS :=
  mkOS v (currentProcess st) (currentProc st) (actual st)
    (criticalSectionCount st) (schedulingInfo st) (autostart_head st)
    (SP st) (SREG st) (TIMSK2 st) (PC st) (regs st) (mem st) (errors st).
Definition with_currentProc (v : Z) (st : OS) : OS :=
  mkOS (os_processes st) (currentProcess st) v (actual st)
    (criticalSectionCount st) (schedulingInfo st) (autostart_head st)
    (SP st) (SREG st) (TIMSK2 st) (PC st) (regs st) (mem st) (errors st).
Definition with_criticalSectionCount (v : Z) (st : OS) : OS :=
  mkOS (os_processes st) (currentProcess st) (currentProc st) (actual st)
    v (schedulingInfo st) (autostart_head st)
    (SP st) (SREG st) (TIMSK2 st) (PC st) (regs st) (mem st) (errors st).
Definition with_schedulingInfo (v : SchedulingInformation) (st : OS) : OS :=
  mkOS (os_processes st) (currentProcess st) (currentProc st) (actual st)
    (criticalSectionCount st) v (autostart_head st)
    (SP st) (SREG st) (TIMSK2 st) (PC st) (regs st) (mem st) (errors st).
Definition with_autostart_head (v : list Z) (st : OS) : OS :=
  mkOS (os_processes st) (currentProcess st) (currentProc st) (actual st)
    (criticalSectionCount st) (schedulingInfo st) v
    (SP st) (SREG st) (TIMSK2 st) (PC st) (regs st) (mem st) (errors st).
Definition with_SP (v : Z) (st : OS) : OS :=
  mkOS (os_processes st) (currentProcess st) (currentProc st) (actual st)
    (criticalSectionCount st) (schedulingInfo st) (autostart_head st)
    v (SREG st) (TIMSK2 st) (PC st) (regs st) (mem st) (errors st).
Definition with_SREG (v : Z) (st : OS) : OS :=
  mkOS (os_processes st) (currentProcess st) (currentProc st) (actual st)
    (criticalSectionCount st) (schedulingInfo st) (autostart_head st)
    (SP st) v (TIMSK2 st) (PC st) (regs st) (mem st) (errors st).
Definition with_TIMSK2 (v : Z) (st : OS) : OS :=
  mkOS (os_processes st) (currentProcess st) (currentProc st) (actual st)
    (criticalSectionCount st) (schedulingInfo st) (autostart_head st)
    (SP st) (SREG st) v (PC st) (regs st) (mem st) (errors st).
Definition with_PC (v : Z) (st : OS) : OS :=
  mkOS (os_processes st) (currentProcess st) (currentProc st) (actual st)
    (criticalSectionCount st) (schedulingInfo st) (autostart_head st)
    (SP st) (SREG st) (TIMSK2 st) v (regs st) (mem st) (errors st).
Definition with_regs (v : list Z) (st : OS) : OS :=
  mkOS (os_processes st) (currentProcess st) (currentProc st) (actual st)
    (criticalSectionCount st) (schedulingInfo st) (autostart_head st)
    (SP st) (SREG st) (TIMSK2 st) (PC st) v (mem st) (errors st).
Definition with_mem (v : Z -> Z) (st : OS) : OS :=
  mkOS (os_processes st) (currentProcess st) (currentProc st) (actual st)
    (criticalSectionCount st) (schedulingInfo st) (autostart_head st)
    (SP st) (SREG st) (TIMSK2 st) (PC st) (regs st) v (errors st).
Definition with_errors (v : list string) (st : OS) : OS :=
  mkOS (os_processes st) (currentProcess st) (currentProc st) (actual st)
    (criticalSectionCount st) (schedulingInfo st) (autostart_head st)
    (SP st) (SREG st) (TIMSK2 st) (PC st) (regs st) (mem st) v.

(** [*a = b] on the data memory. *)
Definition poke (m : Z -> Z) (a b : Z) : Z -> Z :=
  fun x => if decide (x = a) then b else m x.

(** The bytes [bs] written downwards from address [a], the first one at
    [a]: what a sequence of [*(ptr--) = b], or of pushes, leaves in
    memory. *)
Fixpoint poke_down (bs : list Z) (a : Z) (m : Z -> Z) : Z -> Z :=
  match bs with
  | [] => m
  | b :: bs' => poke_down bs' (a - 1) (poke m a b)
  end.

(** [os_processes[pid].field = v], with [f] the field update. *)
Definition update_slot (pid : Z) (f : Process -> Process) (st : OS)
  : outcome OS :=
  p ← load (os_processes st) pid;
  procs ← store (os_processes st) pid (f p);
  Ok (with_os_processes procs st).

(** What the scheduler takes from the modules that are not among the
    sources, and from the compiler. *)
Class External : Type := {
  (** the task manager, entered from the interrupt on input 9 *)
  os_taskManMain : OS -> OS;
  (** the value of the expression [os_getCurrentProc()->priority] in
      [os_resetSchedulingInformation], whose left operand is a
      [ProcessID], not a pointer to a [Process] *)
  priority_through_pid : OS -> Z;
  (** the bytes that the function call in the given line of
      os_scheduler.c leaves on the stack in use, the first one at [SP]
      and the others below it: the return address, and what the callee
      saves and keeps there *)
  call_frame : Z -> OS -> list Z
}.

(** A function call made by the interrupt handler, as far as memory
    goes: the frame of the call is written downwards from [SP], and
    [SP] is back at its value when the callee has returned. *)
Definition stack_call `{External} (line : Z) (st : OS) : OS :=
  with_mem (poke_down (call_frame line st) (SP st) (mem st)) st.

(** Modelled from the spec: [os_errorPStr] of os_core is not among the
    sources.  The spec has it as the error sink, to which a fixed
    diagnostic is reported and which is assumed to halt or reset.  The
    embedding records the diagnostic in [errors] and computes on, as
    the C text of the callers reads after the call: a state with a new
    diagnostic is one that the system reaches only if the sink
    returns. *)
Definition os_errorPStr (msg : string) (st : OS) : OS :=
  with_errors (errors st ++ [msg]) st.

(** ** Context switch of the platform layer *)

(** One byte pushed on the stack that [SP] points into. *)
Definition push (b : Z) (st : OS) : OS :=
  with_SP (u16 (SP st - 1)) (with_mem (poke (mem st) (SP st) b) st).

(** One byte popped from the stack that [SP] points into. *)
Definition pop (st : OS) : Z * OS :=
  let a := u16 (SP st + 1) in (mem st a, with_SP a st).

(** Modelled from the spec: [saveContext] of os_scheduler.h is not among the
    sources; it pushes the entire CPU register file and the flags word
    onto the currently active stack. *)
Definition saveContext (st : OS) : OS :=
  foldl (fun s b => push b s) st (regs st ++ [SREG st]).

Fixpoint pop_bytes (n : nat) (st : OS) : list Z * OS :=
  match n with
  | O => ([], st)
  | S n' =>
      let '(b, st1) := pop st in
      let '(bs, st2) := pop_bytes n' st1 in
      (b :: bs, st2)
  end.

(** Modelled from the spec: [restoreContext] of os_scheduler.h is not among
    the sources; it pops the saved flags word and register file, and its
    final return-from-interrupt pops the return address (high byte
    first) and continues there. *)
Definition restoreContext (st : OS) : OS :=
  let '(flags, st1) := pop st in
  let '(rs, st2) := pop_bytes (length (regs st)) st1 in
  let '(hi, st3) := pop st2 in
  let '(lo, st4) := pop st3 in
  with_PC (hi * 256 + lo) (with_regs (reverse rs) (with_SREG flags st4)).

(** The processor accepting the timer interrupt: the return address is
    pushed, low byte first, before the handler runs. *)
Definition interrupt_entry (st : OS) : OS :=
  push (Z.shiftr (PC st) 8) (push (Z.land (PC st) 255) st).

(** ** os_scheduler.c *)

Section Scheduler.
Context `{Platform} `{External}.

Definition os_getCurrentProc (st : OS) : Z := currentProc st.

Definition os_getSchedulingStrategy (st : OS) : SchedulingStrategy :=
  actual st.

Definition os_getProcessSlot (pid : Z) (st : OS) : outcome Process :=
  load (os_processes st) pid.

(** [os_resetSchedulingInformation] of os_scheduling_strategies.c.  The
    [while] loop never advances [iterator]: it clears [age[0]] and
    stops. *)
Definition os_resetSchedulingInformation (strategy : SchedulingStrategy)
    (st : OS) : outcome OS :=
  let st1 :=
    if decide (strategy = OS_SS_ROUND_ROBIN) then
      with_schedulingInfo
        (set_timeSlice (u8 (priority_through_pid st)) (schedulingInfo st)) st
    else st in
  if decide (strategy = OS_SS_INACTIVE_AGING) then
    a ← load (age (schedulingInfo st1)) 0;
    if decide (a ≠ 0) then
      ages ← store (age (schedulingInfo st1)) 0 0;
      Ok (with_schedulingInfo (set_age ages (schedulingInfo st1)) st1)
    else Ok st1
  else Ok st1.

Definition os_setSchedulingStrategy (strategy : SchedulingStrategy)
    (st : OS) : outcome OS :=
  os_resetSchedulingInformation strategy st.

Definition os_enterCriticalSection (st : OS) : OS :=
  let GIEB := u8 (Z.shiftr (SREG st) 7) in
  let st1 := with_SREG (Z.land (SREG st) 127) st in
  let st2 :=
    if decide (criticalSectionCount st1 = 255) then
      os_errorPStr "Critical section overflow" st1
    else st1 in
  let st3 :=
    with_criticalSectionCount (u8 (criticalSectionCount st2 + 1)) st2 in
  let st4 :=
    with_TIMSK2 (u8 (Z.land (TIMSK2 st3) (Z.lnot (Z.shiftl 1 OCIE2A)))) st3 in
  with_SREG (u8 (Z.lor (SREG st4) (Z.shiftl GIEB 7))) st4.

Definition os_leaveCriticalSection (st : OS) : OS :=
  let GIEB := u8 (Z.shiftr (SREG st) 7) in
  let st1 := with_SREG (Z.land (SREG st) 127) st in
  let st2 :=
    if decide (criticalSectionCount st1 = 0) then
      os_errorPStr "Critical Sections don't match" st1
    else st1 in
  let st3 :=
    with_criticalSectionCount (u8 (criticalSectionCount st2 - 1)) st2 in
  let st4 :=
    if decide (criticalSectionCount st3 = 0) then
      with_TIMSK2 (u8 (Z.lor (TIMSK2 st3) (Z.shiftl 1 OCIE2A))) st3
    else st3 in
  with_SREG (u8 (Z.lor (SREG st4) (Z.shiftl GIEB 7))) st4.

(** The loop counter [p] is a [uint8_t]: when [STACK_SIZE_PROC] is 255 or
    more, [p <= STACK_SIZE_PROC] holds for every value of [p] and the
    loop has no exit. *)
Definition os_getStackChecksum (pid : Z) (st : OS) : outcome Z :=
  if decide (255 <= STACK_SIZE_PROC) then Diverge
  else
    for_loop (Z.to_nat (STACK_SIZE_PROC + 1)) 0 (fun p checksum =>
      Ok (Z.lxor checksum (mem st (PROCESS_STACK_BOTTOM pid + p)))) 0.

(** The search [for (pid = 0; pid < MAX_NUMBER_OF_PROCESSES; pid++)]
    with its [break] at the first unused slot. *)
Fixpoint first_unused (n : nat) (pid : Z) (processes : list Process)
  : outcome Z :=
  match n with
  | O => Ok pid
  | S n' =>
      p ← load processes pid;
      if decide (state p = OS_PS_UNUSED) then Ok pid
      else first_unused n' (u8 (pid + 1)) processes
  end.

(** [*(os_processes[pid].sp.as_ptr--) = b]. *)
Definition push_on_process_stack (pid : Z) (b : Z) (st : OS) : outcome OS :=
  p ← load (os_processes st) pid;
  update_slot pid (set_sp (u16 (sp p - 1)))
    (with_mem (poke (mem st) (sp p) b) st).

Definition os_exec (program : Z) (priority : Z) (st : OS)
  : outcome (Z * OS) :=
  let st := os_enterCriticalSection st in
  if decide (program = 0) then Ok (INVALID_PROCESS, st)
  else
    pid ← first_unused (Z.to_nat MAX_NUMBER_OF_PROCESSES) 0 (os_processes st);
    if decide (pid = MAX_NUMBER_OF_PROCESSES) then Ok (INVALID_PROCESS, st)
    else
      st ← update_slot pid (fun _ =>
             mkProcess program OS_PS_READY priority
               (u16 (PROCESS_STACK_BOTTOM pid)) 0) st;
      si ← os_resetProcessSchedulingInformation pid (schedulingInfo st);
      let st := with_schedulingInfo si st in
      st ← push_on_process_stack pid (Z.land (u16 program) 255) st;
      st ← push_on_process_stack pid (Z.shiftr (u16 program) 8) st;
      st ← for_loop 33 0 (fun _ st => push_on_process_stack pid 0 st) st;
      Ok (pid, os_leaveCriticalSection st).

Definition os_startScheduler (st : OS) : outcome OS :=
  let st := with_currentProc 0 st in
  st ← update_slot 0 (set_state OS_PS_RUNNING) st;
  p ← load (os_processes st) 0;
  Ok (restoreContext (with_SP (sp p) st)).

(** The [while (autostart_head != NULL)] loop of [os_initScheduler],
    by recursion on the list that [autostart_head] points to. *)
Fixpoint exec_autostart (programs : list Z) (st : OS) : outcome OS :=
  match programs with
  | [] => Ok (with_autostart_head [] st)
  | program :: next =>
      '(_, st) ← os_exec program DEFAULT_PRIORITY
                   (with_autostart_head programs st);
      exec_autostart next st
  end.

Definition os_initScheduler (st : OS) : outcome OS :=
  st ← for_each_slot (fun i st => update_slot i (set_state OS_PS_UNUSED) st) st;
  match autostart_head st with
  | [] => Fault
  | program :: next =>
      let programs :=
        if decide (program = idle) then next else program :: next in
      st ← exec_autostart programs st;
      '(_, st) ← os_exec idle DEFAULT_PRIORITY st;
      Ok st
  end.

(** The strategy call of one case of the [switch] in the interrupt
    handler, with the scheduling information that RoundRobin and
    InactiveAging update. *)
Definition call_strategy (fuel : nat) (rnd : Z) (st : OS)
  : outcome (Z * OS) :=
  match os_getSchedulingStrategy st with
  | OS_SS_EVEN =>
      r ← os_Scheduler_Even fuel (os_processes st) (currentProcess st);
      Ok (r, st)
  | OS_SS_RANDOM =>
      r ← os_Scheduler_Random rnd (os_processes st) (currentProcess st);
      Ok (r, st)
  | OS_SS_RUN_TO_COMPLETION =>
      r ← os_Scheduler_RunToCompletion fuel (os_processes st)
            (currentProcess st);
      Ok (r, st)
  | OS_SS_ROUND_ROBIN =>
      '(r, si) ← os_Scheduler_RoundRobin (os_processes st)
                   (currentProcess st) (schedulingInfo st);
      Ok (r, with_schedulingInfo si st)
  | OS_SS_INACTIVE_AGING =>
      '(r, si) ← os_Scheduler_InactiveAging (os_processes st)
                   (currentProcess st) (schedulingInfo st);
      Ok (r, with_schedulingInfo si st)
  end.

(** The line of the strategy call in each case of the [switch]. *)
Definition strategy_call_line (strategy : SchedulingStrategy) : Z :=
  match strategy with
  | OS_SS_EVEN => 89
  | OS_SS_RANDOM => 94
  | OS_SS_RUN_TO_COMPLETION => 99
  | OS_SS_ROUND_ROBIN => 104
  | OS_SS_INACTIVE_AGING => 109
  end.

(** [ISR(TIMER2_COMPA_vect)].  [input] is what [os_getInput()] reads at
    this tick and [rnd] what [rand()] would return.  The calls that the
    handler makes write their frames on the stack in use: the scheduler
    stack from line 75 on, the stack of the current slot again from line
    116 on.  [os_getStackChecksum] reads memory with its own frame
    written; the calls in the branch of input 9 are the task
    manager's. *)
Definition ISR (fuel : nat) (input rnd : Z) (st : OS) : outcome OS :=
  let st := saveContext st in
  st ← update_slot (currentProcess st) (set_sp (SP st)) st;
  let st := with_SP BOTTOM_OF_ISR_STACK st in
  let st := stack_call 77 st in
  c ← os_getStackChecksum (currentProcess st) st;
  st ← update_slot (currentProcess st) (set_checksum c) st;
  let st := stack_call 79 st in
  let st := if decide (input = 9) then os_taskManMain st else st in
  st ← update_slot (currentProcess st) (set_state OS_PS_READY) st;
  let st := stack_call 86 st in
  let st := stack_call (strategy_call_line (os_getSchedulingStrategy st)) st in
  '(next, st) ← call_strategy fuel rnd st;
  st ← update_slot next (set_state OS_PS_RUNNING) st;
  p ← load (os_processes st) (currentProcess st);
  let st := with_SP (sp p) st in
  p ← load (os_processes st) (currentProcess st);
  let st := stack_call 118 st in
  c ← os_getStackChecksum (currentProcess st) st;
  let st :=
    if decide (checksum p ≠ c) then
      os_errorPStr "Checksum incorrect" (stack_call 119 st)
    else st in
  Ok (restoreContext st).

(** One timer tick: the interrupt is taken and the handler runs. *)
Definition tick (fuel : nat) (input rnd : Z) (st : OS) : outcome OS :=
  ISR fuel input rnd (interrupt_entry st).

End Scheduler.

(** ** The exposed interface as a sequence of calls *)

Inductive call : Type :=
  | Exec (program priority : Z)
  | InitScheduler
  | StartScheduler
  | SetSchedulingStrategy (strategy : SchedulingStrategy)
  | EnterCriticalSection
  | LeaveCriticalSection
  | Tick (fuel : nat) (input rnd : Z).

Section Calls.
Context `{Platform} `{External}.

Definition run_call (c : call) (st : OS) : outcome OS :=
  match c with
  | Exec program priority =>
      '(_, st') ← os_exec program priority st; Ok st'
  | InitScheduler => os_initScheduler st
  | StartScheduler => os_startScheduler st
  | SetSchedulingStrategy strategy => os_setSchedulingStrategy strategy st
  | EnterCriticalSection => Ok (os_enterCriticalSection st)
  | LeaveCriticalSection => Ok (os_leaveCriticalSection st)
  | Tick fuel input rnd => tick fuel input rnd st
  end.

Fixpoint run_calls (cs : list call) (st : OS) : outcome OS :=
  match cs with
  | [] => Ok st
  | c :: cs' => st' ← run_call c st; run_calls cs' st'
  end.

End Calls.

(** ** A concrete platform and the states of the scenarios *)

(** An ATmega644-like memory map: 4 KiB of SRAM ending at 0x10FF, the
    scheduler stack below the 32 bytes of the main stack, eight process
    stacks of 128 bytes below that. *)
Definition example_platform : Platform := {|
  OCIE2A := 1;
  INVALID_PROCESS := 255;
  AGE_BITS := 8;
  PROCESS_STACK_BOTTOM := fun pid => 4127 - pid * 128;
  STACK_SIZE_PROC := 128;
  BOTTOM_OF_ISR_STACK := 4319;
  DEFAULT_PRIORITY := 2;
  idle := 512
|}.

(** A task manager that leaves the kernel alone, and calls that push
    their two-byte return address and nothing else: the address
    0x0100 plus the line of the call. *)
Definition example_external : External := {|
  os_taskManMain := fun st => st;
  priority_through_pid := fun _ => 0;
  call_frame := fun line _ => [line; 1]
|}.

Definition unused_slot : Process := mkProcess 0 OS_PS_UNUSED 0 0 0.

Definition no_ages : list Z := replicate 8 0.

(** The machine after reset, with the programs at 768 and 1024 in the
    autostart list: zeroed globals, so the strategy is the first
    enumerator and the timer interrupt is enabled by the platform. *)
Definition power_on : OS :=
  mkOS (replicate 8 unused_slot) 0 0 OS_SS_EVEN 0
    (mkSchedulingInformation 0 no_ages) [768; 1024]
    4351 128 2 0 (replicate 32 0) (fun _ => 0) [].

(** [power_on] with the timer interrupt masked before any critical
    section is entered. *)
Definition power_on_masked : OS := with_TIMSK2 0 power_on.

(** [os_initScheduler(); os_startScheduler();] from [power_on]. *)
Definition booted : outcome OS :=
  run_calls (H := example_platform) (H0 := example_external)
    [InitScheduler; StartScheduler] power_on.

Definition ready_slot (prio : Z) : Process := mkProcess 768 OS_PS_READY prio 0 0.
Definition running_slot (prio : Z) : Process := mkProcess 768 OS_PS_RUNNING prio 0 0.

(** Idle and two processes ready, the process in slot 1 with the higher
    priority. *)
Definition table_prio_5_3 : list Process :=
  [ready_slot 2; ready_slot 5; ready_slot 3;
   unused_slot; unused_slot; unused_slot; unused_slot; unused_slot].

(** Slot 0 running, slot 1 the only ready slot. *)
Definition table_idle_running : list Process :=
  [running_slot 2; ready_slot 2;
   unused_slot; unused_slot; unused_slot; unused_slot; unused_slot;
   unused_slot].

(** Slots 0 and 1 ready, slot 2 running. *)
Definition table_slot_2_running : list Process :=
  [ready_slot 2; ready_slot 2; running_slot 2;
   unused_slot; unused_slot; unused_slot; unused_slot; unused_slot].

(** No slot ready: the table after [os_initScheduler]'s first loop. *)
Definition table_all_unused : list Process := replicate 8 unused_slot.

(** A full table: every slot ready. *)
Definition table_full : list Process := replicate 8 (ready_slot 2).

(** ** Vocabulary of the statements *)

(** Slot [i] is in the table and its state is [OS_PS_READY]. *)
Definition slot_ready (processes : list Process) (i : Z) : bool :=
  match load processes i with
  | Ok p => is_ready p
  | _ => false
  end.

(** The ready slots below [i], in ascending order. *)
Definition ready_upto (processes : list Process) (i : Z) : list Z :=
  filter (fun j => slot_ready processes j = true) (seqZ 0 i).

Definition ready_ids (processes : list Process) : list Z :=
  ready_upto processes MAX_NUMBER_OF_PROCESSES.

Definition priority_of (processes : list Process) (i : Z) : Z :=
  match load processes i with
  | Ok p => priority p
  | _ => 0
  end.

Definition age_of (ages : list Z) (i : Z) : Z :=
  match load ages i with
  | Ok a => a
  | _ => 0
  end.

(** Slot [w] comes before slot [j] under the key (age descending,
    priority descending, slot id ascending). *)
Definition precedes (processes : list Process) (ages : list Z) (w j : Z)
  : Prop :=
  age_of ages w > age_of ages j
  \/ (age_of ages w = age_of ages j
      /\ priority_of processes w > priority_of processes j)
  \/ (age_of ages w = age_of ages j
      /\ priority_of processes w = priority_of processes j
      /\ w < j).

(** The ages after the first loop of InactiveAging, slot by slot. *)
Definition aged `{Platform} (processes : list Process) (ages : list Z) (i : Z)
  : Z :=
  if slot_ready processes i then
    wrap_age (age_of ages i + priority_of processes i)
  else age_of ages i.

(** Steps of the cyclic search 1, 2, ..., 7, 1, ... from [c] until it
    stands on [j]. *)
Definition steps_to (c j : Z) : Z :=
  if decide (c < j) then j - c else j - c + 7.

(** ** Further vocabulary *)

(** The stack frame that [os_exec] writes for [program]: the entry
    address, low byte first, and 33 zero bytes. *)
Definition initial_frame (program : Z) : list Z :=
  Z.land (u16 program) 255 :: Z.shiftr (u16 program) 8 :: replicate 33 0.

(** The table holds [programs] in its first slots, each ready with the
    default priority, a freshly primed stack and checksum 0, and its
    other slots are unused. *)
Definition table_holds `{Platform} (programs : list Z)
    (processes : list Process) : Prop :=
  length processes = Z.to_nat MAX_NUMBER_OF_PROCESSES
  /\ (forall (i : nat) (prog : Z),
        programs !! i = Some prog ->
        processes !! i
        = Some (mkProcess prog OS_PS_READY DEFAULT_PRIORITY
                  (PROCESS_STACK_BOTTOM (Z.of_nat i) - 35) 0))
  /\ (forall (i : nat) (p : Process),
        (length programs <= i)%nat ->
        processes !! i = Some p -> state p = OS_PS_UNUSED).

(** What the kernel relies on between calls: the two arrays have their
    eight entries, the nesting counter is below its limit and [SREG] is
    a byte. *)
Definition well_formed (st : OS) : Prop :=
  length (os_processes st) = Z.to_nat MAX_NUMBER_OF_PROCESSES
  /\ length (age (schedulingInfo st)) = Z.to_nat MAX_NUMBER_OF_PROCESSES
  /\ 0 <= criticalSectionCount st < 255
  /\ 0 <= SREG st < 256.

(** Every process stack has room for the initial frame and lies in the
    16-bit address space. *)
Definition stacks_in_memory `{Platform} : Prop :=
  forall pid, 0 <= pid < MAX_NUMBER_OF_PROCESSES ->
              35 <= PROCESS_STACK_BOTTOM pid < 65536.

(** The programs that [os_initScheduler] starts from the list at
    [autostart_head]: all of them, but not [idle] when it comes
    first. *)
Definition started_from `{Platform} (listed : list Z) : list Z :=
  match listed with
  | [] => []
  | program :: next => if decide (program = idle) then next else listed
  end.

(** The XOR of the [n] bytes of memory from address [a] upwards. *)
Fixpoint xor_bytes (m : Z -> Z) (a : Z) (n : nat) : Z :=
  match n with
  | O => 0
  | S n' => Z.lxor (m a) (xor_bytes m (a + 1) n')
  end.

(** A timer tick at which the task manager is not entered, with fuel
    for one round of the cyclic search. *)
Definition plain_tick (c : call) : Prop :=
  match c with
  | Tick fuel input rnd => (7 <= fuel)%nat /\ input ≠ 9 /\ 0 <= rnd
  | _ => False
  end.

(** [n] calls of [os_Scheduler_RoundRobin] on one table, each with the
    scheduling information that the call before has left: the slots
    returned, first call first. *)
Fixpoint round_robin_calls (n : nat) (processes : list Process)
    (current : Z) (si : SchedulingInformation)
  : outcome (list Z * SchedulingInformation) :=
  match n with
  | O => Ok ([], si)
  | S n' =>
      '(r, si1) ← os_Scheduler_RoundRobin processes current si;
      '(rs, si2) ← round_robin_calls n' processes current si1;
      Ok (r :: rs, si2)
  end.

(** The stack of slot [pid] holds the frame that [os_exec] writes for
    [program], downwards from the stack bottom. *)
Definition stack_primed `{Platform} (pid program : Z) (m : Z -> Z) : Prop :=
  forall (x : nat) (b : Z),
    initial_frame program !! x = Some b ->
    m (PROCESS_STACK_BOTTOM pid - Z.of_nat x) = b.

(** The stacks of the first slots hold the frames of [programs]. *)
Definition stacks_primed `{Platform} (programs : list Z) (m : Z -> Z)
  : Prop :=
  forall (i : nat) (prog : Z),
    programs !! i = Some prog -> stack_primed (Z.of_nat i) prog m.

(** The initial frames of two slots do not overlap. *)
Definition frames_apart `{Platform} : Prop :=
  forall i j,
    0 <= i < MAX_NUMBER_OF_PROCESSES -> 0 <= j < MAX_NUMBER_OF_PROCESSES ->
    i ≠ j ->
    PROCESS_STACK_BOTTOM i < PROCESS_STACK_BOTTOM j - 34
    \/ PROCESS_STACK_BOTTOM j < PROCESS_STACK_BOTTOM i - 34.

(** [power_on] with eight programs in the autostart list. *)
Definition power_on_crowded : OS :=
  with_autostart_head [768; 1024; 1280; 1536; 1792; 2048; 2304; 2560] power_on.

(** The calls of the interrupt handler keep clear of what the handler
    relies on.  No frame is longer than [depth] bytes.  The [depth]
    bytes at the bottom of the scheduler stack, where the frames of the
    calls in lines 77 to 109 lie, touch neither the bytes that
    [os_getStackChecksum] reads for the current slot nor the context
    saved on the interrupted stack.  The [depth] bytes below the saved
    context, where the frames of the calls in lines 118 and 119 lie, do
    not touch the bytes that [os_getStackChecksum] reads either. *)
Definition frames_keep_clear `{Platform} `{External} (depth : Z) (st : OS)
  : Prop :=
  let lo := PROCESS_STACK_BOTTOM (currentProcess st) in
  let hi := lo + STACK_SIZE_PROC in
  let saved := SP st - Z.of_nat (length (regs st)) - 3 in
  (forall line stx, Z.of_nat (length (call_frame line stx)) <= depth)
  /\ (BOTTOM_OF_ISR_STACK < lo \/ hi <= BOTTOM_OF_ISR_STACK - depth)
  /\ (BOTTOM_OF_ISR_STACK <= saved \/ SP st <= BOTTOM_OF_ISR_STACK - depth)
  /\ (saved < lo \/ hi <= saved - depth).

(** Slot 0 running on its own stack, slot 1 ready. *)
Definition slot_0_running : OS :=
  with_SP 4127 (with_os_processes table_idle_running power_on).

(** * Properties *)

(** ** Arrays and loops *)

Lemma bind_Ok {A B} (m : outcome A) (f : A -> outcome B) (b : B) :
  m ≫= f = Ok b <-> exists a, m = Ok a /\ f a = Ok b.
Proof.
  destruct m as [a| |]; simpl; split; try (intros [? [? ?]]); try discriminate;
    eauto; congruence.
Qed.

(** Inverts a hypothesis [H : (x ← m; k) = Ok b] into the results of
    [m] and of [k]. *)
Ltac bind_inv H :=
  let a := fresh "r" in
  let E := fresh "E" in
  apply bind_Ok in H; destruct H as [a [E H]].

Lemma load_in_range {A} (a : list A) (i : Z) :
  0 <= i < Z.of_nat (length a) ->
  exists x, load a i = Ok x /\ a !! Z.to_nat i = Some x.
Proof.
  intros Hi. unfold load. rewrite decide_True by lia.
  destruct (lookup_lt_is_Some_2 a (Z.to_nat i)) as [x Hx]; [lia|].
  rewrite Hx. eauto.
Qed.

Lemma load_Ok {A} (a : list A) (i : Z) (x : A) :
  load a i = Ok x <-> 0 <= i /\ a !! Z.to_nat i = Some x.
Proof.
  unfold load. case_decide; [|split; [discriminate|lia]].
  destruct (a !! Z.to_nat i); split; intros; destruct_and?; simplify_eq;
    auto.
Qed.

Lemma store_Ok {A} (a a' : list A) (i : Z) (x : A) :
  store a i x = Ok a' <->
  0 <= i < Z.of_nat (length a) /\ a' = <[Z.to_nat i := x]> a.
Proof.
  unfold store. case_decide; split; intros; destruct_and?; simplify_eq;
    auto; lia.
Qed.

Lemma store_length {A} (a a' : list A) (i : Z) (x : A) :
  store a i x = Ok a' -> length a' = length a.
Proof. rewrite store_Ok. intros [_ ->]. apply length_insert. Qed.

(** The loop rule: an invariant that holds at the start and that every
    iteration re-establishes holds when the loop is over, and the loop
    returns. *)
Lemma for_loop_inv {St} (I : Z -> St -> Prop) (n : nat) (lo : Z)
    (body : Z -> St -> outcome St) (s : St) :
  I lo s ->
  (forall i s, lo <= i < lo + Z.of_nat n -> I i s ->
     exists s', body i s = Ok s' /\ I (i + 1) s') ->
  exists s', for_loop n lo body s = Ok s' /\ I (lo + Z.of_nat n) s'.
Proof.
  revert lo s. induction n as [|n IH]; intros lo s H0 Hstep.
  - exists s. simpl. split; [done|]. by replace (lo + Z.of_nat 0) with lo by lia.
  - destruct (Hstep lo s) as [s1 [Hb H1]]; [lia|done|].
    destruct (IH (lo + 1) s1) as [s2 [Hl H2]]; [done| |].
    + intros i s' Hi. apply Hstep. lia.
    + exists s2. simpl. rewrite Hb. simpl. split; [done|].
      by replace (lo + Z.of_nat (S n)) with (lo + 1 + Z.of_nat n) by lia.
Qed.

(** A loop whose iterations all return keeps what each of them keeps. *)
Lemma for_loop_keeps {St} (P : St -> Prop) (n : nat) (lo : Z)
    (body : Z -> St -> outcome St) (s s' : St) :
  (forall i s s', body i s = Ok s' -> P s -> P s') ->
  for_loop n lo body s = Ok s' -> P s -> P s'.
Proof.
  intros Hbody. revert lo s. induction n as [|n IH]; intros lo s Hl Hs.
  - simpl in Hl. by simplify_eq.
  - simpl in Hl. bind_inv Hl. eauto.
Qed.

(** ** The critical-section gate: bytes and bits *)

Lemma u8_small (x : Z) : 0 <= x < 256 -> u8 x = x.
Proof. intros. unfold u8. by apply Z.mod_small. Qed.

Lemma u8_land_255 (x : Z) : u8 x = Z.land x 255.
Proof.
  unfold u8. change 255 with (Z.ones 8). by rewrite Z.land_ones by lia.
Qed.

Lemma byte_high_bits (x : Z) (n : Z) :
  0 <= x < 256 -> 8 <= n -> Z.testbit x n = false.
Proof.
  intros Hx Hn. destruct (decide (x = 0)) as [->|].
  - apply Z.bits_0.
  - apply Z.bits_above_log2; [lia|].
    assert (Z.log2 x < 8); [|lia]. apply Z.log2_lt_pow2; lia.
Qed.

(** Taking the interrupt flag out of [SREG] and putting it back is the
    identity on a byte. *)
Lemma SREG_restored (s : Z) :
  0 <= s < 256 ->
  u8 (Z.lor (Z.land s 127) (Z.shiftl (u8 (Z.shiftr s 7)) 7)) = s.
Proof.
  intros Hs. rewrite !u8_land_255. apply Z.bits_inj'. intros n Hn.
  rewrite Z.land_spec, Z.lor_spec, Z.land_spec.
  change 255 with (Z.ones 8). change 127 with (Z.ones 7).
  destruct (decide (n < 7)).
  - rewrite !Z.ones_spec_low by lia.
    rewrite Z.shiftl_spec_low by lia. by rewrite !andb_true_r, orb_false_r.
  - rewrite (Z.ones_spec_high 7) by lia. rewrite andb_false_r. simpl.
    rewrite Z.shiftl_spec by lia. rewrite Z.land_spec, Z.shiftr_spec by lia.
    replace (n - 7 + 7) with n by lia.
    destruct (decide (n < 8)).
    + rewrite (Z.ones_spec_low 8) by lia. rewrite Z.ones_spec_low by lia.
      by rewrite !andb_true_r.
    + rewrite (Z.ones_spec_high 8 n) by lia.
      rewrite (byte_high_bits s n) by lia. by rewrite andb_false_r.
Qed.

(** Clearing a bit of a byte and setting it again is setting it. *)
Lemma mask_then_unmask (t b : Z) :
  0 <= t < 256 -> 0 <= b < 8 ->
  u8 (Z.lor (u8 (Z.land t (Z.lnot (Z.shiftl 1 b)))) (Z.shiftl 1 b))
  = Z.lor t (Z.shiftl 1 b).
Proof.
  intros Ht Hb. rewrite !u8_land_255. apply Z.bits_inj'. intros n Hn.
  rewrite !Z.land_spec, !Z.lor_spec, !Z.land_spec, Z.lnot_spec by lia.
  rewrite Z.shiftl_spec by lia.
  change 255 with (Z.ones 8).
  destruct (decide (n < 8)).
  - rewrite Z.ones_spec_low by lia. rewrite !andb_true_r.
    destruct (Z.testbit t n), (Z.testbit 1 (n - b)); done.
  - rewrite Z.ones_spec_high by lia. rewrite !andb_false_r.
    rewrite byte_high_bits by lia.
    destruct (decide (n - b = 0)); [lia|].
    symmetry. simpl. apply (Z.bits_above_log2 1 (n - b)); simpl; lia.
Qed.

Lemma lor_bit_id (t b : Z) :
  0 <= b -> Z.testbit t b = true -> Z.lor t (Z.shiftl 1 b) = t.
Proof.
  intros Hb Ht. apply Z.bits_inj'. intros n Hn.
  rewrite Z.lor_spec, Z.shiftl_spec by lia.
  destruct (decide (n = b)) as [->|].
  - by rewrite Ht.
  - destruct (decide (n < b)).
    + rewrite (Z.testbit_neg_r 1) by lia. by rewrite orb_false_r.
    + rewrite (Z.bits_above_log2 1 (n - b)) by (simpl; lia).
      by rewrite orb_false_r.
Qed.

(** ** The critical-section gate *)

Section Gate.
Context `{Platform} `{External}.

Lemma enter_count (st : OS) :
  criticalSectionCount (os_enterCriticalSection st)
  = u8 (criticalSectionCount st + 1).
Proof. unfold os_enterCriticalSection. simpl. by case_decide. Qed.

Lemma enter_os_processes (st : OS) :
  os_processes (os_enterCriticalSection st) = os_processes st.
Proof. unfold os_enterCriticalSection. simpl. by case_decide. Qed.

Lemma enter_errors (st : OS) :
  criticalSectionCount st ≠ 255 ->
  errors (os_enterCriticalSection st) = errors st.
Proof.
  intros Hc. unfold os_enterCriticalSection. simpl.
  by rewrite decide_False by done.
Qed.

(** Outside the overflow case, entering adds one to the counter and
    clears the timer-compare enable bit; [SREG] is as before. *)
Lemma enter_eq (st : OS) :
  criticalSectionCount st ≠ 255 ->
  0 <= SREG st < 256 ->
  os_enterCriticalSection st
  = with_TIMSK2 (u8 (Z.land (TIMSK2 st) (Z.lnot (Z.shiftl 1 OCIE2A))))
      (with_criticalSectionCount (u8 (criticalSectionCount st + 1)) st).
Proof.
  intros Hc Hs.
  destruct st as [procs cp cpr act c si auto sp0 sreg timsk pc rs m errs].
  unfold os_enterCriticalSection. simpl in *.
  rewrite (decide_False (P := c = 255)) by done.
  unfold with_TIMSK2, with_criticalSectionCount, with_SREG. simpl.
  f_equal. by apply SREG_restored.
Qed.

(** Outside the underflow case, leaving takes one from the counter and
    sets the timer-compare enable bit when the counter reaches 0. *)
Lemma leave_eq (st : OS) :
  criticalSectionCount st ≠ 0 ->
  0 <= SREG st < 256 ->
  os_leaveCriticalSection st
  = let st' :=
      with_criticalSectionCount (u8 (criticalSectionCount st - 1)) st in
    if decide (criticalSectionCount st' = 0) then
      with_TIMSK2 (u8 (Z.lor (TIMSK2 st) (Z.shiftl 1 OCIE2A))) st'
    else st'.
Proof.
  intros Hc Hs.
  destruct st as [procs cp cpr act c si auto sp0 sreg timsk pc rs m errs].
  unfold os_leaveCriticalSection. simpl in *.
  rewrite (decide_False (P := c = 0)) by done. simpl.
  case_decide; unfold with_TIMSK2, with_criticalSectionCount, with_SREG;
    simpl; f_equal; by apply SREG_restored.
Qed.

(** C6, as the code has it: from nesting depth 0 the pair
    [os_enterCriticalSection(); os_leaveCriticalSection();] changes
    nothing but the timer-compare enable bit of [TIMSK2], which it
    leaves set; so the pair restores the whole state exactly when
    that bit was set before. *)
Theorem enter_leave_at_depth_0 (st : OS) :
  0 <= OCIE2A < 8 ->
  criticalSectionCount st = 0 ->
  0 <= SREG st < 256 ->
  0 <= TIMSK2 st < 256 ->
  os_leaveCriticalSection (os_enterCriticalSection st)
    = with_TIMSK2 (Z.lor (TIMSK2 st) (Z.shiftl 1 OCIE2A)) st
  /\ (Z.testbit (TIMSK2 st) OCIE2A = true <->
      os_leaveCriticalSection (os_enterCriticalSection st) = st).
Proof.
  intros Hb Hc Hs Ht.
  assert (os_leaveCriticalSection (os_enterCriticalSection st)
          = with_TIMSK2 (Z.lor (TIMSK2 st) (Z.shiftl 1 OCIE2A)) st) as Heq.
  { rewrite enter_eq by (done || lia). rewrite leave_eq; simpl.
    - rewrite Hc. simpl. rewrite mask_then_unmask by done.
      destruct st; simpl in *. by subst.
    - rewrite Hc. done.
    - done. }
  split; [done|]. rewrite Heq. split.
  - intros Hbit. rewrite lor_bit_id by (done || lia). by destruct st.
  - intros Hst. apply (f_equal TIMSK2) in Hst. simpl in Hst.
    rewrite <- Hst, Z.lor_spec, Z.shiftl_spec, Z.sub_diag by lia.
    apply orb_true_r.
Qed.

End Gate.

(** ** [os_exec] *)

Section Exec.
Context `{Platform} `{External}.

Lemma first_unused_full (processes : list Process) (n : nat) (pid : Z) :
  (forall p, p ∈ processes -> state p ≠ OS_PS_UNUSED) ->
  0 <= pid ->
  pid + Z.of_nat n <= Z.of_nat (length processes) ->
  Z.of_nat (length processes) < 256 ->
  first_unused n pid processes = Ok (pid + Z.of_nat n).
Proof.
  intros Hfull. revert pid. induction n as [|n IH]; intros pid Hpid Hn Hlen.
  - simpl. f_equal. lia.
  - simpl. destruct (load_in_range processes pid) as [p [-> Hp]]; [lia|].
    simpl. rewrite decide_False.
    + rewrite u8_small by lia. rewrite IH by lia. f_equal. lia.
    + apply Hfull. by eapply list_elem_of_lookup_2.
Qed.

(** C7: called on a table without an unused slot, [os_exec] returns
    [INVALID_PROCESS] and the process table is the one from before
    the call (and nothing is reported to [os_errorPStr] unless the
    nesting counter was already 255). *)
Theorem exec_on_full_table (program priority : Z) (st : OS) :
  length (os_processes st) = Z.to_nat MAX_NUMBER_OF_PROCESSES ->
  (forall p, p ∈ os_processes st -> state p ≠ OS_PS_UNUSED) ->
  exists st',
    os_exec program priority st = Ok (INVALID_PROCESS, st')
    /\ os_processes st' = os_processes st
    /\ (criticalSectionCount st ≠ 255 -> errors st' = errors st).
Proof.
  intros Hlen Hfull. exists (os_enterCriticalSection st).
  split; [|split; [apply enter_os_processes|apply enter_errors]].
  unfold os_exec. case_decide; [done|].
  rewrite (first_unused_full _ _ 0).
  - done.
  - by rewrite enter_os_processes.
  - done.
  - rewrite enter_os_processes, Hlen. unfold MAX_NUMBER_OF_PROCESSES. lia.
  - rewrite enter_os_processes, Hlen. unfold MAX_NUMBER_OF_PROCESSES. lia.
Qed.

(** C5, what the code does: with the null program, and on a table
    without an unused slot, [os_exec] returns [INVALID_PROCESS] from
    inside the critical section it entered, so the nesting counter is
    one more than before the call (modulo 256), not equal to it. *)
Theorem exec_failure_stays_in_critical_section (program priority : Z)
    (st : OS) :
  0 <= criticalSectionCount st < 256 ->
  program = 0
  \/ (length (os_processes st) = Z.to_nat MAX_NUMBER_OF_PROCESSES
      /\ forall p, p ∈ os_processes st -> state p ≠ OS_PS_UNUSED) ->
  exists st',
    os_exec program priority st = Ok (INVALID_PROCESS, st')
    /\ criticalSectionCount st' = u8 (criticalSectionCount st + 1)
    /\ criticalSectionCount st' ≠ criticalSectionCount st.
Proof.
  intros Hc Hfail. exists (os_enterCriticalSection st).
  split; [|split].
  - unfold os_exec. case_decide as Hp; [done|].
    destruct Hfail as [?|[Hlen Hfull]]; [done|].
    rewrite (first_unused_full _ _ 0).
    + done.
    + by rewrite enter_os_processes.
    + done.
    + rewrite enter_os_processes, Hlen. unfold MAX_NUMBER_OF_PROCESSES. lia.
    + rewrite enter_os_processes, Hlen. unfold MAX_NUMBER_OF_PROCESSES. lia.
  - apply enter_count.
  - rewrite enter_count. unfold u8.
    destruct (decide (criticalSectionCount st = 255)) as [->|]; [done|].
    rewrite Z.mod_small by lia. lia.
Qed.

End Exec.

(** ** What the scheduler never assigns *)

Section Frame.
Context `{Platform} `{External}.

(** C9: [os_setSchedulingStrategy] only resets scheduling information;
    whatever strategy it is given, [os_getSchedulingStrategy] returns
    after the call what it returned before. *)
Theorem set_strategy_keeps_strategy (strategy : SchedulingStrategy) (st : OS) :
  length (age (schedulingInfo st)) = Z.to_nat MAX_NUMBER_OF_PROCESSES ->
  exists st',
    os_setSchedulingStrategy strategy st = Ok st'
    /\ actual st' = actual st
    /\ os_getSchedulingStrategy st' = os_getSchedulingStrategy st.
Proof.
  intros Hage.
  unfold os_setSchedulingStrategy, os_resetSchedulingInformation.
  unfold os_getSchedulingStrategy.
  destruct (age (schedulingInfo st)) as [|a0 ages] eqn:Ea; [done|].
  clear Hage.
  destruct strategy; simpl; rewrite ?Ea; simpl; eauto.
  case_decide; simpl; eauto.
Qed.

Lemma update_slot_currentProc (pid : Z) (f : Process -> Process)
    (st st' : OS) :
  update_slot pid f st = Ok st' -> currentProc st' = currentProc st.
Proof.
  unfold update_slot. intros Hu. bind_inv Hu. bind_inv Hu. by simplify_eq.
Qed.

Lemma push_on_process_stack_currentProc (pid b : Z) (st st' : OS) :
  push_on_process_stack pid b st = Ok st' ->
  currentProc st' = currentProc st.
Proof.
  unfold push_on_process_stack. intros Hp. bind_inv Hp.
  by apply update_slot_currentProc in Hp.
Qed.

Lemma enter_currentProc (st : OS) :
  currentProc (os_enterCriticalSection st) = currentProc st.
Proof. unfold os_enterCriticalSection. simpl. by case_decide. Qed.

Lemma leave_currentProc (st : OS) :
  currentProc (os_leaveCriticalSection st) = currentProc st.
Proof.
  unfold os_leaveCriticalSection. simpl. by repeat (case_decide; simpl).
Qed.

Lemma exec_currentProc (program priority : Z) (st st' : OS) (pid : Z) :
  os_exec program priority st = Ok (pid, st') ->
  currentProc st' = currentProc st.
Proof.
  unfold os_exec. intros He.
  case_decide; [simplify_eq; apply enter_currentProc|].
  bind_inv He. case_decide; [simplify_eq; apply enter_currentProc|].
  bind_inv He. bind_inv He. bind_inv He. bind_inv He. bind_inv He.
  simplify_eq. rewrite leave_currentProc.
  match goal with
  | Hl : for_loop _ _ _ _ = Ok _ |- _ =>
      apply (for_loop_keeps (fun s => currentProc s = currentProc st)) in Hl;
        [done| |]
  end.
  - intros i s s' Hp Hs. apply push_on_process_stack_currentProc in Hp.
    congruence.
  - repeat match goal with
      | Hp : push_on_process_stack _ _ _ = Ok _ |- _ =>
          apply push_on_process_stack_currentProc in Hp
      | Hp : update_slot _ _ _ = Ok _ |- _ =>
          apply update_slot_currentProc in Hp
      end.
    rewrite E3, E2. simpl. rewrite E0. apply enter_currentProc.
Qed.

Lemma pop_bytes_currentProc (n : nat) (st : OS) :
  currentProc (pop_bytes n st).2 = currentProc st.
Proof.
  revert st. induction n as [|n IH]; intros st; [done|].
  simpl. specialize (IH (with_SP (u16 (SP st + 1)) st)).
  destruct (pop_bytes n _). simpl in *. done.
Qed.

Lemma restoreContext_currentProc (st : OS) :
  currentProc (restoreContext st) = currentProc st.
Proof.
  unfold restoreContext. simpl.
  pose proof (pop_bytes_currentProc (length (regs st))
                (with_SP (u16 (SP st + 1)) st)) as Hp.
  destruct (pop_bytes _ _). simpl in *. done.
Qed.

Lemma saveContext_currentProc (st : OS) :
  currentProc (saveContext st) = currentProc st.
Proof.
  unfold saveContext. generalize (regs st ++ [SREG st]). intros bs.
  revert st. induction bs as [|b bs IH]; intros st; [done|].
  simpl. by rewrite IH.
Qed.

Lemma exec_autostart_currentProc (programs : list Z) (st st' : OS) :
  exec_autostart programs st = Ok st' -> currentProc st' = currentProc st.
Proof.
  revert st. induction programs as [|p ps IH]; intros st Hx; simpl in Hx.
  - by simplify_eq.
  - bind_inv Hx. destruct r as [pid st1]. apply IH in Hx.
    apply exec_currentProc in E. simpl in E. congruence.
Qed.

Lemma initScheduler_currentProc (st st' : OS) :
  os_initScheduler st = Ok st' -> currentProc st' = currentProc st.
Proof.
  unfold os_initScheduler. intros Hi. bind_inv Hi.
  apply (for_loop_keeps (fun s => currentProc s = currentProc st)) in E;
    [| |done].
  - destruct (autostart_head r) as [|p ps]; [done|].
    bind_inv Hi. bind_inv Hi. destruct r1 as [pid st2]. simplify_eq.
    apply exec_autostart_currentProc in E0. apply exec_currentProc in E1.
    congruence.
  - intros i s s' Hu Hs. apply update_slot_currentProc in Hu. congruence.
Qed.

Lemma startScheduler_currentProc (st st' : OS) :
  os_startScheduler st = Ok st' -> currentProc st' = 0.
Proof.
  unfold os_startScheduler. intros Hs. bind_inv Hs. bind_inv Hs.
  simplify_eq. rewrite restoreContext_currentProc. simpl.
  by apply update_slot_currentProc in E.
Qed.

Lemma setSchedulingStrategy_currentProc (strategy : SchedulingStrategy)
    (st st' : OS) :
  os_setSchedulingStrategy strategy st = Ok st' ->
  currentProc st' = currentProc st.
Proof.
  unfold os_setSchedulingStrategy, os_resetSchedulingInformation.
  intros Hs. destruct strategy; simpl in Hs; simplify_eq; try done.
  bind_inv Hs. case_decide; [bind_inv Hs|]; by simplify_eq.
Qed.

Lemma call_strategy_currentProc (fuel : nat) (rnd : Z) (st st' : OS)
    (next : Z) :
  call_strategy fuel rnd st = Ok (next, st') ->
  currentProc st' = currentProc st.
Proof.
  unfold call_strategy. intros Hc.
  destruct (os_getSchedulingStrategy st); bind_inv Hc;
    try destruct r as [? si]; by simplify_eq.
Qed.

Lemma ISR_currentProc (fuel : nat) (input rnd : Z) (st st' : OS) :
  (forall s, currentProc (os_taskManMain s) = currentProc s) ->
  ISR fuel input rnd st = Ok st' -> currentProc st' = currentProc st.
Proof.
  intros Htm. unfold ISR. intros Hi.
  do 4 bind_inv Hi. bind_inv Hi. destruct r3 as [next st4].
  do 4 bind_inv Hi. simplify_eq. rewrite restoreContext_currentProc.
  repeat match goal with
    | Hp : update_slot _ _ _ = Ok _ |- _ =>
        apply update_slot_currentProc in Hp
    | Hp : call_strategy _ _ _ = Ok _ |- _ =>
        apply call_strategy_currentProc in Hp
    end.
  unfold stack_call in *. simpl in E1, E3.
  assert (currentProc r2 = currentProc st) as <-.
  { rewrite E2. case_decide; rewrite ?Htm; simpl; rewrite E1, E;
      apply saveContext_currentProc. }
  destruct (decide (checksum r5 ≠ r6)); simpl; congruence.
Qed.

(** The interrupt handler does not assign [currentProcess] either: unless
    the task manager is entered, the slot that the handler restores is
    the slot it pre-empted, whatever the strategy returns. *)
Lemma update_slot_currentProcess (pid : Z) (f : Process -> Process)
    (st st' : OS) :
  update_slot pid f st = Ok st' -> currentProcess st' = currentProcess st.
Proof.
  unfold update_slot. intros Hu. bind_inv Hu. bind_inv Hu. by simplify_eq.
Qed.

Lemma pop_bytes_currentProcess (n : nat) (st : OS) :
  currentProcess (pop_bytes n st).2 = currentProcess st.
Proof.
  revert st. induction n as [|n IH]; intros st; [done|].
  simpl. specialize (IH (with_SP (u16 (SP st + 1)) st)).
  destruct (pop_bytes n _). simpl in *. done.
Qed.

Lemma restoreContext_currentProcess (st : OS) :
  currentProcess (restoreContext st) = currentProcess st.
Proof.
  unfold restoreContext. simpl.
  pose proof (pop_bytes_currentProcess (length (regs st))
                (with_SP (u16 (SP st + 1)) st)) as Hp.
  destruct (pop_bytes _ _). simpl in *. done.
Qed.

Lemma saveContext_currentProcess (st : OS) :
  currentProcess (saveContext st) = currentProcess st.
Proof.
  unfold saveContext. generalize (regs st ++ [SREG st]). intros bs.
  revert st. induction bs as [|b bs IH]; intros st; [done|].
  simpl. by rewrite IH.
Qed.

Lemma call_strategy_currentProcess (fuel : nat) (rnd : Z) (st st' : OS)
    (next : Z) :
  call_strategy fuel rnd st = Ok (next, st') ->
  currentProcess st' = currentProcess st.
Proof.
  unfold call_strategy. intros Hc.
  destruct (os_getSchedulingStrategy st); bind_inv Hc;
    try destruct r as [? si]; by simplify_eq.
Qed.

Lemma ISR_keeps_currentProcess (fuel : nat) (input rnd : Z) (st st' : OS) :
  input ≠ 9 ->
  ISR fuel input rnd st = Ok st' -> currentProcess st' = currentProcess st.
Proof.
  intros Hin. unfold ISR. intros Hi.
  do 4 bind_inv Hi. bind_inv Hi. destruct r3 as [next st4].
  do 4 bind_inv Hi. simplify_eq. rewrite restoreContext_currentProcess.
  rewrite (decide_False (P := input = 9)) in E2 by done.
  repeat match goal with
    | Hp : update_slot _ _ _ = Ok _ |- _ =>
        apply update_slot_currentProcess in Hp
    | Hp : call_strategy _ _ _ = Ok _ |- _ =>
        apply call_strategy_currentProcess in Hp
    end.
  unfold stack_call in *. simpl in *.
  rewrite saveContext_currentProcess in *.
  destruct (decide (checksum r5 ≠ r6)); simpl; congruence.
Qed.

Lemma run_call_currentProc (c : call) (st st' : OS) :
  (forall s, currentProc (os_taskManMain s) = currentProc s) ->
  run_call c st = Ok st' ->
  (c = StartScheduler /\ currentProc st' = 0)
  \/ currentProc st' = currentProc st.
Proof.
  intros Htm Hc. destruct c; simpl in Hc.
  - right. bind_inv Hc. destruct r as [pid st1]. simplify_eq.
    by eapply exec_currentProc.
  - right. by apply initScheduler_currentProc.
  - left. split; [done|]. by eapply startScheduler_currentProc.
  - right. by eapply setSchedulingStrategy_currentProc.
  - right. simplify_eq. apply enter_currentProc.
  - right. simplify_eq. apply leave_currentProc.
  - right. unfold tick in Hc. eapply ISR_currentProc in Hc; [|done].
    rewrite Hc. done.
Qed.

(** C10: no call of the interface assigns [currentProc] except
    [os_startScheduler], which assigns 0, and the interrupt handler works
    on [currentProcess], another variable.  So after any sequence of
    calls, timer ticks included, [os_getCurrentProc] returns what it
    returned before the sequence, or 0 if [os_startScheduler] was
    called; from the initial value 0 it returns 0 throughout.  The
    external task manager is assumed not to write the variable. *)
Theorem getCurrentProc_is_0 (cs : list call) (st st' : OS) :
  (forall s, currentProc (os_taskManMain s) = currentProc s) ->
  run_calls cs st = Ok st' ->
  (currentProc st = 0 -> os_getCurrentProc st' = 0)
  /\ (os_getCurrentProc st' = currentProc st
      \/ (StartScheduler ∈ cs /\ os_getCurrentProc st' = 0)).
Proof.
  intros Htm. unfold os_getCurrentProc.
  revert st. induction cs as [|c cs IH]; intros st Hr.
  - simpl in Hr. simplify_eq. split; [done|by left].
  - simpl in Hr. bind_inv Hr. destruct (IH r Hr) as [Hzero Hsame].
    destruct (run_call_currentProc c st r Htm E) as [[-> Hc]|Hc].
    + split; [auto|]. right. split; [apply list_elem_of_here|auto].
    + rewrite Hc in *. split; [done|].
      destruct Hsame as [?|[? ?]]; [by left|].
      right. split; [by apply list_elem_of_further|done].
Qed.

End Frame.

(** ** Ready slots and the counting loop *)

Section ReadySlots.
Variable processes : list Process.
Hypothesis table_size :
  length processes = Z.to_nat MAX_NUMBER_OF_PROCESSES.

Lemma load_slot (i : Z) :
  0 <= i < MAX_NUMBER_OF_PROCESSES ->
  exists p, load processes i = Ok p
            /\ slot_ready processes i = is_ready p
            /\ priority_of processes i = priority p.
Proof.
  intros Hi. destruct (load_in_range processes i) as [p [Hp _]].
  - rewrite table_size. lia.
  - exists p. unfold slot_ready, priority_of. by rewrite Hp.
Qed.

Lemma slot_ready_range (i : Z) :
  slot_ready processes i = true -> 0 <= i < MAX_NUMBER_OF_PROCESSES.
Proof.
  unfold slot_ready. destruct (load processes i) as [p| |] eqn:Hl; [|done..].
  intros _. apply load_Ok in Hl as [H0 Hl].
  apply lookup_lt_Some in Hl. rewrite table_size in Hl. lia.
Qed.

Lemma elem_of_ready_upto (i j : Z) :
  j ∈ ready_upto processes i <->
  0 <= j < i /\ slot_ready processes j = true.
Proof.
  unfold ready_upto. rewrite list_elem_of_filter, elem_of_seqZ.
  split; intros; destruct_and?; repeat split; (done || lia).
Qed.

Lemma elem_of_ready_ids (j : Z) :
  j ∈ ready_ids processes <-> slot_ready processes j = true.
Proof.
  unfold ready_ids. rewrite elem_of_ready_upto. split; [tauto|].
  intros Hj. split; [|done]. by apply slot_ready_range.
Qed.

Lemma ready_upto_succ (i : Z) :
  0 <= i ->
  ready_upto processes (i + 1)
  = ready_upto processes i
    ++ (if slot_ready processes i then [i] else []).
Proof.
  intros Hi. unfold ready_upto. rewrite seqZ_app by lia.
  rewrite filter_app. f_equal. rewrite Z.add_0_l.
  change (seqZ i 1) with [i]. rewrite filter_singleton; [|exact []].
  destruct (slot_ready processes i); by case_decide.
Qed.

Lemma NoDup_ready_upto (i : Z) : NoDup (ready_upto processes i).
Proof. apply NoDup_filter, NoDup_seqZ. Qed.

Lemma ready_upto_length (i : Z) :
  0 <= i -> Z.of_nat (length (ready_upto processes i)) <= i.
Proof.
  intros Hi. unfold ready_upto.
  pose proof (length_filter (fun j => slot_ready processes j = true)
                (seqZ 0 i)) as Hl.
  rewrite length_seqZ in Hl. lia.
Qed.

Lemma ready_upto_prefix (i : Z) :
  0 <= i <= MAX_NUMBER_OF_PROCESSES ->
  exists rest, ready_ids processes = ready_upto processes i ++ rest.
Proof.
  intros Hi. unfold ready_ids, ready_upto.
  assert (seqZ 0 MAX_NUMBER_OF_PROCESSES
          = seqZ 0 i ++ seqZ (0 + i) (MAX_NUMBER_OF_PROCESSES - i)) as ->.
  { rewrite <- seqZ_app by lia. f_equal. lia. }
  rewrite filter_app. eauto.
Qed.

(** The counting loop returns the number of ready slots. *)
Lemma numberOfReadyProcs_spec :
  numberOfReadyProcs processes
  = Ok (Z.of_nat (length (ready_ids processes))).
Proof.
  unfold numberOfReadyProcs, for_each_slot.
  destruct (for_loop_inv
    (fun i n => 0 <= i /\ n = Z.of_nat (length (ready_upto processes i)))
    (Z.to_nat MAX_NUMBER_OF_PROCESSES) 0
    (fun i n => p ← load processes i;
                if is_ready p then Ok (u8 (n + 1)) else Ok n) 0)
    as [n [Hn [_ Hlen]]].
  - done.
  - intros i n Hi [_ ->].
    destruct (load_slot i) as [p [Hp [Hr _]]];
      [unfold MAX_NUMBER_OF_PROCESSES in *; lia|].
    rewrite Hp. simpl. rewrite ready_upto_succ, Hr by lia.
    pose proof (ready_upto_length i).
    destruct (is_ready p); eexists; (split; [done|]); (split; [lia|]).
    + rewrite length_app. simpl. rewrite u8_small; [lia|].
      unfold MAX_NUMBER_OF_PROCESSES in *. lia.
    + by rewrite app_nil_r.
  - rewrite Hn, Hlen. done.
Qed.

(** One ready slot only, and slot 0 ready: the idle slot is the only
    ready one. *)
Lemma only_idle_ready (j : Z) :
  length (ready_ids processes) = 1%nat ->
  slot_ready processes 0 = true ->
  slot_ready processes j = true -> j = 0.
Proof.
  intros Hlen H0 Hj. apply elem_of_ready_ids in H0, Hj.
  destruct (ready_ids processes) as [|a [|b l]]; try done.
  apply list_elem_of_singleton in H0, Hj. congruence.
Qed.

Lemma two_ready (j k : Z) :
  j ≠ k ->
  slot_ready processes j = true -> slot_ready processes k = true ->
  (2 <= length (ready_ids processes))%nat.
Proof.
  intros Hjk Hj Hk. apply elem_of_ready_ids in Hj, Hk.
  destruct (ready_ids processes) as [|a [|b l]]; simpl; [| |lia].
  - by apply elem_of_nil in Hj.
  - apply list_elem_of_singleton in Hj, Hk. congruence.
Qed.

(** More or fewer than one ready slot, and some slot ready: a slot
    other than slot 0 is ready. *)
Lemma other_ready (k : Z) :
  length (ready_ids processes) ≠ 1%nat ->
  slot_ready processes k = true ->
  exists j, 1 <= j < MAX_NUMBER_OF_PROCESSES
            /\ slot_ready processes j = true.
Proof.
  intros Hlen Hk. apply elem_of_ready_ids in Hk.
  pose proof (NoDup_ready_upto MAX_NUMBER_OF_PROCESSES) as Hnd.
  fold (ready_ids processes) in Hnd.
  assert (forall j, j ∈ ready_ids processes -> j ≠ 0 ->
            1 <= j < MAX_NUMBER_OF_PROCESSES
            /\ slot_ready processes j = true) as Hin.
  { intros j Hj Hne. apply elem_of_ready_ids in Hj.
    pose proof (slot_ready_range j Hj). split; [lia|done]. }
  destruct (ready_ids processes) as [|a [|b l]]; try done.
  - by apply elem_of_nil in Hk.
  - apply NoDup_cons in Hnd as [Hab _].
    destruct (decide (a = 0)) as [->|Ha].
    + exists b. apply Hin.
      * apply list_elem_of_further, list_elem_of_here.
      * intros ->. apply Hab, list_elem_of_here.
    + exists a. apply Hin; [|done]. apply list_elem_of_here.
Qed.

Lemma no_ready : 
  (forall j, slot_ready processes j = false) ->
  ready_ids processes = [].
Proof.
  intros Hno. destruct (ready_ids processes) as [|a l] eqn:Hl; [done|].
  assert (a ∈ ready_ids processes) as Ha.
  { rewrite Hl. apply list_elem_of_here. }
  apply elem_of_ready_ids in Ha. by rewrite Hno in Ha.
Qed.

End ReadySlots.

(** ** The cyclic search of Even and RunToCompletion *)

Section CyclicSearch.
Variable processes : list Process.
Hypothesis table_size :
  length processes = Z.to_nat MAX_NUMBER_OF_PROCESSES.

(** The search reaches a ready slot [j] other than slot 0 within
    [steps_to c j] steps, if it does not stop at a ready slot before. *)
Lemma next_ready_finds (d : nat) :
  forall (fuel : nat) (c j : Z),
    0 <= c < 8 -> 1 <= j < 8 ->
    slot_ready processes j = true ->
    steps_to c j = Z.of_nat d -> (d <= fuel)%nat ->
    exists r, next_ready fuel processes c = Ok r
              /\ 1 <= r < 8 /\ slot_ready processes r = true.
Proof.
  induction d as [|d IH]; intros fuel c j Hc Hj Hr Hd Hfuel.
  - unfold steps_to in Hd. case_decide; lia.
  - destruct fuel as [|fuel]; [lia|]. simpl.
    set (c' := if decide (c = 7) then 1 else u8 (c + 1)).
    assert (1 <= c' < 8 /\ (c = 7 /\ c' = 1 \/ c < 7 /\ c' = c + 1))
      as [Hc' Hnext].
    { subst c'. case_decide; [lia|]. rewrite u8_small by lia. lia. }
    destruct (load_slot processes table_size c') as [p [Hp [Hrp _]]];
      [unfold MAX_NUMBER_OF_PROCESSES; lia|].
    rewrite Hp. simpl. destruct (is_ready p) eqn:Hready.
    + exists c'. by rewrite Hrp.
    + apply (IH fuel c' j); try done; try lia.
      assert (c' ≠ j) by (intros ->; congruence).
      unfold steps_to in *. repeat case_decide; lia.
Qed.

Lemma steps_to_bound (c j : Z) :
  0 <= c < 8 -> 1 <= j < 8 -> 1 <= steps_to c j <= 7.
Proof. intros Hc Hj. unfold steps_to. case_decide; lia. Qed.

Lemma next_ready_returns (fuel : nat) (c j : Z) :
  (7 <= fuel)%nat ->
  0 <= c < 8 -> 1 <= j < 8 ->
  slot_ready processes j = true ->
  exists r, next_ready fuel processes c = Ok r
            /\ 1 <= r < 8 /\ slot_ready processes r = true.
Proof.
  intros Hfuel Hc Hj Hr. pose proof (steps_to_bound c j Hc Hj) as Hd.
  apply (next_ready_finds (Z.to_nat (steps_to c j)) fuel c j);
    try done; lia.
Qed.

(** With no ready slot among 1..7 the search never ends. *)
Lemma next_ready_diverges (fuel : nat) :
  forall c : Z,
    (forall j, 1 <= j < 8 -> slot_ready processes j = false) ->
    0 <= c < 8 ->
    next_ready fuel processes c = Diverge.
Proof.
  induction fuel as [|fuel IH]; intros c Hno Hc; [done|]. simpl.
  set (c' := if decide (c = 7) then 1 else u8 (c + 1)).
  assert (1 <= c' < 8) as Hc'.
  { subst c'. case_decide; [lia|]. rewrite u8_small by lia. lia. }
  destruct (load_slot processes table_size c') as [p [Hp [Hrp _]]];
    [unfold MAX_NUMBER_OF_PROCESSES; lia|].
  rewrite Hp. simpl. rewrite <- Hrp, Hno by done. apply IH; [done|lia].
Qed.

(** Even with the idle slot ready: the slot returned is ready, and it
    is slot 0 only when no other slot is ready. *)
Lemma even_returns_ready (fuel : nat) (current : Z) :
  (7 <= fuel)%nat -> 0 <= current < 8 ->
  slot_ready processes 0 = true ->
  exists r, os_Scheduler_Even fuel processes current = Ok r
            /\ slot_ready processes r = true
            /\ (r = 0 -> forall j, slot_ready processes j = true -> j = 0).
Proof.
  intros Hfuel Hc H0. unfold os_Scheduler_Even.
  rewrite numberOfReadyProcs_spec by done. simpl. case_decide as Hn.
  - exists 0. split; [done|]. split; [done|]. intros _ j Hj.
    apply (only_idle_ready processes table_size); [lia|done..].
  - destruct (other_ready processes table_size 0) as [j [Hj Hrj]];
      [lia|done|].
    destruct (next_ready_returns fuel current j) as [r [Hr [Hrange Hrr]]];
      try done.
    exists r. split; [done|]. split; [done|]. lia.
Qed.

(** RunToCompletion with the idle slot ready. *)
Lemma run_to_completion_returns_ready (fuel : nat) (current : Z) :
  (7 <= fuel)%nat -> 0 <= current < 8 ->
  slot_ready processes 0 = true ->
  exists r, os_Scheduler_RunToCompletion fuel processes current = Ok r
            /\ slot_ready processes r = true
            /\ ((forall j, slot_ready processes j = true -> j = 0) -> r = 0).
Proof.
  intros Hfuel Hc H0. unfold os_Scheduler_RunToCompletion.
  destruct (load_slot processes table_size current) as [p [Hp [Hrp _]]];
    [done|].
  rewrite Hp. simpl. destruct (is_ready p) eqn:Hready.
  - exists current. split; [done|]. split; [congruence|].
    intros Honly. apply Honly. congruence.
  - rewrite numberOfReadyProcs_spec by done. simpl. case_decide as Hn.
    + exists 0. done.
    + destruct (other_ready processes table_size 0) as [j [Hj Hrj]];
        [lia|done|].
      destruct (next_ready_returns fuel current j)
        as [r [Hr [Hrange Hrr]]]; try done.
      exists r. split; [done|]. split; [done|].
      intros Honly. by apply Honly.
Qed.

End CyclicSearch.

(** C8, as the code has it: when a slot other than slot 0 is ready and
    a second slot is ready as well (the idle slot, as at every tick, or
    any other), Even returns a ready slot in 1..7, and so does
    RunToCompletion when the current slot is not ready. *)
Theorem even_and_fallback_skip_idle (processes : list Process)
    (fuel : nat) (current j k : Z) :
  length processes = Z.to_nat MAX_NUMBER_OF_PROCESSES ->
  (7 <= fuel)%nat ->
  0 <= current < MAX_NUMBER_OF_PROCESSES ->
  1 <= j < MAX_NUMBER_OF_PROCESSES ->
  slot_ready processes j = true ->
  k ≠ j ->
  slot_ready processes k = true ->
  (exists r, os_Scheduler_Even fuel processes current = Ok r
             /\ 1 <= r < MAX_NUMBER_OF_PROCESSES
             /\ slot_ready processes r = true)
  /\ (slot_ready processes current = false ->
      exists r, os_Scheduler_RunToCompletion fuel processes current = Ok r
                /\ 1 <= r < MAX_NUMBER_OF_PROCESSES
                /\ slot_ready processes r = true).
Proof.
  intros Hlen Hfuel Hc Hj Hrj Hkj Hrk. unfold MAX_NUMBER_OF_PROCESSES in Hc, Hj.
  pose proof (two_ready processes Hlen k j Hkj Hrk Hrj) as Htwo.
  destruct (next_ready_returns processes Hlen fuel current j)
    as [r Hr]; try done.
  split.
  - unfold os_Scheduler_Even. rewrite numberOfReadyProcs_spec by done.
    simpl. rewrite decide_False by lia. by exists r.
  - intros Hcur. unfold os_Scheduler_RunToCompletion.
    destruct (load_slot processes Hlen current) as [p [Hp [Hrp _]]]; [done|].
    rewrite Hp. simpl. rewrite <- Hrp, Hcur.
    rewrite numberOfReadyProcs_spec by done.
    simpl. rewrite decide_False by lia. by exists r.
Qed.

(** ** Random and RoundRobin *)

Section RandomAndRoundRobin.
Variable processes : list Process.
Hypothesis table_size :
  length processes = Z.to_nat MAX_NUMBER_OF_PROCESSES.

(** The gathering loop of Random fills the array with the ready slots
    in ascending order. *)
Lemma gather_ready :
  for_each_slot (fun i '(array, k) =>
      p ← load processes i;
      if is_ready p then
        array' ← store array k i;
        Ok (array', u8 (k + 1))
      else Ok (array, k))
    (replicate (length (ready_ids processes)) 0, 0)
  = Ok (ready_ids processes, Z.of_nat (length (ready_ids processes))).
Proof.
  unfold for_each_slot.
  match goal with
  | |- for_loop ?n ?lo ?body ?init = _ =>
      destruct (for_loop_inv
        (fun i s =>
           0 <= i
           /\ s.2 = Z.of_nat (length (ready_upto processes i))
           /\ length s.1 = length (ready_ids processes)
           /\ take (length (ready_upto processes i)) s.1
              = ready_upto processes i)
        n lo body init) as [[array k] [Hl [_ [Hk [Hlen Harr]]]]]
  end.
  - simpl. by rewrite length_replicate.
  - intros i [array k] Hi [_ [Hk [Hlen Harr]]]. simpl in Hk, Hlen, Harr.
    subst k. unfold MAX_NUMBER_OF_PROCESSES in Hi.
    destruct (load_slot processes table_size i) as [p [Hp [Hr _]]];
      [unfold MAX_NUMBER_OF_PROCESSES; lia|].
    rewrite Hp. simpl. rewrite (ready_upto_succ _ table_size), Hr by lia.
    destruct (is_ready p) eqn:Hready.
    + destruct (ready_upto_prefix processes table_size (i + 1))
        as [rest Hrest];
        [unfold MAX_NUMBER_OF_PROCESSES; lia|].
      rewrite (ready_upto_succ _ table_size), Hr in Hrest by lia.
      apply (f_equal length) in Hrest. rewrite !length_app in Hrest.
      simpl in Hrest.
      pose proof (ready_upto_length processes table_size i) as Hle.
      set (m := length (ready_upto processes i)) in *.
      unfold store. rewrite decide_True by lia. simpl.
      rewrite Nat2Z.id. eexists. split; [done|]. simpl.
      split; [lia|]. rewrite length_app, length_insert. simpl.
      split; [rewrite u8_small; lia|]. split; [done|].
      fold m. replace (m + 1)%nat with (S m) by lia.
      rewrite (take_S_r _ _ i) by (apply list_lookup_insert_eq; lia).
      by rewrite take_insert_ge, Harr by lia.
    + eexists. split; [done|]. simpl. rewrite app_nil_r.
      repeat split; (done || lia).
  - simpl in Hk, Hlen, Harr. rewrite Hl.
    change (0 + Z.of_nat (Z.to_nat MAX_NUMBER_OF_PROCESSES))
      with MAX_NUMBER_OF_PROCESSES in *.
    fold (ready_ids processes) in *.
    rewrite take_ge in Harr by lia. by subst.
Qed.

(** Random with the idle slot ready, whatever [rand()] returns. *)
Lemma random_returns_ready (rnd current : Z) :
  0 <= rnd ->
  slot_ready processes 0 = true ->
  exists r, os_Scheduler_Random rnd processes current = Ok r
            /\ slot_ready processes r = true
            /\ ((forall j, slot_ready processes j = true -> j = 0) -> r = 0).
Proof.
  intros Hrnd H0. unfold os_Scheduler_Random.
  rewrite numberOfReadyProcs_spec by done. simpl. case_decide as Hn.
  - by exists 0.
  - rewrite Nat2Z.id, gather_ready. simpl.
    assert (0 ∈ ready_ids processes) as Hin
      by by apply elem_of_ready_ids.
    assert (2 <= length (ready_ids processes))%nat as Htwo.
    { destruct (ready_ids processes) as [|a [|b l]]; simpl in *;
        [by apply elem_of_nil in Hin|lia|lia]. }
    pose proof (Z.rem_bound_pos rnd
                  (Z.of_nat (length (ready_ids processes)) - 1)) as Hrem.
    destruct (load_in_range (ready_ids processes)
                (Z.rem rnd (Z.of_nat (length (ready_ids processes)) - 1) + 1))
      as [r [Hr Hlook]]; [lia|].
    exists r. split; [done|].
    assert (slot_ready processes r = true) as Hrr.
    { apply elem_of_ready_ids; [done|].
      by eapply list_elem_of_lookup_2. }
    split; [done|]. intros Honly. by apply Honly.
Qed.

(** RoundRobin keeps a ready current slot while the time slice lasts,
    and returns slot 0 when the idle slot is the only ready one. *)
Lemma round_robin_by_design (current : Z) (si : SchedulingInformation) :
  0 <= current < 8 ->
  slot_ready processes 0 = true ->
  exists r si', os_Scheduler_RoundRobin processes current si = Ok (r, si')
    /\ (slot_ready processes current = true -> timeSlice si > 0 ->
        r = current /\ si' = set_timeSlice (u8 (timeSlice si - 1)) si)
    /\ ((forall j, slot_ready processes j = true -> j = 0) -> r = 0).
Proof.
  intros Hc H0. unfold os_Scheduler_RoundRobin.
  destruct (load_slot processes table_size current) as [p [Hp [Hrp _]]];
    [done|].
  rewrite Hp. simpl. rewrite Hrp.
  destruct (is_ready p && bool_decide (timeSlice si > 0)) eqn:Hkeep.
  - apply andb_prop in Hkeep as [Hready Hslice].
    exists current, (set_timeSlice (u8 (timeSlice si - 1)) si).
    split; [done|]. split; [done|].
    intros Honly. apply Honly. congruence.
  - rewrite numberOfReadyProcs_spec by done. simpl.
    apply andb_false_iff in Hkeep.
    assert (is_ready p = true -> timeSlice si > 0 -> False) as Hnot.
    { intros Hready Hslice. destruct Hkeep as [?|Hb]; [congruence|].
      by apply bool_decide_eq_false in Hb. }
    destruct (decide (Z.of_nat (length (ready_ids processes)) = 1))
      as [Hn|Hn].
    + exists 0, si. split; [done|]. split; [|done].
      intros Hready Hslice. by destruct Hnot.
    + match goal with
      | |- context [for_each_slot ?body ?init] =>
          destruct (for_loop_inv (fun i (best : Z) => True)
                      (Z.to_nat MAX_NUMBER_OF_PROCESSES) 0 body init)
            as [best [Hl _]]
      end.
      * done.
      * intros i best Hi _.
        destruct (load_slot processes table_size i) as [q [Hq _]]; [lia|].
        rewrite Hq. simpl. destruct (decide (priority q > best)); eauto.
      * unfold for_each_slot. rewrite Hl. simpl.
        exists best, si. split; [done|]. split.
        -- intros Hready Hslice. by destruct Hnot.
        -- intros Honly. destruct Hn.
           destruct (ready_ids processes) as [|a [|b l]] eqn:Hids;
             [| done |].
           ++ apply elem_of_ready_ids in H0; [|done].
              rewrite Hids in H0. by apply elem_of_nil in H0.
           ++ pose proof (NoDup_ready_upto processes
                            MAX_NUMBER_OF_PROCESSES) as Hnd.
              fold (ready_ids processes) in Hnd. rewrite Hids in Hnd.
              apply NoDup_cons in Hnd as [Hab _]. destruct Hab.
              assert (a = 0) as ->.
              { apply Honly, elem_of_ready_ids; [done|].
                rewrite Hids. apply list_elem_of_here. }
              assert (b = 0) as ->.
              { apply Honly, elem_of_ready_ids; [done|].
                rewrite Hids.
                apply list_elem_of_further, list_elem_of_here. }
              apply list_elem_of_here.
Qed.

(** Once the time slice is used up, RoundRobin returns without writing
    the scheduling information. *)
Lemma round_robin_selection_keeps_time_slice (current r : Z)
    (si si' : SchedulingInformation) :
  timeSlice si = 0 ->
  os_Scheduler_RoundRobin processes current si = Ok (r, si') ->
  si' = si.
Proof.
  intros Hslice. unfold os_Scheduler_RoundRobin. intros Hrr.
  bind_inv Hrr. rewrite Hslice in Hrr.
  rewrite bool_decide_eq_false_2, andb_false_r in Hrr by lia.
  bind_inv Hrr. destruct (decide (r1 = 1)); [by simplify_eq|].
  bind_inv Hrr. by simplify_eq.
Qed.

End RandomAndRoundRobin.

(** ** InactiveAging *)

Lemma age_of_load (ages : list Z) (i : Z) :
  0 <= i < Z.of_nat (length ages) -> load ages i = Ok (age_of ages i).
Proof.
  intros Hi. destruct (load_in_range ages i Hi) as [a [Ha _]].
  unfold age_of. by rewrite Ha.
Qed.

Lemma age_of_insert (ages : list Z) (i j v : Z) :
  0 <= i < Z.of_nat (length ages) -> 0 <= j ->
  age_of (<[Z.to_nat i := v]> ages) j
  = if decide (j = i) then v else age_of ages j.
Proof.
  intros Hi Hj. destruct (decide (j = i)) as [->|Hij]; unfold age_of, load;
    rewrite !(decide_True (P := 0 <= _)) by done.
  - by rewrite list_lookup_insert_eq by lia.
  - by rewrite list_lookup_insert_ne by lia.
Qed.

Section InactiveAging.
Context `{Platform}.
Variable processes : list Process.
Hypothesis table_size :
  length processes = Z.to_nat MAX_NUMBER_OF_PROCESSES.

(** The first loop: every ready slot's age has grown by its priority
    (in the arithmetic of the type [Age]), the other ages are as
    before. *)
Lemma grow_ages_spec (ages : list Z) :
  length ages = Z.to_nat MAX_NUMBER_OF_PROCESSES ->
  exists ages1,
    grow_ages processes ages = Ok ages1
    /\ length ages1 = Z.to_nat MAX_NUMBER_OF_PROCESSES
    /\ forall i, 0 <= i < MAX_NUMBER_OF_PROCESSES ->
                 age_of ages1 i = aged processes ages i.
Proof.
  intros Hlen. unfold grow_ages, for_each_slot.
  match goal with
  | |- context [for_loop ?n ?lo ?body ?init] =>
      destruct (for_loop_inv
        (fun i a =>
           length a = Z.to_nat MAX_NUMBER_OF_PROCESSES
           /\ (forall j, 0 <= j < i ->
                         age_of a j = aged processes ages j)
           /\ (forall j, i <= j -> age_of a j = age_of ages j))
        n lo body init) as [ages1 [Hl [Hlen1 [Hdone _]]]]
  end.
  - split; [done|]. split; [lia|done].
  - intros i a Hi [Hla [Hdone Htodo]]. unfold MAX_NUMBER_OF_PROCESSES in *.
    destruct (load_slot processes table_size i) as [p [Hp [Hr Hprio]]];
      [unfold MAX_NUMBER_OF_PROCESSES; lia|].
    rewrite Hp. simpl. destruct (is_ready p) eqn:Hready.
    + rewrite age_of_load by lia. simpl.
      unfold store. rewrite decide_True by lia.
      eexists. split; [done|]. rewrite length_insert.
      split; [done|]. split.
      * intros j Hj. rewrite age_of_insert by lia. case_decide as Hji.
        -- subst j. unfold aged. rewrite Hr, Hprio, Htodo by lia. done.
        -- apply Hdone. lia.
      * intros j Hj. rewrite age_of_insert by lia.
        rewrite decide_False by lia. apply Htodo. lia.
    + exists a. split; [done|]. split; [done|]. split.
      * intros j Hj. destruct (decide (j = i)) as [->|Hji].
        -- unfold aged. rewrite Hr, Htodo by lia. done.
        -- apply Hdone. lia.
      * intros j Hj. apply Htodo. lia.
  - exists ages1. split; [done|]. split; [done|].
    intros i Hi. apply Hdone. unfold MAX_NUMBER_OF_PROCESSES in *. lia.
Qed.

(** The second loop: the slot it ends on is slot 0 or a ready slot, and
    it comes before every other ready slot under the key. *)
Lemma oldest_spec (ages : list Z) :
  length ages = Z.to_nat MAX_NUMBER_OF_PROCESSES ->
  exists w,
    oldest processes ages = Ok w
    /\ 0 <= w < MAX_NUMBER_OF_PROCESSES
    /\ (w = 0 \/ slot_ready processes w = true)
    /\ forall j, slot_ready processes j = true -> j ≠ w ->
                 precedes processes ages w j.
Proof.
  intros Hlen. unfold oldest, for_each_slot.
  match goal with
  | |- context [for_loop ?n ?lo ?body ?init] =>
      destruct (for_loop_inv
        (fun i next =>
           0 <= next /\ (next < i \/ next = 0)
           /\ (next = 0 \/ slot_ready processes next = true)
           /\ forall j, 0 <= j < i -> slot_ready processes j = true ->
                        j ≠ next -> precedes processes ages next j)
        n lo body init) as [w [Hl [Hw0 [Hw [Hcand Hbest]]]]]
  end.
  - split; [done|]. split; [by right|]. split; [by left|]. intros; lia.
  - intros i next Hi [Hn0 [Hn [Hcand Hbest]]].
    unfold MAX_NUMBER_OF_PROCESSES in *.
    destruct (load_slot processes table_size i) as [p [Hp [Hr Hprio]]];
      [unfold MAX_NUMBER_OF_PROCESSES; lia|].
    assert (0 <= next < 8) as Hnext by lia.
    destruct (load_slot processes table_size next) as [pn [Hpn [_ Hprion]]];
      [done|].
    rewrite Hp. simpl.
    assert (forall j, 0 <= j < i -> slot_ready processes j = true ->
              age_of ages j < age_of ages next
              \/ (age_of ages j = age_of ages next
                  /\ priority_of processes j <= priority_of processes next))
      as Hle.
    { intros j Hj Hrj. destruct (decide (j = next)) as [->|Hne]; [lia|].
      destruct (Hbest j Hj Hrj Hne) as [?|[[? ?]|[? [? ?]]]]; lia. }
    destruct (is_ready p) eqn:Hready.
    + rewrite !age_of_load by lia. simpl.
      destruct (decide (age_of ages i >= age_of ages next)) as [Hge|Hlt].
      * rewrite Hpn. simpl. rewrite <- Hprio, <- Hprion.
        destruct (bool_decide (age_of ages i = age_of ages next)
                  && bool_decide (priority_of processes i
                                  >= priority_of processes next)) eqn:Htie.
        -- apply andb_prop in Htie as [Ha Hpr].
           apply bool_decide_eq_true in Ha, Hpr.
           destruct (decide (priority_of processes i
                             > priority_of processes next)) as [Hgt|Hngt].
           ++ exists i. split; [done|]. split; [lia|]. split; [lia|].
              split; [by right|]. intros j Hj Hrj Hji.
              assert (0 <= j < i) as Hj' by lia.
              destruct (Hle j Hj' Hrj) as [?|[? ?]];
                [left; lia|right; left; lia].
           ++ exists next. split; [done|]. split; [done|].
              split; [lia|]. split; [done|]. intros j Hj Hrj Hjn.
              destruct (decide (j = i)) as [->|Hji].
              ** right. right. lia.
              ** apply Hbest; [lia|done..].
        -- apply andb_false_iff in Htie.
           assert (age_of ages i > age_of ages next
                   \/ (age_of ages i = age_of ages next
                       /\ priority_of processes i
                          < priority_of processes next)) as Hcase.
           { destruct Htie as [Ha|Hpr].
             - apply bool_decide_eq_false in Ha. lia.
             - apply bool_decide_eq_false in Hpr. lia. }
           destruct (decide (age_of ages i > age_of ages next))
             as [Hgt|Hngt].
           ++ exists i. split; [done|]. split; [lia|]. split; [lia|].
              split; [by right|]. intros j Hj Hrj Hji.
              assert (0 <= j < i) as Hj' by lia.
              destruct (Hle j Hj' Hrj) as [?|[? ?]]; left; lia.
           ++ exists next. split; [done|]. split; [done|].
              split; [lia|]. split; [done|]. intros j Hj Hrj Hjn.
              destruct (decide (j = i)) as [->|Hji].
              ** right. left. lia.
              ** apply Hbest; [lia|done..].
      * exists next. split; [done|]. split; [done|].
        split; [lia|]. split; [done|]. intros j Hj Hrj Hjn.
        destruct (decide (j = i)) as [->|Hji].
        -- left. lia.
        -- apply Hbest; [lia|done..].
    + exists next. split; [done|]. split; [done|].
      split; [lia|]. split; [done|]. intros j Hj Hrj Hjn.
      destruct (decide (j = i)) as [->|Hji]; [congruence|].
      apply Hbest; [lia|done..].
  - exists w. split; [done|]. unfold MAX_NUMBER_OF_PROCESSES in *.
    split; [lia|]. split; [done|]. intros j Hrj Hjw.
    apply Hbest; [|done..].
    pose proof (slot_ready_range processes table_size j Hrj).
    unfold MAX_NUMBER_OF_PROCESSES in *. lia.
Qed.

(** InactiveAging, loop by loop: the ages grow, the search ends on slot 0
    or on a ready slot that comes before every other ready slot, and
    the age of that slot is cleared. *)
Lemma inactive_aging_spec (current : Z) (si : SchedulingInformation) :
  length (age si) = Z.to_nat MAX_NUMBER_OF_PROCESSES ->
  exists w ages1,
    os_Scheduler_InactiveAging processes current si
    = Ok (w, set_age (<[Z.to_nat w := 0]> ages1) si)
    /\ length ages1 = Z.to_nat MAX_NUMBER_OF_PROCESSES
    /\ (forall i, 0 <= i < MAX_NUMBER_OF_PROCESSES ->
                  age_of ages1 i = aged processes (age si) i)
    /\ 0 <= w < MAX_NUMBER_OF_PROCESSES
    /\ (w = 0 \/ slot_ready processes w = true)
    /\ (forall j, slot_ready processes j = true -> j ≠ w ->
                  precedes processes ages1 w j).
Proof.
  intros Hlen. unfold os_Scheduler_InactiveAging.
  destruct (grow_ages_spec (age si) Hlen) as [ages1 [Hg [Hlen1 Hgrown]]].
  destruct (oldest_spec ages1 Hlen1) as [w [Ho [Hw [Hcand Hbest]]]].
  exists w, ages1. rewrite Hg. simpl. rewrite Ho. simpl.
  unfold store. unfold MAX_NUMBER_OF_PROCESSES in *.
  rewrite decide_True by lia. done.
Qed.

(** X21.  InactiveAging where its search works as meant.  On every call
    the ages of the ready slots first grow by their priority, in the
    arithmetic of the type [Age]; the search then starts from slot 0
    whatever its state, so with slot 0 ready the winner is the ready
    slot that comes first under the key (age descending, priority
    descending, slot id ascending), and with no ready slot the winner
    is slot 0; the winner's age is 0 on return and the other ages are
    the grown ones. *)
Theorem inactive_aging_by_design (current : Z) (si : SchedulingInformation) :
  length (age si) = Z.to_nat MAX_NUMBER_OF_PROCESSES ->
  exists w si',
    os_Scheduler_InactiveAging processes current si = Ok (w, si')
    /\ 0 <= w < MAX_NUMBER_OF_PROCESSES
    /\ timeSlice si' = timeSlice si
    /\ age_of (age si') w = 0
    /\ (forall i, 0 <= i < MAX_NUMBER_OF_PROCESSES -> i ≠ w ->
                  age_of (age si') i = aged processes (age si) i)
    /\ (slot_ready processes 0 = true ->
        slot_ready processes w = true
        /\ forall j, slot_ready processes j = true -> j ≠ w ->
              aged processes (age si) w > aged processes (age si) j
              \/ (aged processes (age si) w = aged processes (age si) j
                  /\ priority_of processes w > priority_of processes j)
              \/ (aged processes (age si) w = aged processes (age si) j
                  /\ priority_of processes w = priority_of processes j
                  /\ w < j))
    /\ ((forall j, slot_ready processes j = false) -> w = 0).
Proof.
  intros Hlen.
  destruct (inactive_aging_spec current si Hlen)
    as [w [ages1 [Hia [Hlen1 [Hgrown [Hw [Hcand Hbest]]]]]]].
  exists w, (set_age (<[Z.to_nat w := 0]> ages1) si).
  unfold MAX_NUMBER_OF_PROCESSES in *.
  split; [done|]. split; [done|]. split; [done|]. simpl.
  split; [|split; [|split]].
  - rewrite age_of_insert by lia. by rewrite decide_True.
  - intros i Hi Hiw. rewrite age_of_insert by lia.
    rewrite decide_False by done. by apply Hgrown.
  - intros Hidle. split; [destruct Hcand; congruence|].
    intros j Hrj Hjw.
    pose proof (slot_ready_range processes table_size j Hrj) as Hj.
    unfold MAX_NUMBER_OF_PROCESSES in Hj.
    rewrite <- !Hgrown by done. by apply Hbest.
  - intros Hno. destruct Hcand as [?|Hr]; [done|]. by rewrite Hno in Hr.
Qed.

End InactiveAging.

(** ** The five strategies together *)

(** Without a ready slot the counting loop returns 0, not 1, and the
    cyclic search of Even has no slot to stop at. *)
Lemma even_diverges_without_ready (processes : list Process) (fuel : nat)
    (current : Z) :
  length processes = Z.to_nat MAX_NUMBER_OF_PROCESSES ->
  0 <= current < MAX_NUMBER_OF_PROCESSES ->
  (forall j, slot_ready processes j = false) ->
  os_Scheduler_Even fuel processes current = Diverge.
Proof.
  intros Hlen Hc Hno. unfold os_Scheduler_Even.
  rewrite numberOfReadyProcs_spec, no_ready by done. simpl.
  apply next_ready_diverges; [done| |done]. intros j _. apply Hno.
Qed.

(** C2, as the code has it.  With the idle slot 0 ready, as it is at
    every tick, and a current id of the table: Even, Random (whatever
    [rand()] returns), RunToCompletion and InactiveAging return a ready
    slot, hence slot 0 when only the idle slot is ready; RoundRobin
    returns the current slot while it is ready and the time slice is
    not used up, and slot 0 when only the idle slot is ready.  With no
    ready slot at all, InactiveAging returns slot 0. *)
Theorem strategies_by_design `{Platform} (processes : list Process)
    (fuel : nat) (rnd current : Z) (si : SchedulingInformation) :
  length processes = Z.to_nat MAX_NUMBER_OF_PROCESSES ->
  length (age si) = Z.to_nat MAX_NUMBER_OF_PROCESSES ->
  (7 <= fuel)%nat ->
  0 <= rnd ->
  0 <= current < MAX_NUMBER_OF_PROCESSES ->
  (slot_ready processes 0 = true ->
     (exists r, os_Scheduler_Even fuel processes current = Ok r
                /\ slot_ready processes r = true)
     /\ (exists r, os_Scheduler_Random rnd processes current = Ok r
                   /\ slot_ready processes r = true)
     /\ (exists r, os_Scheduler_RunToCompletion fuel processes current = Ok r
                   /\ slot_ready processes r = true)
     /\ (exists r si', os_Scheduler_InactiveAging processes current si
                       = Ok (r, si')
                       /\ slot_ready processes r = true)
     /\ (exists r si', os_Scheduler_RoundRobin processes current si
                       = Ok (r, si')
                       /\ (slot_ready processes current = true ->
                           timeSlice si > 0 -> r = current)
                       /\ ((forall j, slot_ready processes j = true -> j = 0)
                           -> r = 0)))
  /\ ((forall j, slot_ready processes j = false) ->
      exists si', os_Scheduler_InactiveAging processes current si
                  = Ok (0, si')).
Proof.
  intros Hlen Hages Hfuel Hrnd Hc.
  destruct (inactive_aging_spec processes Hlen current si Hages)
    as [w [ages1 [Hia [_ [_ [_ [Hcand _]]]]]]].
  split.
  - intros H0. unfold MAX_NUMBER_OF_PROCESSES in Hc.
    destruct (even_returns_ready processes Hlen fuel current)
      as [r1 [? [? _]]]; try done.
    destruct (random_returns_ready processes Hlen rnd current)
      as [r2 [? [? _]]]; try done.
    destruct (run_to_completion_returns_ready processes Hlen fuel current)
      as [r3 [? [? _]]]; try done.
    destruct (round_robin_by_design processes Hlen current si)
      as [r5 [si5 [? [Hkeep ?]]]]; try done.
    repeat split; eauto.
    + exists w. eexists. split; [done|]. destruct Hcand; congruence.
    + exists r5, si5. repeat split; try done.
      intros Hr Hs. by destruct (Hkeep Hr Hs).
  - intros Hno. destruct Hcand as [->|Hr]; [eauto|]. by rewrite Hno in Hr.
Qed.

(** ** [os_exec], the successful path *)

Lemma poke_down_outside (bs : list Z) (a : Z) (m : Z -> Z) (x : Z) :
  x <= a - Z.of_nat (length bs) \/ a < x ->
  poke_down bs a m x = m x.
Proof.
  revert a m. induction bs as [|b bs IH]; intros a m Hx; [done|].
  simpl in *. rewrite IH by lia. unfold poke. rewrite decide_False; [done|lia].
Qed.

Lemma poke_down_inside (bs : list Z) (a : Z) (m : Z -> Z) (x : Z) (b : Z) :
  x <= a ->
  bs !! Z.to_nat (a - x) = Some b ->
  poke_down bs a m x = b.
Proof.
  revert a m. induction bs as [|b0 bs IH]; intros a m Hx Hb; [done|].
  simpl. destruct (decide (x = a)) as [->|Hne].
  - rewrite poke_down_outside by lia. unfold poke. rewrite decide_True by done.
    rewrite Z.sub_diag in Hb. simpl in Hb. congruence.
  - apply IH; [lia|].
    replace (Z.to_nat (a - x)) with (S (Z.to_nat (a - 1 - x))) in Hb by lia.
    done.
Qed.

(** The frame that [os_exec] writes is in memory afterwards. *)
Lemma exec_primes `{Platform} (program : Z) (pid : Z) (m : Z -> Z) :
  stack_primed pid program
    (poke_down (initial_frame program) (PROCESS_STACK_BOTTOM pid) m).
Proof.
  intros x b Hx. apply poke_down_inside; [lia|].
  by replace (Z.to_nat (PROCESS_STACK_BOTTOM pid
                        - (PROCESS_STACK_BOTTOM pid - Z.of_nat x)))
    with x by lia.
Qed.

Lemma update_slot_eq (pid : Z) (f : Process -> Process) (st : OS)
    (p : Process) :
  0 <= pid ->
  os_processes st !! Z.to_nat pid = Some p ->
  update_slot pid f st
  = Ok (with_os_processes (<[Z.to_nat pid := f p]> (os_processes st)) st).
Proof.
  intros Hpid Hp. unfold update_slot, load, store.
  rewrite decide_True by done. rewrite Hp. simpl.
  apply lookup_lt_Some in Hp. by rewrite decide_True by lia.
Qed.

(** Two states with the same components are the same state. *)
Lemma OS_ext (a b : OS) :
  os_processes a = os_processes b ->
  currentProcess a = currentProcess b ->
  currentProc a = currentProc b ->
  actual a = actual b ->
  criticalSectionCount a = criticalSectionCount b ->
  schedulingInfo a = schedulingInfo b ->
  autostart_head a = autostart_head b ->
  SP a = SP b ->
  SREG a = SREG b ->
  TIMSK2 a = TIMSK2 b ->
  PC a = PC b ->
  regs a = regs b ->
  mem a = mem b ->
  errors a = errors b ->
  a = b.
Proof. destruct a, b. simpl. intros. by subst. Qed.

(** Bits of the interrupt mask. *)
Lemma unmasked_bit_stays (t b : Z) :
  0 <= b -> Z.testbit t b = false ->
  Z.land t (Z.lnot (Z.shiftl 1 b)) = t.
Proof.
  intros Hb Ht. apply Z.bits_inj'. intros n Hn.
  rewrite Z.land_spec, Z.lnot_spec, Z.shiftl_spec by lia.
  destruct (decide (n = b)) as [->|Hne].
  - rewrite Ht. done.
  - destruct (decide (n < b)).
    + rewrite (Z.testbit_neg_r 1) by lia. by rewrite andb_true_r.
    + rewrite (Z.bits_above_log2 1 (n - b)) by (simpl; lia).
      by rewrite andb_true_r.
Qed.

Lemma mask_clears_bit (t b : Z) :
  0 <= b ->
  Z.testbit (u8 (Z.land t (Z.lnot (Z.shiftl 1 b)))) b = false.
Proof.
  intros Hb.
  rewrite u8_land_255, !Z.land_spec, Z.lnot_spec, Z.shiftl_spec by lia.
  rewrite Z.sub_diag. simpl. by rewrite andb_false_r.
Qed.

(** Simplification that leaves the loops and the frame folded. *)
Ltac exec_step := cbn -[for_loop poke_down replicate initial_frame].

Section ExecSuccess.
Context `{Platform} `{External}.

Lemma push_on_process_stack_eq (pid b : Z) (st : OS) (p : Process) :
  0 <= pid ->
  os_processes st !! Z.to_nat pid = Some p ->
  push_on_process_stack pid b st
  = Ok (with_os_processes
          (<[Z.to_nat pid := set_sp (u16 (sp p - 1)) p]> (os_processes st))
          (with_mem (poke (mem st) (sp p) b) st)).
Proof.
  intros Hpid Hp. unfold push_on_process_stack, load.
  rewrite decide_True by done. rewrite Hp. simpl.
  by rewrite (update_slot_eq pid _ _ p).
Qed.

(** The loop that pushes the zero bytes. *)
Lemma push_zeros_eq (pid : Z) (n : nat) :
  forall (i : Z) (st : OS) (p : Process),
    0 <= pid ->
    os_processes st !! Z.to_nat pid = Some p ->
    Z.of_nat n <= sp p < 65536 ->
    for_loop n i (fun _ st => push_on_process_stack pid 0 st) st
    = Ok (with_os_processes
            (<[Z.to_nat pid := set_sp (sp p - Z.of_nat n) p]>
               (os_processes st))
            (with_mem (poke_down (replicate n 0) (sp p) (mem st)) st)).
Proof.
  induction n as [|n IH]; intros i st p Hpid Hp Hsp.
  - simpl. rewrite Z.sub_0_r. f_equal.
    rewrite list_insert_id by (by destruct p). by destruct st.
  - simpl. rewrite (push_on_process_stack_eq pid 0 st p) by done. simpl.
    rewrite (IH _ _ (set_sp (u16 (sp p - 1)) p)); try done.
    + simpl. rewrite list_insert_insert_eq. unfold u16.
      rewrite Z.mod_small by lia.
      replace (sp p - Z.of_nat (S n)) with (sp p - 1 - Z.of_nat n) by lia.
      reflexivity.
    + simpl. apply list_lookup_insert_eq. by eapply lookup_lt_Some.
    + simpl. unfold u16. rewrite Z.mod_small by lia. lia.
Qed.

Lemma first_unused_finds (processes : list Process) (k : Z) (pk : Process)
    (n : nat) :
  forall pid : Z,
    0 <= pid <= k ->
    k < 256 ->
    processes !! Z.to_nat k = Some pk ->
    state pk = OS_PS_UNUSED ->
    (forall i p, pid <= i < k -> processes !! Z.to_nat i = Some p ->
                 state p ≠ OS_PS_UNUSED) ->
    k - pid < Z.of_nat n ->
    first_unused n pid processes = Ok k.
Proof.
  induction n as [|n IH]; intros pid Hpid Hk Hpk Hun Hused Hn; [lia|].
  simpl. destruct (decide (pid = k)) as [->|Hne].
  - unfold load. rewrite decide_True by lia. rewrite Hpk. simpl.
    by rewrite decide_True.
  - destruct (load_in_range processes pid) as [p [Hl Hp]].
    { apply lookup_lt_Some in Hpk. lia. }
    rewrite Hl. simpl. rewrite decide_False by (apply (Hused pid); [lia|done]).
    rewrite u8_small by lia. apply IH; try done; try lia.
    intros i q Hi. apply Hused. lia.
Qed.

(** All that [os_exec] changes when it succeeds. *)
Lemma exec_success_eq (program priority : Z) (st : OS) (k : Z) (pk : Process) :
  length (age (schedulingInfo st)) = Z.to_nat MAX_NUMBER_OF_PROCESSES ->
  0 <= criticalSectionCount st < 255 ->
  0 <= SREG st < 256 ->
  program ≠ 0 ->
  0 <= k < MAX_NUMBER_OF_PROCESSES ->
  os_processes st !! Z.to_nat k = Some pk ->
  state pk = OS_PS_UNUSED ->
  (forall i p, 0 <= i < k -> os_processes st !! Z.to_nat i = Some p ->
               state p ≠ OS_PS_UNUSED) ->
  35 <= PROCESS_STACK_BOTTOM k < 65536 ->
  exists timsk,
    os_exec program priority st
    = Ok (k, with_TIMSK2 timsk
               (with_os_processes
                  (<[Z.to_nat k :=
                       mkProcess program OS_PS_READY priority
                         (PROCESS_STACK_BOTTOM k - 35) 0]> (os_processes st))
                  (with_schedulingInfo
                     (set_age (<[Z.to_nat k := 0]> (age (schedulingInfo st)))
                        (schedulingInfo st))
                     (with_mem
                        (poke_down (initial_frame program)
                           (PROCESS_STACK_BOTTOM k) (mem st)) st))))
    /\ timsk
       = if decide (criticalSectionCount st = 0) then
           u8 (Z.lor (u8 (Z.land (TIMSK2 st) (Z.lnot (Z.shiftl 1 OCIE2A))))
                 (Z.shiftl 1 OCIE2A))
         else u8 (Z.land (TIMSK2 st) (Z.lnot (Z.shiftl 1 OCIE2A))).
Proof.
  intros Hages Hc Hs Hprog Hk Hpk Hun Hused Hpsb.
  unfold MAX_NUMBER_OF_PROCESSES in *.
  unfold os_exec. rewrite decide_False by done.
  rewrite enter_eq by (done || lia).
  set (st1 := with_TIMSK2 _ _).
  change (os_processes st1) with (os_processes st).
  rewrite (first_unused_finds _ k pk); try done; try lia;
    [|unfold MAX_NUMBER_OF_PROCESSES; lia].
  exec_step. rewrite decide_False by (unfold MAX_NUMBER_OF_PROCESSES; lia).
  rewrite (update_slot_eq k _ st1 pk) by (done || lia). exec_step.
  unfold os_resetProcessSchedulingInformation, store. exec_step.
  rewrite decide_True by lia. exec_step.
  set (p0 := mkProcess program OS_PS_READY priority
               (u16 (PROCESS_STACK_BOTTOM k)) 0).
  assert (u16 (PROCESS_STACK_BOTTOM k) = PROCESS_STACK_BOTTOM k) as Hu16
    by (unfold u16; apply Z.mod_small; lia).
  assert (u16 (PROCESS_STACK_BOTTOM k - 1) = PROCESS_STACK_BOTTOM k - 1)
    as Hu1 by (unfold u16; apply Z.mod_small; lia).
  assert (u16 (PROCESS_STACK_BOTTOM k - 1 - 1) = PROCESS_STACK_BOTTOM k - 1 - 1)
    as Hu2 by (unfold u16; apply Z.mod_small; lia).
  assert (Z.to_nat k < length (os_processes st))%nat as Hlt
    by (by eapply lookup_lt_Some).
  rewrite (push_on_process_stack_eq k _ _ p0);
    [|lia|exec_step; by apply list_lookup_insert_eq].
  exec_step.
  rewrite (push_on_process_stack_eq k _ _ (set_sp (u16 (sp p0 - 1)) p0));
    [|lia|exec_step; apply list_lookup_insert_eq; by rewrite length_insert].
  exec_step.
  rewrite (push_zeros_eq k 33 _ _
             (set_sp (u16 (u16 (u16 (PROCESS_STACK_BOTTOM k) - 1) - 1)) p0));
    [|lia|simpl; apply list_lookup_insert_eq; by rewrite !length_insert|].
  2:{ simpl. rewrite Hu16, Hu1, Hu2. lia. }
  exec_step. rewrite !list_insert_insert_eq.
  rewrite Hu16, Hu1, Hu2.
  rewrite leave_eq; exec_step; [| |done].
  2:{ rewrite u8_small by lia. lia. }
  rewrite (u8_small (criticalSectionCount st + 1)) by lia.
  replace (criticalSectionCount st + 1 - 1) with (criticalSectionCount st)
    by lia.
  rewrite u8_small by lia.
  replace (PROCESS_STACK_BOTTOM k - 1 - 1 - 33)
    with (PROCESS_STACK_BOTTOM k - 35) by lia.
  subst st1 p0.
  destruct (decide (criticalSectionCount st = 0)); eexists;
    (split; [|reflexivity]);
    apply (f_equal Ok); apply (f_equal (pair k)); apply OS_ext;
    cbn -[poke_down replicate]; reflexivity.
Qed.

(** X1.  [os_exec] takes the lowest unused slot: it returns its number,
    makes it a ready process with the given program and priority, clears
    its age, leaves every other slot, the time slice, the nesting
    counter and the error log as they were. *)
Theorem exec_takes_lowest_unused_slot (program priority : Z) (st : OS)
    (k : Z) (pk : Process) :
  well_formed st ->
  program ≠ 0 ->
  0 <= k < MAX_NUMBER_OF_PROCESSES ->
  os_processes st !! Z.to_nat k = Some pk ->
  state pk = OS_PS_UNUSED ->
  (forall i p, 0 <= i < k -> os_processes st !! Z.to_nat i = Some p ->
               state p ≠ OS_PS_UNUSED) ->
  35 <= PROCESS_STACK_BOTTOM k < 65536 ->
  exists st',
    os_exec program priority st = Ok (k, st')
    /\ os_processes st'
       = <[Z.to_nat k := mkProcess program OS_PS_READY priority
                           (PROCESS_STACK_BOTTOM k - 35) 0]>
           (os_processes st)
    /\ age (schedulingInfo st')
       = <[Z.to_nat k := 0]> (age (schedulingInfo st))
    /\ timeSlice (schedulingInfo st') = timeSlice (schedulingInfo st)
    /\ criticalSectionCount st' = criticalSectionCount st
    /\ errors st' = errors st
    /\ well_formed st'.
Proof.
  intros [Hlen [Hages [Hc Hs]]] Hprog Hk Hpk Hun Hused Hpsb.
  destruct (exec_success_eq program priority st k pk)
    as [timsk [-> _]]; try done.
  eexists. split; [done|]. cbn -[poke_down].
  do 5 (split; [done|]). unfold well_formed. cbn -[poke_down].
  rewrite !length_insert. done.
Qed.

(** X2.  The stack that [os_exec] leaves for the new process: the entry
    address at the stack bottom, low byte first, 33 zero bytes below it,
    the saved stack pointer one below the last of them, and no other
    byte of memory written. *)
Theorem exec_primes_stack (program priority : Z) (st : OS)
    (k : Z) (pk : Process) :
  well_formed st ->
  program ≠ 0 ->
  0 <= k < MAX_NUMBER_OF_PROCESSES ->
  os_processes st !! Z.to_nat k = Some pk ->
  state pk = OS_PS_UNUSED ->
  (forall i p, 0 <= i < k -> os_processes st !! Z.to_nat i = Some p ->
               state p ≠ OS_PS_UNUSED) ->
  35 <= PROCESS_STACK_BOTTOM k < 65536 ->
  exists st' p',
    os_exec program priority st = Ok (k, st')
    /\ os_processes st' !! Z.to_nat k = Some p'
    /\ sp p' = PROCESS_STACK_BOTTOM k - 35
    /\ mem st' (PROCESS_STACK_BOTTOM k) = Z.land (u16 program) 255
    /\ mem st' (PROCESS_STACK_BOTTOM k - 1) = Z.shiftr (u16 program) 8
    /\ (forall a, sp p' < a < PROCESS_STACK_BOTTOM k - 1 -> mem st' a = 0)
    /\ (forall a, a <= sp p' \/ PROCESS_STACK_BOTTOM k < a ->
                  mem st' a = mem st a).
Proof.
  intros [Hlen [Hages [Hc Hs]]] Hprog Hk Hpk Hun Hused Hpsb.
  destruct (exec_success_eq program priority st k pk)
    as [timsk [-> _]]; try done.
  eexists. eexists. split; [done|]. cbn -[poke_down initial_frame].
  split; [apply list_lookup_insert_eq; by eapply lookup_lt_Some|].
  cbn -[poke_down initial_frame].
  split; [done|]. split; [|split; [|split]].
  - apply poke_down_inside; [lia|]. by rewrite Z.sub_diag.
  - apply poke_down_inside; [lia|].
    by replace (PROCESS_STACK_BOTTOM k - (PROCESS_STACK_BOTTOM k - 1))
      with 1 by lia.
  - intros a Ha. apply poke_down_inside; [lia|].
    replace (Z.to_nat (PROCESS_STACK_BOTTOM k - a))
      with (S (S (Z.to_nat (PROCESS_STACK_BOTTOM k - a - 2)))) by lia.
    unfold initial_frame. rewrite <- !lookup_tail. simpl tail.
    apply (lookup_replicate_2 33 0). lia.
  - intros a Ha. apply poke_down_outside. simpl. lia.
Qed.

(** X20.  [os_exec] and the timer interrupt.  Called outside any critical
    section, a successful [os_exec] returns with the timer-compare
    interrupt enabled, whether or not it was enabled before; called
    inside a critical section it returns with the interrupt masked, and
    with [TIMSK2] as it was if the interrupt was masked before. *)
Theorem exec_unmasks_timer_only_at_depth_0 (program priority : Z) (st : OS)
    (k : Z) (pk : Process) :
  well_formed st ->
  program ≠ 0 ->
  0 <= k < MAX_NUMBER_OF_PROCESSES ->
  os_processes st !! Z.to_nat k = Some pk ->
  state pk = OS_PS_UNUSED ->
  (forall i p, 0 <= i < k -> os_processes st !! Z.to_nat i = Some p ->
               state p ≠ OS_PS_UNUSED) ->
  35 <= PROCESS_STACK_BOTTOM k < 65536 ->
  0 <= TIMSK2 st < 256 ->
  0 <= OCIE2A < 8 ->
  exists st',
    os_exec program priority st = Ok (k, st')
    /\ (criticalSectionCount st = 0 ->
        TIMSK2 st' = Z.lor (TIMSK2 st) (Z.shiftl 1 OCIE2A)
        /\ Z.testbit (TIMSK2 st') OCIE2A = true)
    /\ (criticalSectionCount st ≠ 0 ->
        Z.testbit (TIMSK2 st') OCIE2A = false
        /\ (Z.testbit (TIMSK2 st) OCIE2A = false ->
            TIMSK2 st' = TIMSK2 st)).
Proof.
  intros [Hlen [Hages [Hc Hs]]] Hprog Hk Hpk Hun Hused Hpsb Ht Hb.
  destruct (exec_success_eq program priority st k pk)
    as [timsk [-> Htimsk]]; try done.
  eexists. split; [done|]. cbn -[poke_down]. split.
  - intros Hzero. rewrite decide_True in Htimsk by done.
    rewrite mask_then_unmask in Htimsk by done. split; [done|].
    rewrite Htimsk, Z.lor_spec, Z.shiftl_spec, Z.sub_diag by lia.
    apply orb_true_r.
  - intros Hdepth. rewrite decide_False in Htimsk by done. split.
    + rewrite Htimsk. apply mask_clears_bit. lia.
    + intros Hmasked. rewrite Htimsk.
      rewrite unmasked_bit_stays by (done || lia). by apply u8_small.
Qed.

End ExecSuccess.

(** ** [os_initScheduler] and [os_startScheduler] *)

(** A table of eight slots, slot by slot. *)
Ltac eight_slots l Hlen :=
  change (Z.to_nat MAX_NUMBER_OF_PROCESSES) with 8%nat in Hlen;
  do 8 (destruct l as [|? l]; [discriminate Hlen|]);
  destruct l; [|discriminate Hlen].

Section Boot.
Context `{Platform} `{External}.

(** The first loop of [os_initScheduler] marks every slot unused and
    writes nothing else. *)
Lemma mark_all_unused (st : OS) :
  length (os_processes st) = Z.to_nat MAX_NUMBER_OF_PROCESSES ->
  for_each_slot (fun i st => update_slot i (set_state OS_PS_UNUSED) st) st
  = Ok (with_os_processes (set_state OS_PS_UNUSED <$> os_processes st) st).
Proof.
  intros Hlen. destruct st as [procs cp cpr act c si auto sp0 sreg timsk pc
                                 rs m errs].
  simpl in Hlen. eight_slots procs Hlen. reflexivity.
Qed.

Lemma table_holds_nil (processes : list Process) :
  length processes = Z.to_nat MAX_NUMBER_OF_PROCESSES ->
  table_holds [] (set_state OS_PS_UNUSED <$> processes).
Proof.
  intros Hlen. split; [by rewrite length_fmap|]. split; [done|].
  intros i p _ Hp. rewrite list_lookup_fmap in Hp.
  destruct (processes !! i); simpl in Hp; by simplify_eq.
Qed.

(** One more program started: [os_exec] puts it into the slot after the
    programs that the table holds. *)
Lemma exec_extends (programs : list Z) (program : Z) (st : OS) :
  stacks_in_memory ->
  well_formed st ->
  table_holds programs (os_processes st) ->
  (length programs < Z.to_nat MAX_NUMBER_OF_PROCESSES)%nat ->
  program ≠ 0 ->
  exists st',
    os_exec program DEFAULT_PRIORITY st
    = Ok (Z.of_nat (length programs), st')
    /\ table_holds (programs ++ [program]) (os_processes st')
    /\ well_formed st'
    /\ criticalSectionCount st' = criticalSectionCount st
    /\ errors st' = errors st
    /\ currentProc st' = currentProc st
    /\ currentProcess st' = currentProcess st
    /\ autostart_head st' = autostart_head st
    /\ regs st' = regs st
    /\ mem st'
       = poke_down (initial_frame program)
           (PROCESS_STACK_BOTTOM (Z.of_nat (length programs))) (mem st).
Proof.
  intros Hstacks Hwf [Hlen [Hheld Hfree]] Hroom Hprog.
  pose proof Hwf as [_ [Hages [Hc Hs]]].
  set (k := Z.of_nat (length programs)).
  assert (0 <= k < MAX_NUMBER_OF_PROCESSES) as Hk
    by (unfold MAX_NUMBER_OF_PROCESSES in *; lia).
  destruct (lookup_lt_is_Some_2 (os_processes st) (Z.to_nat k)) as [pk Hpk];
    [unfold MAX_NUMBER_OF_PROCESSES in *; lia|].
  destruct (exec_success_eq program DEFAULT_PRIORITY st k pk)
    as [timsk [-> _]]; try done.
  - apply (Hfree (Z.to_nat k)); [lia|done].
  - intros i p Hi Hp.
    destruct (lookup_lt_is_Some_2 programs (Z.to_nat i)) as [prog Hprog'];
      [lia|].
    rewrite (Hheld _ _ Hprog') in Hp. by simplify_eq.
  - by apply Hstacks.
  - eexists. split; [done|]. cbn -[poke_down initial_frame].
    split; [|split; [|done]].
    + subst k. rewrite Nat2Z.id. split; [by rewrite length_insert|]. split.
      * intros i prog Hi. apply lookup_app_Some in Hi as [Hi|[Hge Hi]].
        -- rewrite list_lookup_insert_ne
             by (apply lookup_lt_Some in Hi; lia).
           by apply Hheld.
        -- apply list_lookup_singleton_Some in Hi as [Hi ->].
           replace i with (length programs) by lia.
           rewrite list_lookup_insert_eq by lia. done.
      * intros i p Hi Hp. rewrite length_app in Hi. simpl in Hi.
        rewrite list_lookup_insert_ne in Hp by lia.
        apply (Hfree i); [lia|done].
    + unfold well_formed. cbn -[poke_down initial_frame].
      rewrite !length_insert. done.
Qed.

(** A frame written for one more slot leaves the frames of the slots
    before it as they are. *)
Lemma primed_extends (programs : list Z) (program : Z) (m : Z -> Z) :
  frames_apart ->
  stacks_primed programs m ->
  (length programs < Z.to_nat MAX_NUMBER_OF_PROCESSES)%nat ->
  stacks_primed (programs ++ [program])
    (poke_down (initial_frame program)
       (PROCESS_STACK_BOTTOM (Z.of_nat (length programs))) m).
Proof.
  intros Hapart Hprimed Hroom i prog Hi.
  apply lookup_app_Some in Hi as [Hi|[Hge Hi]].
  - intros x b Hx. pose proof (lookup_lt_Some _ _ _ Hi) as Hlt.
    pose proof (lookup_lt_Some _ _ _ Hx) as Hx35.
    change (length (initial_frame prog)) with 35%nat in Hx35.
    rewrite poke_down_outside; [by apply (Hprimed i prog)|].
    change (length (initial_frame program)) with 35%nat.
    destruct (Hapart (Z.of_nat i) (Z.of_nat (length programs)));
      unfold MAX_NUMBER_OF_PROCESSES in *; lia.
  - apply list_lookup_singleton_Some in Hi as [Hi ->].
    replace i with (length programs) by lia. apply exec_primes.
Qed.

(** The [while] loop of [os_initScheduler] starts the listed programs
    in consecutive slots. *)
Lemma exec_autostart_extends (listed : list Z) :
  forall (programs : list Z) (st : OS),
    stacks_in_memory ->
    frames_apart ->
    well_formed st ->
    table_holds programs (os_processes st) ->
    stacks_primed programs (mem st) ->
    (length programs + length listed <= Z.to_nat MAX_NUMBER_OF_PROCESSES)%nat ->
    (forall program, program ∈ listed -> program ≠ 0) ->
    exists st',
      exec_autostart listed st = Ok st'
      /\ table_holds (programs ++ listed) (os_processes st')
      /\ stacks_primed (programs ++ listed) (mem st')
      /\ well_formed st'
      /\ autostart_head st' = []
      /\ criticalSectionCount st' = criticalSectionCount st
      /\ errors st' = errors st
      /\ currentProc st' = currentProc st
      /\ currentProcess st' = currentProcess st
      /\ regs st' = regs st.
Proof.
  induction listed as [|program next IH];
    intros programs st Hstacks Hapart Hwf Hheld Hprimed Hroom Hnonnull.
  - simpl. eexists. split; [done|]. rewrite app_nil_r. done.
  - simpl in *.
    destruct (exec_extends programs program
                (with_autostart_head (program :: next) st))
      as [st1 [-> [Hheld1 [Hwf1 [Hc1 [He1 [Hcp1 [Hcq1 [_ [Hr1 Hm1]]]]]]]]]];
      try done.
    { lia. }
    { apply Hnonnull, list_elem_of_here. }
    simpl.
    destruct (IH (programs ++ [program]) st1)
      as [st2 [-> [Hheld2 [Hprimed2 [Hwf2 [Hauto2 [Hc2 [He2 [Hcp2 [Hcq2
            Hr2]]]]]]]]]]; try done.
    { rewrite Hm1. apply primed_extends; [done..|lia]. }
    { rewrite length_app. simpl. lia. }
    { intros p Hp. apply Hnonnull. by apply list_elem_of_further. }
    eexists. split; [done|]. rewrite <- app_assoc in Hheld2, Hprimed2.
    simpl in Hc1, He1, Hcp1, Hcq1, Hr1.
    split_and!; try done; congruence.
Qed.

(** What [os_initScheduler] makes of the table and of the stacks. *)
Lemma initScheduler_eq (st : OS) :
  stacks_in_memory ->
  frames_apart ->
  well_formed st ->
  autostart_head st ≠ [] ->
  (length (started_from (autostart_head st))
   < Z.to_nat MAX_NUMBER_OF_PROCESSES)%nat ->
  (forall program, program ∈ started_from (autostart_head st) ->
                   program ≠ 0) ->
  idle ≠ 0 ->
  exists st',
    os_initScheduler st = Ok st'
    /\ table_holds (started_from (autostart_head st) ++ [idle])
         (os_processes st')
    /\ stacks_primed (started_from (autostart_head st) ++ [idle]) (mem st')
    /\ well_formed st'
    /\ autostart_head st' = []
    /\ criticalSectionCount st' = criticalSectionCount st
    /\ errors st' = errors st
    /\ currentProc st' = currentProc st
    /\ currentProcess st' = currentProcess st
    /\ regs st' = regs st.
Proof.
  intros Hstacks Hapart Hwf Hlist Hroom Hnonnull Hidle.
  pose proof Hwf as [Hlen [Hages [Hc Hs]]].
  unfold os_initScheduler. rewrite mark_all_unused by done. simpl.
  destruct (autostart_head st) as [|program next] eqn:Hauto; [done|].
  change (if decide (program = idle) then next else program :: next)
    with (started_from (program :: next)).
  set (listed := started_from (program :: next)) in *.
  destruct (exec_autostart_extends listed []
              (with_os_processes (set_state OS_PS_UNUSED <$> os_processes st)
                 st))
    as [st1 [Hx [Hheld1 [Hprimed1 [Hwf1 [Hauto1 [Hc1 [He1 [Hcp1 [Hcq1
          Hr1]]]]]]]]]]; try done.
  { unfold well_formed. simpl. by rewrite length_fmap. }
  { simpl. by apply table_holds_nil. }
  { exact (Nat.lt_le_incl _ _ Hroom). }
  rewrite Hx. simpl in *.
  destruct (exec_extends listed idle st1)
    as [st2 [-> [Hheld2 [Hwf2 [Hc2 [He2 [Hcp2 [Hcq2 [Hauto2 [Hr2 Hm2]]]]]]]]]];
    try done.
  simpl. eexists. split; [done|].
  split_and!; try done; try congruence.
  rewrite Hm2. by apply primed_extends.
Qed.

End Boot.

(** ** The shape of the context switch *)

Lemma with_SP_id (st : OS) : with_SP (SP st) st = st.
Proof. by destruct st. Qed.

Lemma with_schedulingInfo_id (st : OS) :
  with_schedulingInfo (schedulingInfo st) st = st.
Proof. by destruct st. Qed.

Lemma pop_bytes_shape (n : nat) (st : OS) :
  exists bs s, pop_bytes n st = (bs, with_SP s st).
Proof.
  revert st. induction n as [|n IH]; intros st.
  - exists [], (SP st). simpl. by rewrite with_SP_id.
  - simpl. destruct (IH (with_SP (u16 (SP st + 1)) st)) as [bs [s ->]].
    by eexists _, s.
Qed.

(** [restoreContext] writes the registers, the flags, the program counter
    and the stack pointer, and nothing else. *)
Lemma restoreContext_shape (st : OS) :
  exists pc rs flags s,
    restoreContext st
    = with_PC pc (with_regs rs (with_SREG flags (with_SP s st))).
Proof.
  unfold restoreContext. simpl.
  destruct (pop_bytes_shape (length (regs st)) (with_SP (u16 (SP st + 1)) st))
    as [bs [s Hp]].
  simpl in Hp. rewrite Hp. simpl. by eexists _, _, _, _.
Qed.

(** [saveContext] writes memory and the stack pointer, and nothing else. *)
Lemma saveContext_shape (st : OS) :
  exists s m, saveContext st = with_SP s (with_mem m st).
Proof.
  unfold saveContext. generalize (regs st ++ [SREG st]). intros bs.
  assert (forall st0, exists s m,
            foldl (fun s b => push b s) st0 bs = with_SP s (with_mem m st0))
    as Hfold.
  { induction bs as [|b bs IH]; intros st0.
    - exists (SP st0), (mem st0). simpl. by destruct st0.
    - simpl. destruct (IH (push b st0)) as [s [m ->]]. by exists s, m. }
  apply Hfold.
Qed.

(** ** The context switch as a round trip *)

(** Pushes write downwards from the stack pointer. *)
Lemma pushes_eq (bs : list Z) :
  forall st : OS,
    Z.of_nat (length bs) <= SP st <= 65535 ->
    foldl (fun s b => push b s) st bs
    = with_SP (SP st - Z.of_nat (length bs))
        (with_mem (poke_down bs (SP st) (mem st)) st).
Proof.
  induction bs as [|b bs IH]; intros st Hsp.
  - simpl. rewrite Z.sub_0_r. by destruct st.
  - simpl in *. rewrite IH.
    + unfold push. cbn -[poke_down]. unfold u16.
      rewrite Z.mod_small by lia.
      apply OS_ext; cbn -[poke_down]; try reflexivity. lia.
    + unfold push. cbn. unfold u16. rewrite Z.mod_small by lia. lia.
Qed.

(** Pops read upwards from the stack pointer. *)
Lemma pop_bytes_eq (n : nat) :
  forall st : OS,
    0 <= SP st -> SP st + Z.of_nat n <= 65535 ->
    pop_bytes n st
    = ((fun i : nat => mem st (SP st + 1 + Z.of_nat i)) <$> seq 0 n,
       with_SP (SP st + Z.of_nat n) st).
Proof.
  induction n as [|n IH]; intros st H0 Hsp.
  - simpl. by rewrite Z.add_0_r, with_SP_id.
  - cbn [pop_bytes]. unfold pop. unfold u16. rewrite Z.mod_small by lia.
    rewrite IH; cbn; [|lia..].
    rewrite Z.add_0_r. f_equal.
    + f_equal. rewrite <- fmap_S_seq, <- list_fmap_compose.
      apply list_fmap_ext. intros _ i _. simpl. f_equal. lia.
    + apply OS_ext; cbn; try reflexivity. lia.
Qed.

(** [restoreContext] in closed form: the flags word from above the stack
    pointer, the registers from above that, last register first, and
    the return address from above them, high byte first. *)
Lemma restoreContext_eq (st : OS) :
  0 <= SP st ->
  SP st + Z.of_nat (length (regs st)) + 3 <= 65535 ->
  restoreContext st
  = with_PC (mem st (SP st + Z.of_nat (length (regs st)) + 2) * 256
             + mem st (SP st + Z.of_nat (length (regs st)) + 3))
      (with_regs
         (reverse ((fun i : nat => mem st (SP st + 2 + Z.of_nat i))
                     <$> seq 0 (length (regs st))))
         (with_SREG (mem st (SP st + 1))
            (with_SP (SP st + Z.of_nat (length (regs st)) + 3) st))).
Proof.
  intros H0 Hsp. unfold restoreContext, pop. unfold u16.
  rewrite (Z.mod_small (SP st + 1)) by lia.
  rewrite pop_bytes_eq; cbn; [|lia..].
  rewrite Z.mod_small by lia. rewrite Z.mod_small by lia.
  apply OS_ext; cbn; try reflexivity.
  - lia.
  - replace (SP st + 1 + Z.of_nat (length (regs st)) + 1)
      with (SP st + Z.of_nat (length (regs st)) + 2) by lia.
    replace (SP st + Z.of_nat (length (regs st)) + 2 + 1)
      with (SP st + Z.of_nat (length (regs st)) + 3) by lia.
    done.
  - f_equal. apply list_fmap_ext. intros _ i _. f_equal. lia.
Qed.

(** The interrupt entry and [saveContext] together push the return
    address, the registers and the flags word. *)
Lemma saved_frame (st : OS) :
  Z.of_nat (length (regs st)) + 3 <= SP st <= 65535 ->
  saveContext (interrupt_entry st)
  = with_SP (SP st - Z.of_nat (length (regs st)) - 3)
      (with_mem
         (poke_down (Z.land (PC st) 255 :: Z.shiftr (PC st) 8
                       :: regs st ++ [SREG st])
            (SP st) (mem st)) st).
Proof.
  intros Hsp.
  change (saveContext (interrupt_entry st))
    with (foldl (fun s b => push b s) st
            (Z.land (PC st) 255 :: Z.shiftr (PC st) 8
               :: regs st ++ [SREG st])).
  rewrite pushes_eq.
  - f_equal. simpl. rewrite length_app. simpl. lia.
  - simpl. rewrite length_app. simpl. lia.
Qed.

(** A 16-bit address from its two bytes. *)
Lemma split_address (x : Z) :
  Z.shiftr x 8 * 256 + Z.land x 255 = x.
Proof.
  rewrite Z.shiftr_div_pow2 by lia.
  change 255 with (Z.ones 8). rewrite Z.land_ones by lia.
  change (2 ^ 8) with 256. pose proof (Z.div_mod x 256). lia.
Qed.

(** What [restoreContext] finds in the frame that the interrupt entry
    and [saveContext] have pushed, when nothing has written into it
    since: the context that was saved. *)
Lemma context_round_trip (st x : OS) :
  Z.of_nat (length (regs st)) + 3 <= SP st <= 65535 ->
  SP x = SP st - Z.of_nat (length (regs st)) - 3 ->
  (forall a, SP st - Z.of_nat (length (regs st)) - 3 < a <= SP st ->
             mem x a = mem (saveContext (interrupt_entry st)) a) ->
  regs x = regs st ->
  restoreContext x
  = with_PC (PC st) (with_regs (regs st) (with_SREG (SREG st)
      (with_SP (SP st) x))).
Proof.
  intros Hsp HSP Hmem Hregs.
  set (n := length (regs st)) in *.
  set (frame := Z.land (PC st) 255 :: Z.shiftr (PC st) 8
                  :: regs st ++ [SREG st]) in *.
  assert (forall a, SP st - Z.of_nat n - 3 < a <= SP st ->
                    mem x a = poke_down frame (SP st) (mem st) a) as Hread.
  { intros a Ha. rewrite Hmem by done. by rewrite saved_frame. }
  assert (forall i : nat, (i < n)%nat ->
            frame !! (S (S i)) = regs st !! i) as Hframe_regs.
  { intros i Hi. subst frame. simpl. by apply lookup_app_l. }
  assert (frame !! (S (S n)) = Some (SREG st)) as Hframe_flags.
  { subst frame. simpl. rewrite lookup_app_r by done.
    by rewrite Nat.sub_diag. }
  rewrite restoreContext_eq; rewrite ?Hregs, ?HSP; fold n; [|lia..].
  apply OS_ext; cbn -[poke_down]; try reflexivity.
  - lia.
  - rewrite Hread by lia.
    apply (poke_down_inside frame (SP st) (mem st)); [lia|].
    replace (Z.to_nat (SP st - (SP st - Z.of_nat n - 3 + 1))) with (S (S n))
      by lia.
    done.
  - rewrite !Hread by lia.
    rewrite (poke_down_inside frame (SP st) (mem st) _ (Z.shiftr (PC st) 8));
      [|lia|].
    + rewrite (poke_down_inside frame (SP st) (mem st) _ (Z.land (PC st) 255));
        [|lia|].
      * apply split_address.
      * by replace (Z.to_nat
                      (SP st - (SP st - Z.of_nat n - 3 + Z.of_nat n + 3)))
          with 0%nat by lia.
    + by replace (Z.to_nat
                    (SP st - (SP st - Z.of_nat n - 3 + Z.of_nat n + 2)))
        with 1%nat by lia.
  - apply list_eq. intros i. destruct (decide (i < n)%nat) as [Hi|Hi].
    + rewrite reverse_lookup by (by rewrite length_fmap, length_seq).
      rewrite length_fmap, length_seq.
      rewrite list_lookup_fmap, lookup_seq_lt by lia. simpl.
      destruct (lookup_lt_is_Some_2 (regs st) i Hi) as [b Hb].
      rewrite Hb. f_equal. rewrite Hread by lia.
      apply (poke_down_inside frame (SP st) (mem st)); [lia|].
      rewrite <- Hb, <- Hframe_regs by done. f_equal. lia.
    + rewrite !lookup_ge_None_2; [done|fold n; lia|].
      rewrite length_reverse, length_fmap, length_seq. lia.
Qed.

(** [saveContext] alone pushes the registers and the flags word. *)
Lemma saveContext_eq (st : OS) :
  Z.of_nat (length (regs st)) + 1 <= SP st <= 65535 ->
  saveContext st
  = with_SP (SP st - Z.of_nat (length (regs st)) - 1)
      (with_mem (mem (saveContext st)) st).
Proof.
  intros Hsp. unfold saveContext. rewrite pushes_eq.
  - cbn -[poke_down]. f_equal. rewrite length_app. simpl. lia.
  - rewrite length_app. simpl. lia.
Qed.

(** The components of a state that is given by nested updates, by
    value. *)
Ltac components :=
  cbv beta iota delta
    [with_os_processes with_currentProc with_criticalSectionCount
     with_schedulingInfo with_autostart_head with_SP with_SREG with_TIMSK2
     with_PC with_regs with_mem with_errors
     os_processes currentProcess currentProc actual criticalSectionCount
     schedulingInfo autostart_head SP SREG TIMSK2 PC regs mem errors].

Lemma bind_Ok_l {A B} (x : A) (f : A -> outcome B) : Ok x ≫= f = f x.
Proof. reflexivity. Qed.

(** One step through the handler: the bind of a result that is known,
    then simplification that leaves the context switch, the checksum
    and the frames folded. *)
Ltac isr_step :=
  try rewrite bind_Ok_l; cbv beta zeta;
  cbn -[restoreContext os_getStackChecksum stack_call].
Tactic Notation "isr_step" "in" hyp(H) :=
  cbn -[restoreContext os_getStackChecksum stack_call] in H.

Section Tick.
Context `{Platform} `{External}.

Lemma checksum_returns (pid : Z) (st : OS) :
  STACK_SIZE_PROC < 255 ->
  exists c, os_getStackChecksum pid st = Ok c.
Proof.
  intros Hsize. unfold os_getStackChecksum. rewrite decide_False by lia.
  match goal with
  | |- context [for_loop ?n ?lo ?body ?init] =>
      destruct (for_loop_inv (fun _ (_ : Z) => True) n lo body init)
        as [c [Hc _]]; [done|by eauto|by exists c]
  end.
Qed.

(** The checksum is a function of the slot number and of the bytes from
    the stack bottom upwards. *)
Lemma checksum_window (pid : Z) (st st' : OS) :
  (forall a, PROCESS_STACK_BOTTOM pid <= a
             <= PROCESS_STACK_BOTTOM pid + STACK_SIZE_PROC ->
             mem st a = mem st' a) ->
  os_getStackChecksum pid st = os_getStackChecksum pid st'.
Proof.
  intros Hm. unfold os_getStackChecksum. case_decide; [done|].
  assert (forall (n : nat) (lo acc : Z),
            0 <= lo -> lo + Z.of_nat n <= STACK_SIZE_PROC + 1 ->
            for_loop n lo (fun p checksum =>
              Ok (Z.lxor checksum (mem st (PROCESS_STACK_BOTTOM pid + p))))
              acc
            = for_loop n lo (fun p checksum =>
                Ok (Z.lxor checksum
                      (mem st' (PROCESS_STACK_BOTTOM pid + p)))) acc)
    as Hloop.
  { induction n as [|n IH]; intros lo acc Hlo Hn; [done|].
    simpl. rewrite Hm by lia. apply IH; lia. }
  destruct (decide (0 <= STACK_SIZE_PROC + 1)); [apply Hloop; lia|].
  by replace (Z.to_nat (STACK_SIZE_PROC + 1)) with 0%nat by lia.
Qed.

(** With the current slot ready, as the handler has made it, every
    strategy returns, and returns a slot of the table. *)
Lemma call_strategy_returns (fuel : nat) (rnd : Z) (st : OS) :
  length (os_processes st) = Z.to_nat MAX_NUMBER_OF_PROCESSES ->
  length (age (schedulingInfo st)) = Z.to_nat MAX_NUMBER_OF_PROCESSES ->
  0 <= currentProcess st < MAX_NUMBER_OF_PROCESSES ->
  slot_ready (os_processes st) (currentProcess st) = true ->
  (7 <= fuel)%nat ->
  0 <= rnd ->
  exists next si,
    call_strategy fuel rnd st = Ok (next, with_schedulingInfo si st)
    /\ 0 <= next < MAX_NUMBER_OF_PROCESSES
    /\ length (age si) = Z.to_nat MAX_NUMBER_OF_PROCESSES.
Proof.
  intros Hlen Hages Hcur Hready Hfuel Hrnd.
  set (processes := os_processes st) in *.
  set (current := currentProcess st) in *.
  assert (forall r, slot_ready processes r = true ->
            0 <= r < MAX_NUMBER_OF_PROCESSES) as Hrange
    by (intros r; by apply slot_ready_range).
  assert (forall r, Ok r ≫= (fun r : Z => Ok (r, st))
                    = Ok (r, with_schedulingInfo (schedulingInfo st) st))
    as Hsame by (intros r; simpl; by rewrite with_schedulingInfo_id).
  unfold call_strategy. fold processes current.
  unfold MAX_NUMBER_OF_PROCESSES in Hcur.
  destruct (os_getSchedulingStrategy st).
  - (* Even *)
    assert (exists r, os_Scheduler_Even fuel processes current = Ok r
                      /\ 0 <= r < MAX_NUMBER_OF_PROCESSES) as [r [-> Hr]].
    { unfold os_Scheduler_Even. rewrite numberOfReadyProcs_spec by done.
      simpl. case_decide as Hn.
      - exists 0. by unfold MAX_NUMBER_OF_PROCESSES.
      - destruct (other_ready processes Hlen current) as [j [Hj Hrj]];
          [lia|done|].
        destruct (next_ready_returns processes Hlen fuel current j)
          as [r [-> [Hr _]]]; try done.
        exists r. split; [done|]. unfold MAX_NUMBER_OF_PROCESSES. lia. }
    rewrite Hsame. by eexists _, _.
  - (* Random *)
    assert (exists r, os_Scheduler_Random rnd processes current = Ok r
                      /\ 0 <= r < MAX_NUMBER_OF_PROCESSES) as [r [-> Hr]].
    { unfold os_Scheduler_Random. rewrite numberOfReadyProcs_spec by done.
      simpl. case_decide as Hn.
      - exists 0. by unfold MAX_NUMBER_OF_PROCESSES.
      - rewrite Nat2Z.id, gather_ready by done. simpl.
        assert (current ∈ ready_ids processes) as Hin
          by by apply elem_of_ready_ids.
        assert (2 <= length (ready_ids processes))%nat as Htwo.
        { destruct (ready_ids processes) as [|a [|b l]]; simpl in *;
            [by apply elem_of_nil in Hin|lia|lia]. }
        pose proof (Z.rem_bound_pos rnd
                      (Z.of_nat (length (ready_ids processes)) - 1)) as Hrem.
        destruct (load_in_range (ready_ids processes)
                    (Z.rem rnd (Z.of_nat (length (ready_ids processes)) - 1)
                     + 1)) as [r [-> Hlook]]; [lia|].
        exists r. split; [done|]. apply Hrange, elem_of_ready_ids; [done|].
        by eapply list_elem_of_lookup_2. }
    rewrite Hsame. by eexists _, _.
  - (* RunToCompletion *)
    unfold os_Scheduler_RunToCompletion.
    destruct (load_slot processes Hlen current) as [p [-> [Hrp _]]]; [done|].
    simpl. rewrite <- Hrp, Hready. rewrite Hsame. eexists _, _.
    split; [done|]. split; [|done]. unfold MAX_NUMBER_OF_PROCESSES. lia.
  - (* RoundRobin *)
    assert (exists r si, os_Scheduler_RoundRobin processes current
                           (schedulingInfo st) = Ok (r, si)
                         /\ 0 <= r < MAX_NUMBER_OF_PROCESSES
                         /\ age si = age (schedulingInfo st))
      as [r [si [-> [Hr Hsi]]]].
    { unfold os_Scheduler_RoundRobin.
      destruct (load_slot processes Hlen current) as [p [-> _]]; [done|].
      simpl. destruct (is_ready p && _).
      - eexists _, _. split; [done|]. split; [|done].
        unfold MAX_NUMBER_OF_PROCESSES. lia.
      - rewrite numberOfReadyProcs_spec by done. simpl.
        destruct (decide (Z.of_nat (length (ready_ids processes)) = 1)).
        + eexists _, _. split; [done|]. by unfold MAX_NUMBER_OF_PROCESSES.
        + match goal with
          | |- context [for_each_slot ?body ?init] =>
              destruct (for_loop_inv
                          (fun i (best : Z) => 0 <= best /\ best < Z.max i 1)
                          (Z.to_nat MAX_NUMBER_OF_PROCESSES) 0 body init)
                as [best [Hl [Hb0 Hb]]]
          end.
          * lia.
          * intros i best Hi [Hb0 Hb].
            destruct (load_slot processes Hlen i) as [q [-> _]]; [lia|].
            simpl. destruct (decide (priority q > best));
              eexists; (split; [done|]); lia.
          * unfold for_each_slot. rewrite Hl. simpl. eexists _, _.
            split; [done|]. split; [|done].
            unfold MAX_NUMBER_OF_PROCESSES in *. lia. }
    simpl. eexists _, _. split; [done|]. split; [done|]. congruence.
  - (* InactiveAging *)
    destruct (inactive_aging_spec processes Hlen current (schedulingInfo st)
                Hages) as [w [ages1 [-> [Hlen1 [_ [Hw _]]]]]].
    simpl. eexists _, _. split; [done|]. split; [done|].
    simpl. by rewrite length_insert.
Qed.

(** One call of the handler writes at most [depth] bytes, downwards from
    the stack pointer. *)
Lemma stack_call_shape (depth line : Z) (st : OS) :
  Z.of_nat (length (call_frame line st)) <= depth ->
  exists m,
    stack_call line st = with_mem m st
    /\ forall a, a <= SP st - depth \/ SP st < a -> m a = mem st a.
Proof.
  intros Hd. eexists. split; [reflexivity|].
  intros a Ha. apply poke_down_outside. lia.
Qed.

(** A strategy reads the table, the current slot's number, the
    strategy and the scheduling information, and nothing else. *)
Lemma call_strategy_frame (fuel : nat) (rnd : Z) (st st' : OS) (next : Z)
    (si : SchedulingInformation) :
  os_processes st' = os_processes st ->
  currentProcess st' = currentProcess st ->
  actual st' = actual st ->
  schedulingInfo st' = schedulingInfo st ->
  call_strategy fuel rnd st = Ok (next, with_schedulingInfo si st) ->
  call_strategy fuel rnd st' = Ok (next, with_schedulingInfo si st').
Proof.
  intros Hp Hc Ha Hs. unfold call_strategy, os_getSchedulingStrategy.
  rewrite Hp, Hc, Ha, Hs. intros Hcall.
  assert (forall r, Ok (r, st) = Ok (next, with_schedulingInfo si st) ->
            Ok (r, st') = Ok (next, with_schedulingInfo si st')) as Hsame.
  { intros r Hr. simplify_eq.
    assert (schedulingInfo st = si) as Hsi.
    { match goal with
      | Heq : st = with_schedulingInfo si st |- _ =>
          by apply (f_equal schedulingInfo) in Heq
      end. }
    by rewrite <- Hsi, <- Hs, with_schedulingInfo_id. }
  destruct (actual st); bind_inv Hcall; rewrite E; simpl;
    first
      [ by apply Hsame
      | destruct r as [r si1];
        apply (f_equal (fun o : outcome (Z * OS) =>
                          match o with
                          | Ok (r, s) => Some (r, schedulingInfo s)
                          | _ => None
                          end)) in Hcall;
        simpl in Hcall; by simplify_eq ].
Qed.

(** One run of the interrupt handler, without the task manager, when
    the frames of its calls stay out of the bytes that the checksum
    reads. *)
Lemma ISR_eq (fuel : nat) (input rnd depth : Z) (st : OS) (p : Process) :
  length (os_processes st) = Z.to_nat MAX_NUMBER_OF_PROCESSES ->
  length (age (schedulingInfo st)) = Z.to_nat MAX_NUMBER_OF_PROCESSES ->
  0 <= currentProcess st < MAX_NUMBER_OF_PROCESSES ->
  os_processes st !! Z.to_nat (currentProcess st) = Some p ->
  Z.of_nat (length (regs st)) + 1 <= SP st <= 65535 ->
  STACK_SIZE_PROC < 255 ->
  (7 <= fuel)%nat ->
  0 <= rnd ->
  input ≠ 9 ->
  (forall line stx, Z.of_nat (length (call_frame line stx)) <= depth) ->
  BOTTOM_OF_ISR_STACK < PROCESS_STACK_BOTTOM (currentProcess st)
  \/ PROCESS_STACK_BOTTOM (currentProcess st) + STACK_SIZE_PROC
     <= BOTTOM_OF_ISR_STACK - depth ->
  SP st - Z.of_nat (length (regs st)) - 1
  < PROCESS_STACK_BOTTOM (currentProcess st)
  \/ PROCESS_STACK_BOTTOM (currentProcess st) + STACK_SIZE_PROC
     <= SP st - Z.of_nat (length (regs st)) - 1 - depth ->
  exists c next q si m,
    call_strategy fuel rnd
      (with_os_processes
         (<[Z.to_nat (currentProcess st) :=
              set_state OS_PS_READY
                (set_checksum c
                   (set_sp (SP st - Z.of_nat (length (regs st)) - 1) p))]>
            (os_processes st)) st)
    = Ok (next,
          with_schedulingInfo si
            (with_os_processes
               (<[Z.to_nat (currentProcess st) :=
                    set_state OS_PS_READY
                      (set_checksum c
                         (set_sp (SP st - Z.of_nat (length (regs st)) - 1)
                            p))]>
                  (os_processes st)) st))
    /\ 0 <= next < MAX_NUMBER_OF_PROCESSES
    /\ <[Z.to_nat (currentProcess st) :=
           set_state OS_PS_READY
             (set_checksum c
                (set_sp (SP st - Z.of_nat (length (regs st)) - 1) p))]>
         (os_processes st) !! Z.to_nat next = Some q
    /\ length (age si) = Z.to_nat MAX_NUMBER_OF_PROCESSES
    /\ ISR fuel input rnd st
       = Ok (restoreContext
               (with_schedulingInfo si
                  (with_os_processes
                     (<[Z.to_nat next := set_state OS_PS_RUNNING q]>
                        (<[Z.to_nat (currentProcess st) :=
                             set_state OS_PS_READY
                               (set_checksum c
                                  (set_sp
                                     (SP st - Z.of_nat (length (regs st)) - 1)
                                     p))]>
                           (os_processes st)))
                     (with_SP (SP st - Z.of_nat (length (regs st)) - 1)
                        (with_mem m st)))))
    /\ (forall a,
          ~ (BOTTOM_OF_ISR_STACK - depth < a <= BOTTOM_OF_ISR_STACK) ->
          ~ (SP st - Z.of_nat (length (regs st)) - 1 - depth < a
             <= SP st - Z.of_nat (length (regs st)) - 1) ->
          m a = mem (saveContext st) a).
Proof.
  intros Hlen Hages Hcur Hp Hsp Hsize Hfuel Hrnd Hinput Hdepth Hwin1 Hwin2.
  unfold MAX_NUMBER_OF_PROCESSES in Hcur.
  unfold ISR. rewrite saveContext_eq by done.
  set (s0 := SP st - Z.of_nat (length (regs st)) - 1) in *.
  set (m0 := mem (saveContext st)). clearbody s0 m0. clear Hsp.
  destruct st as [procs cur cpr act cnt si0 auto sp0 sreg timsk pc rs m00
                    errs].
  cbn in Hlen, Hages, Hcur, Hp, Hwin1, Hwin2.
  set (lo := PROCESS_STACK_BOTTOM cur) in *.
  assert (Z.to_nat cur < length procs)%nat as Hlt
    by (by eapply lookup_lt_Some).
  isr_step.
  rewrite (update_slot_eq cur _ _ p) by (done || lia). isr_step.
  (* line 77 *)
  match goal with
  | |- context [stack_call 77 ?stx] =>
      destruct (stack_call_shape depth 77 stx (Hdepth _ _)) as [m1 [-> Hm1]]
  end.
  isr_step in Hm1. isr_step.
  match goal with
  | |- context [os_getStackChecksum cur ?stx] =>
      pose (stc := stx); destruct (checksum_returns cur stc) as [c Hc];
        [done|]; unfold stc in Hc; rewrite Hc
  end.
  isr_step.
  rewrite (update_slot_eq cur _ _ (set_sp s0 p));
    [|lia|cbn; by apply list_lookup_insert_eq].
  isr_step.
  (* line 79 *)
  match goal with
  | |- context [stack_call 79 ?stx] =>
      destruct (stack_call_shape depth 79 stx (Hdepth _ _)) as [m2 [-> Hm2]]
  end.
  isr_step in Hm2. isr_step. rewrite decide_False by done.
  rewrite (update_slot_eq cur _ _ (set_checksum c (set_sp s0 p)));
    [|lia|cbn; apply list_lookup_insert_eq; by rewrite length_insert].
  isr_step. rewrite !list_insert_insert_eq.
  set (p1 := set_state OS_PS_READY (set_checksum c (set_sp s0 p))).
  set (T1 := <[Z.to_nat cur := p1]> procs).
  (* lines 86 to 109 *)
  match goal with
  | |- context [stack_call 86 ?stx] =>
      destruct (stack_call_shape depth 86 stx (Hdepth _ _)) as [m3 [-> Hm3]]
  end.
  isr_step in Hm3. isr_step.
  match goal with
  | |- context [stack_call ?l ?stx] =>
      destruct (stack_call_shape depth l stx (Hdepth _ _)) as [m4 [-> Hm4]]
  end.
  isr_step in Hm4. isr_step.
  assert (length T1 = Z.to_nat MAX_NUMBER_OF_PROCESSES) as Hlen1
    by (subst T1; by rewrite length_insert).
  assert (T1 !! Z.to_nat cur = Some p1) as Hp1
    by (subst T1; by apply list_lookup_insert_eq).
  match goal with
  | |- context [call_strategy fuel rnd ?stx] =>
      set (stS := stx);
      destruct (call_strategy_returns fuel rnd stS)
        as [next [si [Hcall [Hnext Hsi]]]]; try done
  end.
  { unfold slot_ready, load. cbn.
    rewrite decide_True by lia. by rewrite Hp1. }
  rewrite Hcall. subst stS. isr_step.
  unfold MAX_NUMBER_OF_PROCESSES in Hnext.
  destruct (lookup_lt_is_Some_2 T1 (Z.to_nat next)) as [q Hq];
    [rewrite Hlen1; unfold MAX_NUMBER_OF_PROCESSES; lia|].
  rewrite (update_slot_eq next _ _ q) by (done || lia). isr_step.
  set (T2 := <[Z.to_nat next := set_state OS_PS_RUNNING q]> T1).
  assert (exists p2, T2 !! Z.to_nat cur = Some p2 /\ checksum p2 = c
                     /\ sp p2 = s0)
    as [p2 [Hp2 [Hck Hsp2]]].
  { subst T2. destruct (decide (Z.to_nat next = Z.to_nat cur)) as [Heq|Hne].
    - rewrite Heq. rewrite list_lookup_insert_eq by lia.
      eexists. split; [done|]. rewrite Heq in Hq. by simplify_eq.
    - rewrite list_lookup_insert_ne by done. by exists p1. }
  unfold load. rewrite !decide_True by lia. rewrite Hp2.
  isr_step. rewrite Hsp2.
  (* line 118 *)
  match goal with
  | |- context [stack_call 118 ?stx] =>
      destruct (stack_call_shape depth 118 stx (Hdepth _ _)) as [m5 [-> Hm5]]
  end.
  isr_step in Hm5. isr_step.
  match goal with
  | |- context [os_getStackChecksum cur ?stx] =>
      rewrite (checksum_window cur stx stc)
  end.
  2:{ intros a Ha. unfold stc. cbn. fold lo in Ha.
      rewrite Hm5, Hm4, Hm3, Hm2 by lia. done. }
  unfold stc. rewrite Hc. isr_step. rewrite Hck.
  rewrite decide_False by (intros Hne; by apply Hne).
  exists c, next, q, si, m5. fold p1 T1 T2.
  split.
  { eapply call_strategy_frame; [| | | |exact Hcall]; reflexivity. }
  split; [by unfold MAX_NUMBER_OF_PROCESSES|].
  split; [done|]. split; [done|]. split; [reflexivity|].
  intros a Ha1 Ha2. rewrite Hm5, Hm4, Hm3, Hm2, Hm1 by lia. done.
Qed.

(** The interrupt entry pushes the return address. *)
Lemma interrupt_entry_eq (st : OS) :
  2 <= SP st <= 65535 ->
  interrupt_entry st
  = with_SP (SP st - 2)
      (with_mem (mem (interrupt_entry st)) st).
Proof.
  intros Hsp.
  change (interrupt_entry st)
    with (foldl (fun s b => push b s) st
            [Z.land (PC st) 255; Z.shiftr (PC st) 8]).
  rewrite pushes_eq by (simpl; lia). reflexivity.
Qed.

(** One timer tick: the handler's net effect is on the table, on the
    scheduling information and on memory under the stacks in use. *)
Lemma tick_eq (fuel : nat) (input rnd depth : Z) (st : OS) (p : Process) :
  length (os_processes st) = Z.to_nat MAX_NUMBER_OF_PROCESSES ->
  length (age (schedulingInfo st)) = Z.to_nat MAX_NUMBER_OF_PROCESSES ->
  0 <= currentProcess st < MAX_NUMBER_OF_PROCESSES ->
  os_processes st !! Z.to_nat (currentProcess st) = Some p ->
  Z.of_nat (length (regs st)) + 3 <= SP st <= 65535 ->
  STACK_SIZE_PROC < 255 ->
  (7 <= fuel)%nat ->
  0 <= rnd ->
  input ≠ 9 ->
  frames_keep_clear depth st ->
  exists c next q si m,
    call_strategy fuel rnd
      (with_os_processes
         (<[Z.to_nat (currentProcess st) :=
              set_state OS_PS_READY
                (set_checksum c
                   (set_sp (SP st - Z.of_nat (length (regs st)) - 3) p))]>
            (os_processes st)) st)
    = Ok (next,
          with_schedulingInfo si
            (with_os_processes
               (<[Z.to_nat (currentProcess st) :=
                    set_state OS_PS_READY
                      (set_checksum c
                         (set_sp (SP st - Z.of_nat (length (regs st)) - 3)
                            p))]>
                  (os_processes st)) st))
    /\ 0 <= next < MAX_NUMBER_OF_PROCESSES
    /\ <[Z.to_nat (currentProcess st) :=
           set_state OS_PS_READY
             (set_checksum c
                (set_sp (SP st - Z.of_nat (length (regs st)) - 3) p))]>
         (os_processes st) !! Z.to_nat next = Some q
    /\ length (age si) = Z.to_nat MAX_NUMBER_OF_PROCESSES
    /\ tick fuel input rnd st
       = Ok (with_schedulingInfo si
               (with_os_processes
                  (<[Z.to_nat next := set_state OS_PS_RUNNING q]>
                     (<[Z.to_nat (currentProcess st) :=
                          set_state OS_PS_READY
                            (set_checksum c
                               (set_sp
                                  (SP st - Z.of_nat (length (regs st)) - 3)
                                  p))]>
                        (os_processes st)))
                  (with_mem m st)))
    /\ (forall a,
          ~ (BOTTOM_OF_ISR_STACK - depth < a <= BOTTOM_OF_ISR_STACK) ->
          ~ (SP st - Z.of_nat (length (regs st)) - 3 - depth < a <= SP st) ->
          m a = mem st a).
Proof.
  intros Hlen Hages Hcur Hp Hsp Hsize Hfuel Hrnd Hinput
    [Hdepth [Hwin1 [Hctx Hwin2]]].
  cbn zeta in Hwin1, Hctx, Hwin2.
  set (n := length (regs st)) in *.
  unfold tick. rewrite interrupt_entry_eq by lia.
  set (e := with_SP (SP st - 2) (with_mem (mem (interrupt_entry st)) st)).
  assert (saveContext e = saveContext (interrupt_entry st)) as Hsave
    by (subst e; by rewrite <- interrupt_entry_eq by lia).
  destruct (ISR_eq fuel input rnd depth e p)
    as [c [next [q [si [m [Hcall [Hnext [Hq [Hsi [-> Hm]]]]]]]]]];
    try done; try (cbn; fold n; lia).
  rewrite Hsave in Hm.
  change (SP e) with (SP st - 2) in *.
  change (regs e) with (regs st) in *.
  change (currentProcess e) with (currentProcess st) in *.
  change (os_processes e) with (os_processes st) in *.
  fold n in Hcall, Hq, Hm |- *.
  replace (SP st - 2 - Z.of_nat n - 1) with (SP st - Z.of_nat n - 3)
    in * by lia.
  exists c, next, q, si, m.
  split.
  { eapply call_strategy_frame; [| | | |exact Hcall]; cbn; reflexivity. }
  split; [done|]. split; [done|]. split; [done|]. split.
  - rewrite (context_round_trip st); fold n.
    + apply (f_equal Ok). apply OS_ext; components; reflexivity.
    + done.
    + reflexivity.
    + intros a Ha. components. apply Hm; lia.
    + reflexivity.
  - intros a Ha1 Ha2. pose proof (Hdepth 0 st) as Hpos.
    rewrite Hm by lia. rewrite saved_frame by done.
    cbn -[poke_down]. apply poke_down_outside.
    simpl. rewrite length_app. simpl. fold n. lia.
Qed.

(** Any number of timer ticks. *)
Lemma ticks_eq (depth : Z) (cs : list call) :
  forall st : OS,
    Forall plain_tick cs ->
    length (os_processes st) = Z.to_nat MAX_NUMBER_OF_PROCESSES ->
    length (age (schedulingInfo st)) = Z.to_nat MAX_NUMBER_OF_PROCESSES ->
    0 <= currentProcess st < MAX_NUMBER_OF_PROCESSES ->
    Z.of_nat (length (regs st)) + 3 <= SP st <= 65535 ->
    STACK_SIZE_PROC < 255 ->
    frames_keep_clear depth st ->
    exists processes' si m,
      run_calls cs st
      = Ok (with_schedulingInfo si
              (with_os_processes processes' (with_mem m st)))
      /\ length processes' = Z.to_nat MAX_NUMBER_OF_PROCESSES
      /\ (forall (j : nat) (s : ProcessState),
            j ≠ Z.to_nat (currentProcess st) ->
            (state <$> processes') !! j = Some s ->
            s = OS_PS_RUNNING \/ (state <$> os_processes st) !! j = Some s)
      /\ program <$> processes' = program <$> os_processes st
      /\ priority <$> processes' = priority <$> os_processes st.
Proof.
  induction cs as [|c cs IH];
    intros st Hticks Hlen Hages Hcur Hsp Hsize Hclear.
  - exists (os_processes st), (schedulingInfo st), (mem st).
    split; [simpl; by destruct st|]. split_and!; auto.
  - apply Forall_cons in Hticks as [Hc Hticks].
    destruct c as [| | | | | |fuel input rnd]; try done.
    destruct Hc as [Hfuel [Hinput Hrnd]]. cbn [run_calls run_call].
    destruct (lookup_lt_is_Some_2 (os_processes st)
                (Z.to_nat (currentProcess st))) as [p Hp];
      [rewrite Hlen; unfold MAX_NUMBER_OF_PROCESSES in *; lia|].
    destruct (tick_eq fuel input rnd depth st p)
      as [c [next [q [si1 [m1 [_ [Hnext [Hq [Hages1 [-> _]]]]]]]]]];
      try done.
    cbn [mbind outcome_bind].
    set (p1 := set_state OS_PS_READY
                 (set_checksum c
                    (set_sp (SP st - Z.of_nat (length (regs st)) - 3) p)))
      in *.
    set (T1 := <[Z.to_nat next := set_state OS_PS_RUNNING q]>
                 (<[Z.to_nat (currentProcess st) := p1]> (os_processes st))).
    assert (length T1 = Z.to_nat MAX_NUMBER_OF_PROCESSES) as Hlen1
      by (subst T1; by rewrite !length_insert).
    assert (forall (A : Type) (f : Process -> A),
              f p1 = f p -> f (set_state OS_PS_RUNNING q) = f q ->
              f <$> T1 = f <$> os_processes st) as Hfield.
    { intros A f Hf1 Hf2.
      assert (f <$> <[Z.to_nat (currentProcess st) := p1]> (os_processes st)
              = f <$> os_processes st) as HT.
      { rewrite list_fmap_insert, Hf1. apply list_insert_id.
        by rewrite list_lookup_fmap, Hp. }
      subst T1. rewrite list_fmap_insert, Hf2, HT.
      apply list_insert_id. by rewrite <- HT, list_lookup_fmap, Hq. }
    destruct (IH (with_schedulingInfo si1
                    (with_os_processes T1 (with_mem m1 st))))
      as [T2 [si2 [m2 [Hrun [Hlen2 [Hst2 [Hpr2 Hpp2]]]]]]];
      try done.
    change (Ok (with_schedulingInfo si1
                  (with_os_processes T1 (with_mem m1 st)))
            ≫= run_calls cs)
      with (run_calls cs (with_schedulingInfo si1
                            (with_os_processes T1 (with_mem m1 st)))).
    rewrite Hrun. exists T2, si2, m2.
    split; [apply (f_equal Ok); apply OS_ext; cbn; reflexivity|].
    cbn in Hst2, Hpr2, Hpp2. split_and!; try done.
    + intros j s Hj Hs. destruct (Hst2 j s Hj Hs) as [->|Hs1]; [by left|].
      subst T1. rewrite list_fmap_insert in Hs1.
      destruct (decide (j = Z.to_nat next)) as [->|Hjn].
      * rewrite list_lookup_insert_eq in Hs1.
        -- left. by simplify_eq.
        -- rewrite length_fmap, length_insert, Hlen.
           unfold MAX_NUMBER_OF_PROCESSES in *. lia.
      * rewrite list_lookup_insert_ne in Hs1 by done.
        rewrite list_fmap_insert, list_lookup_insert_ne in Hs1 by done.
        by right.
    + rewrite Hpr2. by apply Hfield.
    + rewrite Hpp2. by apply Hfield.
Qed.

(** X7.  A timer tick, taken without the task manager and with the
    frames of the handler's calls clear of the saved context and of the
    bytes that the checksum reads, comes back to the code that it has
    interrupted: the handler returns, and the program counter, the
    registers, the flags, the stack pointer, the current slot, the
    nesting counter, the interrupt mask and the error log are as before
    the tick, whichever strategy is selected and whichever slot the
    strategy returns.  Memory is written only where the context is
    saved and where the frames lie. *)
Theorem tick_resumes_interrupted_code (fuel : nat) (input rnd depth : Z)
    (st : OS) :
  length (os_processes st) = Z.to_nat MAX_NUMBER_OF_PROCESSES ->
  length (age (schedulingInfo st)) = Z.to_nat MAX_NUMBER_OF_PROCESSES ->
  0 <= currentProcess st < MAX_NUMBER_OF_PROCESSES ->
  Z.of_nat (length (regs st)) + 3 <= SP st <= 65535 ->
  STACK_SIZE_PROC < 255 ->
  (7 <= fuel)%nat ->
  0 <= rnd ->
  input ≠ 9 ->
  frames_keep_clear depth st ->
  exists st',
    tick fuel input rnd st = Ok st'
    /\ PC st' = PC st
    /\ regs st' = regs st
    /\ SREG st' = SREG st
    /\ SP st' = SP st
    /\ currentProcess st' = currentProcess st
    /\ criticalSectionCount st' = criticalSectionCount st
    /\ TIMSK2 st' = TIMSK2 st
    /\ errors st' = errors st
    /\ (forall a,
          ~ (BOTTOM_OF_ISR_STACK - depth < a <= BOTTOM_OF_ISR_STACK) ->
          ~ (SP st - Z.of_nat (length (regs st)) - 3 - depth < a <= SP st) ->
          mem st' a = mem st a).
Proof.
  intros Hlen Hages Hcur Hsp Hsize Hfuel Hrnd Hinput Hclear.
  destruct (lookup_lt_is_Some_2 (os_processes st)
              (Z.to_nat (currentProcess st))) as [p Hp];
    [rewrite Hlen; unfold MAX_NUMBER_OF_PROCESSES in *; lia|].
  destruct (tick_eq fuel input rnd depth st p)
    as [c [next [q [si [m [_ [_ [_ [_ [-> Hm]]]]]]]]]]; try done.
  eexists. split; [done|]. cbn. split_and!; done.
Qed.


(** X9.  No number of timer ticks switches to another process, under the
    same conditions.  After any sequence of ticks the program counter,
    the registers, the flags and the stack pointer are those of the
    interrupted code, the current slot is the same and nothing has been
    reported; a slot other than the current one keeps its state or has
    become running, and a slot that is marked running is never marked
    ready again. *)
Theorem ticks_never_switch (depth : Z) (cs : list call) (st : OS) :
  Forall plain_tick cs ->
  length (os_processes st) = Z.to_nat MAX_NUMBER_OF_PROCESSES ->
  length (age (schedulingInfo st)) = Z.to_nat MAX_NUMBER_OF_PROCESSES ->
  0 <= currentProcess st < MAX_NUMBER_OF_PROCESSES ->
  Z.of_nat (length (regs st)) + 3 <= SP st <= 65535 ->
  STACK_SIZE_PROC < 255 ->
  frames_keep_clear depth st ->
  exists st',
    run_calls cs st = Ok st'
    /\ PC st' = PC st
    /\ regs st' = regs st
    /\ SREG st' = SREG st
    /\ SP st' = SP st
    /\ currentProcess st' = currentProcess st
    /\ errors st' = errors st
    /\ (forall (j : nat) (s : ProcessState),
          j ≠ Z.to_nat (currentProcess st) ->
          (state <$> os_processes st') !! j = Some s ->
          s = OS_PS_RUNNING \/ (state <$> os_processes st) !! j = Some s)
    /\ (forall j : nat,
          j ≠ Z.to_nat (currentProcess st) ->
          (state <$> os_processes st) !! j = Some OS_PS_RUNNING ->
          (state <$> os_processes st') !! j = Some OS_PS_RUNNING).
Proof.
  intros Hticks Hlen Hages Hcur Hsp Hsize Hclear.
  destruct (ticks_eq depth cs st)
    as [T [si [m [-> [HlenT [Hst _]]]]]]; try done.
  eexists. split; [done|]. cbn. split_and!; try done.
  intros j Hj Hrun.
  assert (j < length T)%nat as Hlt.
  { apply lookup_lt_Some in Hrun. rewrite length_fmap in Hrun. lia. }
  destruct (lookup_lt_is_Some_2 (state <$> T) j) as [s Hs];
    [by rewrite length_fmap|].
  destruct (Hst j s Hj Hs) as [->|Hs0]; [done|congruence].
Qed.

End Tick.

(** ** Nested critical sections *)

Lemma masked_byte (t b : Z) :
  0 <= t < 256 -> 0 <= b ->
  0 <= u8 (Z.land t (Z.lnot (Z.shiftl 1 b))) < 256
  /\ Z.testbit (u8 (Z.land t (Z.lnot (Z.shiftl 1 b)))) b = false.
Proof.
  intros Ht Hb. split; [unfold u8; apply Z.mod_pos_bound; lia|].
  rewrite u8_land_255, !Z.land_spec, Z.lnot_spec, Z.shiftl_spec by lia.
  rewrite Z.sub_diag. simpl. by rewrite andb_false_r.
Qed.

Section Nesting.
Context `{Platform} `{External}.

(** Entering [n] times from depth [c]: the counter is [c + n] and the
    timer interrupt is masked. *)
Lemma enters_eq (n : nat) (st : OS) :
  (1 <= n)%nat ->
  0 <= criticalSectionCount st ->
  criticalSectionCount st + Z.of_nat n <= 255 ->
  0 <= SREG st < 256 ->
  0 <= TIMSK2 st < 256 ->
  0 <= OCIE2A ->
  Nat.iter n os_enterCriticalSection st
  = with_TIMSK2 (u8 (Z.land (TIMSK2 st) (Z.lnot (Z.shiftl 1 OCIE2A))))
      (with_criticalSectionCount (criticalSectionCount st + Z.of_nat n) st).
Proof.
  intros Hn Hc0 Hc Hs Ht Hb. induction n as [|n IH]; [lia|].
  destruct (decide (n = 0%nat)) as [->|Hne].
  - simpl. rewrite enter_eq by (done || lia).
    by rewrite (u8_small (criticalSectionCount st + 1)) by lia.
  - simpl. rewrite IH by lia. rewrite enter_eq; simpl; [|lia|done].
    apply OS_ext; try reflexivity; simpl.
    + rewrite (u8_small (criticalSectionCount st + Z.of_nat n + 1)) by lia.
      lia.
    + destruct (masked_byte (TIMSK2 st) OCIE2A Ht Hb) as [Hbyte Hbit].
      rewrite unmasked_bit_stays by done. by apply u8_small.
Qed.

(** Leaving [k] times without reaching depth 0 only counts down. *)
Lemma leaves_eq (k : nat) (st : OS) :
  Z.of_nat k < criticalSectionCount st < 256 ->
  0 <= SREG st < 256 ->
  Nat.iter k os_leaveCriticalSection st
  = with_criticalSectionCount (criticalSectionCount st - Z.of_nat k) st.
Proof.
  intros Hc Hs. induction k as [|k IH].
  - simpl. rewrite Z.sub_0_r. by destruct st.
  - simpl. rewrite IH by lia. rewrite leave_eq; simpl; [|lia|done].
    rewrite (u8_small (criticalSectionCount st - Z.of_nat k - 1)) by lia.
    rewrite decide_False by lia.
    apply OS_ext; try reflexivity. simpl. lia.
Qed.

(** X10.  [n] nested critical sections from depth 0: while any of them
    is still open the counter tells how many and the timer interrupt
    stays masked; the last [os_leaveCriticalSection] brings back the
    state from before the first [os_enterCriticalSection], with the
    timer interrupt enabled. *)
Theorem nested_critical_sections (n : nat) (st : OS) :
  (1 <= n <= 255)%nat ->
  criticalSectionCount st = 0 ->
  0 <= SREG st < 256 ->
  0 <= TIMSK2 st < 256 ->
  0 <= OCIE2A < 8 ->
  (forall k : nat, (k < n)%nat ->
     let inside :=
       Nat.iter k os_leaveCriticalSection
         (Nat.iter n os_enterCriticalSection st) in
     criticalSectionCount inside = Z.of_nat (n - k)
     /\ Z.testbit (TIMSK2 inside) OCIE2A = false
     /\ errors inside = errors st)
  /\ Nat.iter n os_leaveCriticalSection
       (Nat.iter n os_enterCriticalSection st)
     = with_TIMSK2 (Z.lor (TIMSK2 st) (Z.shiftl 1 OCIE2A)) st.
Proof.
  intros Hn Hc Hs Ht Hb.
  destruct (masked_byte (TIMSK2 st) OCIE2A Ht) as [Hbyte Hbit]; [lia|].
  assert (forall k : nat, (k < n)%nat ->
            Nat.iter k os_leaveCriticalSection
              (Nat.iter n os_enterCriticalSection st)
            = with_TIMSK2
                (u8 (Z.land (TIMSK2 st) (Z.lnot (Z.shiftl 1 OCIE2A))))
                (with_criticalSectionCount (Z.of_nat (n - k)) st)) as Hinside.
  { intros k Hk. rewrite enters_eq by lia.
    rewrite leaves_eq; simpl; [|lia|done].
    apply OS_ext; try reflexivity. simpl. lia. }
  split.
  - intros k Hk inside. subst inside. rewrite Hinside by done. simpl. done.
  - destruct n as [|n]; [lia|]. rewrite Nat.iter_succ.
    rewrite Hinside by lia. rewrite leave_eq; simpl; [|lia|done].
    replace (Z.of_nat (S n - n)) with 1 by lia. simpl.
    rewrite mask_then_unmask by done. by destruct st; simpl in *; subst.
Qed.

End Nesting.

(** ** The stack checksum *)

(** Equations between XORs, bit by bit. *)
Ltac xor_bits :=
  apply Z.bits_inj'; intros ? _; rewrite !Z.lxor_spec;
  repeat match goal with
    | |- context [Z.testbit ?x ?k] => destruct (Z.testbit x k)
    end;
  reflexivity.

Lemma xor_bytes_poke (m : Z -> Z) (a b s : Z) (n : nat) :
  xor_bytes (poke m a b) s n
  = if decide (s <= a < s + Z.of_nat n) then
      Z.lxor (xor_bytes m s n) (Z.lxor (m a) b)
    else xor_bytes m s n.
Proof.
  revert s. induction n as [|n IH]; intros s.
  - simpl. by rewrite decide_False by lia.
  - simpl. rewrite IH. unfold poke at 1.
    destruct (decide (s = a)) as [->|Hne].
    + rewrite decide_False by lia. rewrite decide_True by lia. xor_bits.
    + destruct (decide (s + 1 <= a < s + 1 + Z.of_nat n)).
      * rewrite decide_True by lia. xor_bits.
      * by rewrite decide_False by lia.
Qed.

Lemma checksum_loop (m : Z -> Z) (base : Z) (n : nat) (lo acc : Z) :
  for_loop n lo (fun p checksum => Ok (Z.lxor checksum (m (base + p)))) acc
  = Ok (Z.lxor acc (xor_bytes m (base + lo) n)).
Proof.
  revert lo acc. induction n as [|n IH]; intros lo acc.
  - simpl. by rewrite Z.lxor_0_r.
  - simpl. rewrite IH. rewrite Z.add_assoc. f_equal. xor_bits.
Qed.

Section Checksum.
Context `{Platform} `{External}.

(** The loop of [os_getStackChecksum] in closed form. *)
Lemma checksum_eq (pid : Z) (st : OS) :
  STACK_SIZE_PROC < 255 ->
  os_getStackChecksum pid st
  = Ok (xor_bytes (mem st) (PROCESS_STACK_BOTTOM pid)
          (Z.to_nat (STACK_SIZE_PROC + 1))).
Proof.
  intros Hsize. unfold os_getStackChecksum. rewrite decide_False by lia.
  rewrite checksum_loop. by rewrite Z.lxor_0_l, Z.add_0_r.
Qed.

(** X12.  A change of one byte in the range that [os_getStackChecksum]
    reads, the [STACK_SIZE_PROC + 1] bytes from
    [PROCESS_STACK_BOTTOM(pid)] upwards, changes the checksum. *)
Theorem checksum_sees_one_changed_byte (pid a b : Z) (st : OS) :
  0 <= STACK_SIZE_PROC < 255 ->
  PROCESS_STACK_BOTTOM pid <= a <= PROCESS_STACK_BOTTOM pid + STACK_SIZE_PROC ->
  b ≠ mem st a ->
  exists c c',
    os_getStackChecksum pid st = Ok c
    /\ os_getStackChecksum pid (with_mem (poke (mem st) a b) st) = Ok c'
    /\ c' = Z.lxor c (Z.lxor (mem st a) b)
    /\ c' ≠ c.
Proof.
  intros Hsize Ha Hb. rewrite !checksum_eq by lia. simpl.
  eexists _, _. split; [done|]. split; [done|].
  rewrite xor_bytes_poke. rewrite decide_True by lia. split; [done|].
  intros Heq. apply Hb. symmetry. apply Z.lxor_eq.
  set (c := xor_bytes _ _ _) in Heq.
  apply (f_equal (Z.lxor c)) in Heq.
  rewrite Z.lxor_nilpotent in Heq. rewrite <- Heq. xor_bits.
Qed.

(** X13.  [os_getStackChecksum] reads upwards from the stack bottom,
    while the stack grows downwards from it: a write below
    [PROCESS_STACK_BOTTOM(pid)], where all of the slot's stack but its
    first byte lies, or above the range, leaves the checksum as it was. *)
Theorem checksum_misses_the_stack_below_its_bottom (pid a b : Z) (st : OS) :
  STACK_SIZE_PROC < 255 ->
  a < PROCESS_STACK_BOTTOM pid
  \/ PROCESS_STACK_BOTTOM pid + STACK_SIZE_PROC < a ->
  exists c,
    os_getStackChecksum pid st = Ok c
    /\ os_getStackChecksum pid (with_mem (poke (mem st) a b) st) = Ok c.
Proof.
  intros Hsize Ha. rewrite !checksum_eq by lia. simpl.
  eexists. split; [done|]. rewrite xor_bytes_poke.
  by rewrite decide_False by lia.
Qed.

End Checksum.

(** ** The order of the cyclic search *)

Section CyclicOrder.
Variable processes : list Process.
Hypothesis table_size :
  length processes = Z.to_nat MAX_NUMBER_OF_PROCESSES.

(** The search stops at the first ready slot on its way. *)
Lemma next_ready_first (d : nat) :
  forall (fuel : nat) (c r : Z),
    0 <= c < 8 -> 1 <= r < 8 ->
    slot_ready processes r = true ->
    (forall j, 1 <= j < 8 -> steps_to c j < steps_to c r ->
               slot_ready processes j = false) ->
    steps_to c r = Z.of_nat d -> (d <= fuel)%nat ->
    next_ready fuel processes c = Ok r.
Proof.
  induction d as [|d IH]; intros fuel c r Hc Hr Hrr Hfirst Hd Hfuel.
  - unfold steps_to in Hd. case_decide; lia.
  - destruct fuel as [|fuel]; [lia|]. simpl.
    set (c' := if decide (c = 7) then 1 else u8 (c + 1)).
    assert (1 <= c' < 8 /\ (c = 7 /\ c' = 1 \/ c < 7 /\ c' = c + 1))
      as [Hc' Hnext].
    { subst c'. case_decide; [lia|]. rewrite u8_small by lia. lia. }
    destruct (load_slot processes table_size c') as [p [Hp [Hrp _]]];
      [unfold MAX_NUMBER_OF_PROCESSES; lia|].
    rewrite Hp. simpl. rewrite <- Hrp.
    destruct (decide (c' = r)) as [->|Hne].
    + by rewrite Hrr.
    + rewrite Hfirst; [|lia|unfold steps_to in *; repeat case_decide; lia].
      apply (IH fuel c' r); try done; try lia.
      * intros j Hj Hlt. apply Hfirst; [done|].
        unfold steps_to in *. repeat case_decide; lia.
      * unfold steps_to in *. repeat case_decide; lia.
Qed.

End CyclicOrder.

(** X14.  Even hands the processor round in slot order: with more than
    one slot ready it returns the first ready slot after the current one
    in the cycle 1, 2, ..., 7, 1, ...; RunToCompletion does the same
    once the current slot is not ready. *)
Theorem even_takes_next_ready_in_cycle (processes : list Process)
    (fuel : nat) (current r k : Z) :
  length processes = Z.to_nat MAX_NUMBER_OF_PROCESSES ->
  (7 <= fuel)%nat ->
  0 <= current < MAX_NUMBER_OF_PROCESSES ->
  1 <= r < MAX_NUMBER_OF_PROCESSES ->
  slot_ready processes r = true ->
  (forall j, 1 <= j < MAX_NUMBER_OF_PROCESSES ->
             steps_to current j < steps_to current r ->
             slot_ready processes j = false) ->
  k ≠ r ->
  slot_ready processes k = true ->
  os_Scheduler_Even fuel processes current = Ok r
  /\ (slot_ready processes current = false ->
      os_Scheduler_RunToCompletion fuel processes current = Ok r).
Proof.
  intros Hlen Hfuel Hc Hr Hrr Hfirst Hkr Hrk.
  unfold MAX_NUMBER_OF_PROCESSES in Hc, Hr, Hfirst.
  pose proof (two_ready processes Hlen k r Hkr Hrk Hrr) as Htwo.
  pose proof (steps_to_bound processes Hlen current r Hc Hr) as Hd.
  assert (next_ready fuel processes current = Ok r) as Hsearch.
  { apply (next_ready_first processes Hlen (Z.to_nat (steps_to current r)));
      try done; lia. }
  split.
  - unfold os_Scheduler_Even. rewrite numberOfReadyProcs_spec by done.
    simpl. by rewrite decide_False by lia.
  - intros Hcur. unfold os_Scheduler_RunToCompletion.
    destruct (load_slot processes Hlen current) as [p [Hp [Hrp _]]]; [done|].
    rewrite Hp. simpl. rewrite <- Hrp, Hcur.
    rewrite numberOfReadyProcs_spec by done.
    simpl. by rewrite decide_False by lia.
Qed.

(** X15.  With no slot ready, the counting loop gives 0, which is not
    the 1 that the early return tests for, and the [while(1)] search has
    no slot to stop at: neither Even nor RunToCompletion returns,
    however long it runs. *)
Theorem search_without_ready_slot_never_returns (processes : list Process)
    (current : Z) :
  length processes = Z.to_nat MAX_NUMBER_OF_PROCESSES ->
  0 <= current < MAX_NUMBER_OF_PROCESSES ->
  (forall j, slot_ready processes j = false) ->
  forall fuel : nat,
    os_Scheduler_Even fuel processes current = Diverge
    /\ os_Scheduler_RunToCompletion fuel processes current = Diverge.
Proof.
  intros Hlen Hc Hno fuel.
  assert (next_ready fuel processes current = Diverge) as Hsearch.
  { apply next_ready_diverges; [done| |done]. intros j _. apply Hno. }
  split.
  - unfold os_Scheduler_Even.
    rewrite numberOfReadyProcs_spec, no_ready by done. done.
  - unfold os_Scheduler_RunToCompletion.
    destruct (load_slot processes Hlen current) as [p [Hp [Hrp _]]]; [done|].
    rewrite Hp. simpl. rewrite <- Hrp, Hno.
    rewrite numberOfReadyProcs_spec, no_ready by done. done.
Qed.

(** ** Random *)

(** The ready slots are listed in ascending order. *)
Lemma filter_seqZ_ascending (P : Z -> Prop) `{forall x, Decision (P x)}
    (n : nat) :
  forall (m : Z) (i j : nat) (a b : Z),
    (i < j)%nat ->
    filter P (seqZ m (Z.of_nat n)) !! i = Some a ->
    filter P (seqZ m (Z.of_nat n)) !! j = Some b ->
    a < b.
Proof.
  induction n as [|n IH]; intros m i j a b Hij Ha Hb; [done|].
  rewrite seqZ_cons in Ha, Hb by lia.
  replace (Z.pred (Z.of_nat (S n))) with (Z.of_nat n) in Ha, Hb by lia.
  rewrite filter_cons in Ha, Hb. destruct (decide (P m)).
  - destruct j as [|j]; [lia|]. simpl in Hb. destruct i as [|i].
    + simpl in Ha. simplify_eq.
      apply list_elem_of_lookup_2, list_elem_of_filter in Hb as [_ Hb].
      apply elem_of_seqZ in Hb. lia.
    + simpl in Ha. apply (IH (Z.succ m) i j); (done || lia).
  - by apply (IH (Z.succ m) i j).
Qed.

(** X16.  Random draws among the ready slots but the lowest one: with
    two or more slots ready it returns the ready slot at position
    [rand() % (n - 1) + 1] of their ascending list, so some ready slot
    lies below the one returned, whether or not that is the idle slot;
    every other ready slot is returned for some value of [rand()]. *)
Theorem random_never_returns_lowest_ready (processes : list Process)
    (rnd current : Z) :
  length processes = Z.to_nat MAX_NUMBER_OF_PROCESSES ->
  0 <= rnd ->
  (2 <= length (ready_ids processes))%nat ->
  (exists r low,
     os_Scheduler_Random rnd processes current = Ok r
     /\ ready_ids processes
          !! Z.to_nat (rnd mod (Z.of_nat (length (ready_ids processes)) - 1)
                       + 1) = Some r
     /\ slot_ready processes r = true
     /\ slot_ready processes low = true
     /\ low < r)
  /\ (forall (i : nat) (r : Z),
        (1 <= i)%nat -> ready_ids processes !! i = Some r ->
        os_Scheduler_Random (Z.of_nat i - 1) processes current = Ok r).
Proof.
  intros Hlen Hrnd Htwo.
  set (n := Z.of_nat (length (ready_ids processes))) in *.
  assert (forall x, 0 <= x ->
            os_Scheduler_Random x processes current
            = load (ready_ids processes) (x mod (n - 1) + 1)) as Hrandom.
  { intros x Hx. unfold os_Scheduler_Random.
    rewrite numberOfReadyProcs_spec by done. simpl.
    fold n. rewrite decide_False by lia.
    unfold n at 1. rewrite Nat2Z.id, gather_ready by done. simpl. fold n.
    by rewrite Z.rem_mod_nonneg by lia. }
  split.
  - pose proof (Z.mod_pos_bound rnd (n - 1)) as Hmod.
    destruct (load_in_range (ready_ids processes) (rnd mod (n - 1) + 1))
      as [r [Hr Hlook]]; [lia|].
    destruct (lookup_lt_is_Some_2 (ready_ids processes) 0) as [low Hlow];
      [lia|].
    exists r, low. rewrite Hrandom by done.
    split; [done|]. split; [done|].
    split; [apply elem_of_ready_ids; [done|]; by eapply list_elem_of_lookup_2|].
    split; [apply elem_of_ready_ids; [done|]; by eapply list_elem_of_lookup_2|].
    unfold ready_ids, ready_upto in Hlow, Hlook.
    change MAX_NUMBER_OF_PROCESSES with (Z.of_nat 8) in Hlow, Hlook.
    eapply (filter_seqZ_ascending _ 8 0 0); [|done..]. lia.
  - intros i r Hi Hlook. rewrite Hrandom by lia.
    pose proof (lookup_lt_Some _ _ _ Hlook) as Hlt.
    rewrite Z.mod_small by lia.
    unfold load. rewrite decide_True by lia.
    replace (Z.to_nat (Z.of_nat i - 1 + 1)) with i by lia. by rewrite Hlook.
Qed.

(** ** RoundRobin *)

Section RoundRobin.
Variable processes : list Process.
Hypothesis table_size :
  length processes = Z.to_nat MAX_NUMBER_OF_PROCESSES.

(** The selection loop of RoundRobin returns a slot of the table. *)
Lemma round_robin_fallback :
  exists best,
    for_each_slot (fun i best =>
        p ← load processes i;
        if decide (priority p > best) then Ok i else Ok best) 0
    = Ok best.
Proof.
  match goal with
  | |- context [for_each_slot ?body ?init] =>
      destruct (for_loop_inv (fun i (best : Z) => True)
                  (Z.to_nat MAX_NUMBER_OF_PROCESSES) 0 body init)
        as [best [Hl _]]
  end.
  - done.
  - intros i best Hi _.
    destruct (load_slot processes table_size i) as [q [Hq _]]; [lia|].
    rewrite Hq. simpl. destruct (decide (priority q > best)); eauto.
  - by exists best.
Qed.

(** A call with the time slice used up, or with the current slot not
    ready: the slot returned does not depend on the current slot's
    number, and the time slice stays as it is. *)
Lemma round_robin_used_up (current : Z) :
  0 <= current < 8 ->
  exists r0, forall si,
    slot_ready processes current = false \/ timeSlice si <= 0 ->
    os_Scheduler_RoundRobin processes current si = Ok (r0, si).
Proof.
  intros Hc. destruct round_robin_fallback as [best Hbest].
  destruct (load_slot processes table_size current) as [p [Hp [Hrp _]]];
    [done|].
  exists (if decide (Z.of_nat (length (ready_ids processes)) = 1)
          then 0 else best).
  intros si Hused. unfold os_Scheduler_RoundRobin. rewrite Hp. simpl.
  assert (is_ready p && bool_decide (timeSlice si > 0) = false) as ->.
  { apply andb_false_iff. destruct Hused as [Hnr|Hts]; [left; congruence|].
    right. apply bool_decide_eq_false. lia. }
  rewrite numberOfReadyProcs_spec by done. simpl.
  case_decide; [done|]. by rewrite Hbest.
Qed.

(** [n] calls in a row. *)
Lemma round_robin_calls_eq (current : Z) :
  0 <= current < 8 ->
  slot_ready processes current = true ->
  exists r0, forall (n : nat) (si : SchedulingInformation),
    0 <= timeSlice si < 256 ->
    round_robin_calls n processes current si
    = Ok (replicate (n `min` Z.to_nat (timeSlice si)) current
            ++ replicate (n - Z.to_nat (timeSlice si)) r0,
          set_timeSlice (Z.max (timeSlice si - Z.of_nat n) 0) si).
Proof.
  intros Hc Hready. destruct (round_robin_used_up current Hc) as [r0 Hr0].
  exists r0. induction n as [|n IH]; intros si Hts.
  - simpl. rewrite Z.sub_0_r, Z.max_l by lia. by destruct si.
  - simpl. destruct (decide (timeSlice si = 0)) as [Hz|Hnz].
    + rewrite Hr0 by lia. simpl. rewrite IH by done. simpl.
      rewrite Hz. simpl. rewrite Nat.min_0_r, !Nat.sub_0_r. simpl.
      by rewrite !Z.max_r by lia.
    + unfold os_Scheduler_RoundRobin.
      destruct (load_slot processes table_size current) as [p [Hp [Hrp _]]];
        [done|].
      rewrite Hp. simpl. rewrite <- Hrp, Hready.
      rewrite bool_decide_eq_true_2 by lia. simpl.
      rewrite IH; simpl; [|rewrite u8_small; lia].
      rewrite u8_small by lia.
      replace (Z.to_nat (timeSlice si))
        with (S (Z.to_nat (timeSlice si - 1))) by lia.
      simpl.
      replace (Z.max (timeSlice si - 1 - Z.of_nat n) 0)
        with (Z.max (timeSlice si - Z.of_nat (S n)) 0) by lia.
      done.
Qed.

(** The selection loop on a table of equal priorities. *)
Lemma round_robin_fallback_equal (prio : Z) :
  0 <= prio ->
  (forall i, 0 <= i < MAX_NUMBER_OF_PROCESSES ->
             priority_of processes i = prio) ->
  for_each_slot (fun i best =>
      p ← load processes i;
      if decide (priority p > best) then Ok i else Ok best) 0
  = Ok (Z.min prio 7).
Proof.
  intros Hprio Hall.
  match goal with
  | |- context [for_each_slot ?body ?init] =>
      destruct (for_loop_inv
                  (fun i (best : Z) => best = Z.min prio (Z.max (i - 1) 0))
                  (Z.to_nat MAX_NUMBER_OF_PROCESSES) 0 body init)
        as [best [Hl Hb]]
  end.
  - lia.
  - intros i best Hi ->.
    destruct (load_slot processes table_size i) as [q [Hq [_ Hpq]]]; [lia|].
    rewrite Hq. simpl. rewrite <- Hpq, Hall by lia.
    destruct (decide (prio > Z.min prio (Z.max (i - 1) 0)));
      eexists; (split; [done|]); lia.
  - unfold for_each_slot. rewrite Hl. f_equal.
    unfold MAX_NUMBER_OF_PROCESSES in Hb. lia.
Qed.

End RoundRobin.

(** X17.  RoundRobin counts the time slice down and never fills it
    again. From a time slice of [t] and a ready current slot, the first
    [t] calls return the current slot; every later call returns one and
    the same slot and leaves the time slice at 0. *)
Theorem round_robin_time_slice_runs_out (processes : list Process)
    (current : Z) :
  length processes = Z.to_nat MAX_NUMBER_OF_PROCESSES ->
  0 <= current < MAX_NUMBER_OF_PROCESSES ->
  slot_ready processes current = true ->
  exists r0, forall (n : nat) (si : SchedulingInformation),
    0 <= timeSlice si < 256 ->
    exists rs si',
      round_robin_calls n processes current si = Ok (rs, si')
      /\ rs = replicate (n `min` Z.to_nat (timeSlice si)) current
              ++ replicate (n - Z.to_nat (timeSlice si)) r0
      /\ timeSlice si' = Z.max (timeSlice si - Z.of_nat n) 0
      /\ age si' = age si.
Proof.
  intros Hlen Hc Hready.
  destruct (round_robin_calls_eq processes Hlen current Hc Hready)
    as [r0 Hcalls].
  exists r0. intros n si Hts. rewrite Hcalls by done.
  by eexists _, _.
Qed.

(** X18.  On a table whose eight slots all have the priority [prio],
    RoundRobin, once the current slot is not kept, returns slot [min
    prio 7], whatever the state of that slot is: the selection loop
    compares each priority with a slot number. *)
Theorem round_robin_on_equal_priorities (processes : list Process)
    (current prio : Z) (si : SchedulingInformation) :
  length processes = Z.to_nat MAX_NUMBER_OF_PROCESSES ->
  0 <= current < MAX_NUMBER_OF_PROCESSES ->
  0 <= prio ->
  (forall i, 0 <= i < MAX_NUMBER_OF_PROCESSES ->
             priority_of processes i = prio) ->
  length (ready_ids processes) ≠ 1%nat ->
  slot_ready processes current = false \/ timeSlice si <= 0 ->
  os_Scheduler_RoundRobin processes current si = Ok (Z.min prio 7, si).
Proof.
  intros Hlen Hc Hprio Hall Hn Hused.
  destruct (load_slot processes Hlen current) as [p [Hp [Hrp _]]]; [done|].
  unfold os_Scheduler_RoundRobin. rewrite Hp. simpl.
  assert (is_ready p && bool_decide (timeSlice si > 0) = false) as ->.
  { apply andb_false_iff. destruct Hused as [Hnr|Hts]; [left; congruence|].
    right. apply bool_decide_eq_false. lia. }
  rewrite numberOfReadyProcs_spec by done. simpl.
  rewrite decide_False by lia.
  by rewrite (round_robin_fallback_equal processes Hlen prio Hprio Hall).
Qed.

(** ** [os_startScheduler] on the stack that [os_exec] has primed *)

Section Start.
Context `{Platform} `{External}.

(** [os_startScheduler] when slot 0 has the stack that [os_exec] has
    left for [program]. *)
Lemma start_eq (st : OS) (p : Process) (program : Z) :
  os_processes st !! 0%nat = Some p ->
  sp p = PROCESS_STACK_BOTTOM 0 - 35 ->
  35 <= PROCESS_STACK_BOTTOM 0 <= 65535 ->
  length (regs st) = 32%nat ->
  stack_primed 0 program (mem st) ->
  os_startScheduler st
  = Ok (with_PC (u16 program)
          (with_regs (replicate 32 0)
             (with_SREG 0
                (with_SP (PROCESS_STACK_BOTTOM 0)
                   (with_os_processes
                      (<[0%nat := set_state OS_PS_RUNNING p]>
                         (os_processes st))
                      (with_currentProc 0 st)))))).
Proof.
  intros Hp Hsp Hpsb Hregs Hprimed. unfold os_startScheduler.
  rewrite (update_slot_eq 0 _ _ p) by done.
  cbn -[restoreContext]. unfold load. rewrite decide_True by done.
  cbn -[restoreContext].
  rewrite list_lookup_insert_eq by (by eapply lookup_lt_Some).
  cbn -[restoreContext].
  assert (forall a, PROCESS_STACK_BOTTOM 0 - 35 < a ->
                    a < PROCESS_STACK_BOTTOM 0 - 1 -> mem st a = 0) as Hzero.
  { intros a Hlo Hhi.
    replace a
      with (PROCESS_STACK_BOTTOM 0
            - Z.of_nat (S (S (Z.to_nat (PROCESS_STACK_BOTTOM 0 - a - 2)))))
      by lia.
    apply Hprimed. unfold initial_frame. cbn [lookup list_lookup].
    apply (lookup_replicate_2 33 0). lia. }
  rewrite restoreContext_eq; cbn -[replicate seq]; rewrite ?Hregs, ?Hsp;
    [|lia..].
  apply (f_equal Ok). apply OS_ext; cbn -[replicate seq]; try reflexivity.
  - lia.
  - apply Hzero; lia.
  - replace (PROCESS_STACK_BOTTOM 0 - 35 + 32 + 2)
      with (PROCESS_STACK_BOTTOM 0 - Z.of_nat 1) by lia.
    replace (PROCESS_STACK_BOTTOM 0 - 35 + 32 + 3)
      with (PROCESS_STACK_BOTTOM 0 - Z.of_nat 0) by lia.
    rewrite (Hprimed 1%nat (Z.shiftr (u16 program) 8)) by done.
    rewrite (Hprimed 0%nat (Z.land (u16 program) 255)) by done.
    apply split_address.
  - transitivity (reverse (replicate 32 0)); [|reflexivity]. f_equal.
    apply list_eq. intros i. rewrite list_lookup_fmap.
    destruct (decide (i < 32)%nat) as [Hi|Hi].
    + rewrite lookup_seq_lt by lia. rewrite lookup_replicate_2 by lia.
      simpl. f_equal. apply Hzero; lia.
    + rewrite lookup_seq_ge by lia. symmetry.
      apply lookup_ge_None_2. rewrite length_replicate. lia.
Qed.

(** X3.  [os_exec] and [os_startScheduler] agree on the layout of a
    saved context. A program started into slot 0 and then entered by
    [os_startScheduler] begins at its entry address, with all 32
    registers and the flags zero and the stack pointer at the bottom of
    the slot's stack; slot 0 is marked running. *)
Theorem start_enters_program_of_slot_0 (prog priority : Z) (st : OS)
    (p0 : Process) :
  well_formed st ->
  prog ≠ 0 ->
  os_processes st !! 0%nat = Some p0 ->
  state p0 = OS_PS_UNUSED ->
  35 <= PROCESS_STACK_BOTTOM 0 <= 65535 ->
  length (regs st) = 32%nat ->
  exists st1 st2 p,
    os_exec prog priority st = Ok (0, st1)
    /\ os_startScheduler st1 = Ok st2
    /\ PC st2 = u16 prog
    /\ regs st2 = replicate 32 0
    /\ SREG st2 = 0
    /\ SP st2 = PROCESS_STACK_BOTTOM 0
    /\ os_getCurrentProc st2 = 0
    /\ os_processes st2 !! 0%nat = Some p
    /\ state p = OS_PS_RUNNING
    /\ program p = prog.
Proof.
  intros [Hlen [Hages [Hc Hs]]] Hprog Hp0 Hun Hpsb Hregs.
  destruct (exec_success_eq prog priority st 0 p0)
    as [timsk [-> _]]; try done; try lia.
  eexists.
  match goal with
  | |- context [os_startScheduler ?stx] =>
      rewrite (start_eq stx (mkProcess prog OS_PS_READY priority
                               (PROCESS_STACK_BOTTOM 0 - 35) 0) prog)
  end.
  - eexists _, _. split; [done|]. split; [done|].
    cbn -[poke_down initial_frame]. do 5 (split; [done|]).
    split; [apply list_lookup_insert_eq; rewrite length_insert;
            by eapply lookup_lt_Some|done].
  - cbn -[poke_down initial_frame]. apply list_lookup_insert_eq.
    by eapply lookup_lt_Some.
  - done.
  - done.
  - done.
  - cbn -[poke_down initial_frame]. apply exec_primes.
Qed.

(** X4.  [os_initScheduler] starts the programs of the autostart list,
    but not [idle] at its head, into the slots 0, 1, ... in list order,
    and [idle] into the slot after them: each with the default priority
    and a primed stack, the other slots unused. The list is consumed,
    and the nesting counter and the error log are as before. *)
Theorem initScheduler_starts_listed_programs_then_idle (st : OS) :
  stacks_in_memory ->
  frames_apart ->
  well_formed st ->
  autostart_head st ≠ [] ->
  (length (started_from (autostart_head st))
   < Z.to_nat MAX_NUMBER_OF_PROCESSES)%nat ->
  (forall program, program ∈ started_from (autostart_head st) ->
                   program ≠ 0) ->
  idle ≠ 0 ->
  exists st',
    os_initScheduler st = Ok st'
    /\ table_holds (started_from (autostart_head st) ++ [idle])
         (os_processes st')
    /\ stacks_primed (started_from (autostart_head st) ++ [idle]) (mem st')
    /\ autostart_head st' = []
    /\ criticalSectionCount st' = criticalSectionCount st
    /\ errors st' = errors st.
Proof.
  intros Hstacks Hapart Hwf Hlist Hroom Hnonnull Hidle.
  destruct (initScheduler_eq st)
    as [st1 [-> [Hheld [Hprimed [_ [Hauto [Hc [He _]]]]]]]]; try done.
  by exists st1.
Qed.

(** X5.  Booting, [os_initScheduler] followed by [os_startScheduler],
    enters the program of slot 0 at its entry address with zeroed
    registers: the first program of the autostart list that is not
    [idle] at its head, and [idle] only when the list has no other
    program. *)
Theorem boot_enters_first_listed_program (st : OS) :
  stacks_in_memory ->
  frames_apart ->
  well_formed st ->
  autostart_head st ≠ [] ->
  (length (started_from (autostart_head st))
   < Z.to_nat MAX_NUMBER_OF_PROCESSES)%nat ->
  (forall program, program ∈ started_from (autostart_head st) ->
                   program ≠ 0) ->
  idle ≠ 0 ->
  length (regs st) = 32%nat ->
  exists st1 st2 first,
    os_initScheduler st = Ok st1
    /\ os_startScheduler st1 = Ok st2
    /\ (started_from (autostart_head st) ++ [idle]) !! 0%nat = Some first
    /\ PC st2 = u16 first
    /\ regs st2 = replicate 32 0
    /\ SREG st2 = 0
    /\ SP st2 = PROCESS_STACK_BOTTOM 0
    /\ os_getCurrentProc st2 = 0
    /\ state <$> os_processes st2
       = <[0%nat := OS_PS_RUNNING]> (state <$> os_processes st1).
Proof.
  intros Hstacks Hapart Hwf Hlist Hroom Hnonnull Hidle Hregs.
  destruct (initScheduler_eq st)
    as [st1 [-> [Hheld [Hprimed [_ [_ [_ [_ [_ [_ Hr]]]]]]]]]]; try done.
  destruct (lookup_lt_is_Some_2
              (started_from (autostart_head st) ++ [idle]) 0)
    as [first Hfirst]; [rewrite length_app; simpl; lia|].
  destruct Hheld as [Hlen [Hheld _]].
  pose proof (Hheld 0%nat first Hfirst) as Hslot.
  pose proof (Hprimed 0%nat first Hfirst) as Hframe.
  change (Z.of_nat 0) with 0 in Hslot, Hframe.
  pose proof (Hstacks 0) as Hpsb. unfold MAX_NUMBER_OF_PROCESSES in Hpsb.
  exists st1. eexists. exists first. split; [done|].
  rewrite (start_eq st1 _ first Hslot); try done; [|lia|congruence].
  split; [done|]. split; [done|]. cbn. split_and!; try done.
  by rewrite list_fmap_insert.
Qed.

End Start.

(** ** [os_initScheduler] with more programs than slots *)

Section Overfull.
Context `{Platform} `{External}.

(** A table that holds eight programs has no unused slot. *)
Lemma table_holds_full (programs : list Z) (processes : list Process) :
  table_holds programs processes ->
  (Z.to_nat MAX_NUMBER_OF_PROCESSES <= length programs)%nat ->
  forall p, p ∈ processes -> state p ≠ OS_PS_UNUSED.
Proof.
  intros [Hlen [Hheld _]] Hfull p Hp.
  apply list_elem_of_lookup_1 in Hp as [i Hi].
  pose proof (lookup_lt_Some _ _ _ Hi) as Hlt.
  destruct (lookup_lt_is_Some_2 programs i) as [prog Hprog]; [lia|].
  rewrite (Hheld i prog Hprog) in Hi. by simplify_eq.
Qed.

(** [os_exec] without an unused slot returns from inside the critical
    section that it has entered. *)
Lemma exec_fails_eq (program priority : Z) (st : OS) :
  length (os_processes st) = Z.to_nat MAX_NUMBER_OF_PROCESSES ->
  (forall p, p ∈ os_processes st -> state p ≠ OS_PS_UNUSED) ->
  os_exec program priority st
  = Ok (INVALID_PROCESS, os_enterCriticalSection st).
Proof.
  intros Hlen Hfull. unfold os_exec. case_decide; [done|].
  rewrite (first_unused_full _ _ 0).
  - done.
  - by rewrite enter_os_processes.
  - done.
  - rewrite enter_os_processes, Hlen. unfold MAX_NUMBER_OF_PROCESSES. lia.
  - rewrite enter_os_processes, Hlen. unfold MAX_NUMBER_OF_PROCESSES. lia.
Qed.

(** The [while] loop of [os_initScheduler] on a list of any length: the
    table takes the first eight programs, and each further [os_exec]
    adds one to the nesting counter. *)
Lemma exec_autostart_any (listed : list Z) :
  forall (programs : list Z) (st : OS),
    stacks_in_memory ->
    well_formed st ->
    table_holds programs (os_processes st) ->
    (length programs <= Z.to_nat MAX_NUMBER_OF_PROCESSES)%nat ->
    (forall program, program ∈ listed -> program ≠ 0) ->
    criticalSectionCount st
    + Z.of_nat (length programs + length listed
                - Z.to_nat MAX_NUMBER_OF_PROCESSES) < 255 ->
    exists st',
      exec_autostart listed st = Ok st'
      /\ table_holds
           (take (Z.to_nat MAX_NUMBER_OF_PROCESSES) (programs ++ listed))
           (os_processes st')
      /\ well_formed st'
      /\ criticalSectionCount st'
         = criticalSectionCount st
           + Z.of_nat (length programs + length listed
                       - Z.to_nat MAX_NUMBER_OF_PROCESSES)
      /\ errors st' = errors st.
Proof.
  induction listed as [|program next IH];
    intros programs st Hstacks Hwf Hheld Hroom Hnonnull Hcount.
  - simpl. eexists. split; [done|]. rewrite app_nil_r.
    rewrite take_ge by done. simpl.
    split_and!; try done. rewrite Nat.add_0_r.
    replace (length programs - Z.to_nat MAX_NUMBER_OF_PROCESSES)%nat
      with 0%nat by lia.
    lia.
  - cbn [exec_autostart]. simpl length in *.
    destruct (decide (length programs < Z.to_nat MAX_NUMBER_OF_PROCESSES)%nat)
      as [Hlt|Hfull].
    + destruct (exec_extends programs program
                  (with_autostart_head (program :: next) st))
        as [st1 [-> [Hheld1 [Hwf1 [Hc1 [He1 _]]]]]]; try done.
      { apply Hnonnull, list_elem_of_here. }
      cbn [mbind outcome_bind].
      destruct (IH (programs ++ [program]) st1)
        as [st2 [-> [Hheld2 [Hwf2 [Hc2 He2]]]]]; try done.
      { rewrite length_app. simpl. lia. }
      { intros p Hp. apply Hnonnull. by apply list_elem_of_further. }
      { rewrite Hc1, length_app. simpl.
        replace (length programs + 1 + length next)%nat
          with (length programs + S (length next))%nat by lia.
        done. }
      eexists. split; [done|]. rewrite <- app_assoc in Hheld2.
      simpl in Hc1, He1. rewrite length_app in Hc2. simpl in Hc2.
      split_and!; try done; try congruence.
      rewrite Hc2, Hc1. f_equal. f_equal. lia.
    + pose proof Hwf as [Hlen [Hages [Hc Hs]]].
      rewrite exec_fails_eq;
        [|done|by apply (table_holds_full programs); [|lia]].
      cbn [mbind outcome_bind].
      set (st1 := os_enterCriticalSection
                    (with_autostart_head (program :: next) st)).
      assert (st1 = with_TIMSK2
                      (u8 (Z.land (TIMSK2 st) (Z.lnot (Z.shiftl 1 OCIE2A))))
                      (with_criticalSectionCount (criticalSectionCount st + 1)
                         (with_autostart_head (program :: next) st)))
        as Hst1.
      { subst st1. rewrite enter_eq; cbn; [|lia|done].
        by rewrite (u8_small (criticalSectionCount st + 1)) by lia. }
      destruct (IH programs st1)
        as [st2 [-> [Hheld2 [Hwf2 [Hc2 He2]]]]]; try done.
      { rewrite Hst1. unfold well_formed. cbn. split_and!; try done; lia. }
      { by rewrite Hst1. }
      { intros p Hp. apply Hnonnull. by apply list_elem_of_further. }
      { rewrite Hst1. cbn. lia. }
      eexists. split; [done|].
      rewrite Hst1 in Hc2, He2. cbn in Hc2, He2.
      split_and!; try done.
      * rewrite take_app_le in Hheld2 |- * by lia. done.
      * rewrite Hc2. lia.
Qed.

(** X6.  An autostart list of eight or more programs leaves no slot for
    [idle]. [os_initScheduler] returns with the first eight programs in
    the table, and every [os_exec] that found the table full, the one
    for [idle] among them, has left its critical section open: the
    nesting counter has grown by their number and the timer interrupt is
    masked; nothing is reported to [os_errorPStr]. *)
Theorem initScheduler_without_room_for_idle (st : OS) :
  stacks_in_memory ->
  well_formed st ->
  autostart_head st ≠ [] ->
  (Z.to_nat MAX_NUMBER_OF_PROCESSES
   <= length (started_from (autostart_head st)))%nat ->
  (forall program, program ∈ started_from (autostart_head st) ->
                   program ≠ 0) ->
  criticalSectionCount st
  + Z.of_nat (length (started_from (autostart_head st))
              - Z.to_nat MAX_NUMBER_OF_PROCESSES) < 255 ->
  0 <= OCIE2A ->
  exists st',
    os_initScheduler st = Ok st'
    /\ table_holds
         (take (Z.to_nat MAX_NUMBER_OF_PROCESSES)
            (started_from (autostart_head st)))
         (os_processes st')
    /\ criticalSectionCount st'
       = criticalSectionCount st
         + Z.of_nat (length (started_from (autostart_head st))
                     - Z.to_nat MAX_NUMBER_OF_PROCESSES)
         + 1
    /\ Z.testbit (TIMSK2 st') OCIE2A = false
    /\ errors st' = errors st.
Proof.
  intros Hstacks Hwf Hlist Hmany Hnonnull Hcount Hbit.
  pose proof Hwf as [Hlen [Hages [Hc Hs]]].
  unfold os_initScheduler. rewrite mark_all_unused by done. simpl.
  destruct (autostart_head st) as [|program next] eqn:Hauto; [done|].
  change (if decide (program = idle) then next else program :: next)
    with (started_from (program :: next)).
  set (listed := started_from (program :: next)) in *.
  destruct (exec_autostart_any listed []
              (with_os_processes (set_state OS_PS_UNUSED <$> os_processes st)
                 st))
    as [st1 [Hx [Hheld1 [Hwf1 [Hc1 He1]]]]]; try done.
  { unfold well_formed. simpl. by rewrite length_fmap. }
  { simpl. by apply table_holds_nil. }
  { simpl. lia. }
  rewrite Hx. cbn [mbind outcome_bind]. simpl in Hheld1, Hc1, He1.
  pose proof Hwf1 as [Hlen1 [Hages1 [Hcw1 Hs1]]].
  rewrite exec_fails_eq; [|done|].
  2:{ apply (table_holds_full _ _ Hheld1). rewrite length_take. lia. }
  cbn [mbind outcome_bind]. eexists. split; [done|].
  rewrite enter_eq by (done || lia). cbn.
  split_and!; try done.
  - rewrite (u8_small (criticalSectionCount st1 + 1)) by lia.
    rewrite Hc1. reflexivity.
  - by apply mask_clears_bit.
Qed.

End Overfull.

(** ** [os_setSchedulingStrategy] *)

Section Reset.
Context `{Platform} `{External}.

(** X19.  Selecting InactiveAging resets the age of slot 0 and of no
    other slot: the loop of [os_resetSchedulingInformation] never
    advances its iterator. Selecting Even, Random or RunToCompletion
    changes nothing at all. *)
Theorem set_strategy_resets_age_of_slot_0_only (st : OS) :
  (1 <= length (age (schedulingInfo st)))%nat ->
  (exists st',
     os_setSchedulingStrategy OS_SS_INACTIVE_AGING st = Ok st'
     /\ age_of (age (schedulingInfo st')) 0 = 0
     /\ (forall i, i ≠ 0 ->
           age_of (age (schedulingInfo st')) i
           = age_of (age (schedulingInfo st)) i)
     /\ timeSlice (schedulingInfo st') = timeSlice (schedulingInfo st)
     /\ os_processes st' = os_processes st)
  /\ (forall strategy,
        strategy ≠ OS_SS_ROUND_ROBIN -> strategy ≠ OS_SS_INACTIVE_AGING ->
        os_setSchedulingStrategy strategy st = Ok st).
Proof.
  intros Hlen. split.
  - unfold os_setSchedulingStrategy, os_resetSchedulingInformation.
    rewrite (decide_False (P := OS_SS_INACTIVE_AGING = OS_SS_ROUND_ROBIN))
      by done.
    rewrite decide_True by done.
    destruct (load_in_range (age (schedulingInfo st)) 0) as [a [Ha Hlook]];
      [lia|].
    rewrite Ha. cbn [mbind outcome_bind].
    destruct (decide (a ≠ 0)) as [Hne|Heq].
    + unfold store. rewrite decide_True by lia. cbn [mbind outcome_bind].
      eexists. split; [done|]. cbn. split_and!; try done.
      * rewrite age_of_insert; [by rewrite decide_True|lia..].
      * intros i Hi. destruct (decide (0 <= i)) as [Hpos|Hneg].
        -- rewrite age_of_insert; [by rewrite decide_False|lia..].
        -- unfold age_of, load. by rewrite !decide_False by lia.
    + exists st. split; [done|]. split_and!; try done.
      apply dec_stable in Heq. subst a. unfold age_of. by rewrite Ha.
  - intros strategy Hrr Hia.
    unfold os_setSchedulingStrategy, os_resetSchedulingInformation.
    by rewrite !decide_False by done.
Qed.

End Reset.

(** ** The scenarios *)

#[local] Existing Instance example_platform.
#[local] Existing Instance example_external.

(** C1, what the code does at the first tick after boot under Even: the
    strategy selects slot 1, which the handler marks running, but
    [currentProcess] is still 0 and the stack pointer and the program
    counter are those of slot 0, whose program (at 768) goes on. *)
Theorem first_tick_resumes_preempted_slot :
  exists booted_st seen st',
    booted = Ok booted_st
    /\ state <$> os_processes booted_st
       = [OS_PS_RUNNING; OS_PS_READY; OS_PS_READY; OS_PS_UNUSED;
          OS_PS_UNUSED; OS_PS_UNUSED; OS_PS_UNUSED; OS_PS_UNUSED]
    /\ update_slot 0 (set_state OS_PS_READY) booted_st = Ok seen
    /\ os_Scheduler_Even 7 (os_processes seen) (currentProcess seen) = Ok 1
    /\ tick 7 0 0 booted_st = Ok st'
    /\ state <$> os_processes st'
       = [OS_PS_READY; OS_PS_RUNNING; OS_PS_READY; OS_PS_UNUSED;
          OS_PS_UNUSED; OS_PS_UNUSED; OS_PS_UNUSED; OS_PS_UNUSED]
    /\ currentProcess st' = 0
    /\ program <$> os_processes st' !! 0%nat = Some (PC st')
    /\ program <$> os_processes st' !! 1%nat ≠ Some (PC st')
    /\ SP st' = PROCESS_STACK_BOTTOM 0.
Proof.
  eexists. eexists. eexists.
  split; [vm_compute; reflexivity|].
  split; [vm_compute; reflexivity|].
  split; [vm_compute; reflexivity|].
  split; [vm_compute; reflexivity|].
  split; [vm_compute; reflexivity|].
  vm_compute. repeat split; congruence.
Qed.

(** C3, what the code does when the time slice is used up and slots 0, 1
    and 2 are ready with priorities 2, 5 and 3: the selection loop
    compares each priority with a slot number, returns slot 2 although
    slot 1 has the highest priority, and leaves [timeSlice] at 0. *)
Theorem round_robin_selects_by_slot_number :
  slot_ready table_prio_5_3 1 = true
  /\ priority_of table_prio_5_3 1 = 5
  /\ priority_of table_prio_5_3 2 = 3
  /\ os_Scheduler_RoundRobin table_prio_5_3 0
       (mkSchedulingInformation 0 no_ages)
     = Ok (2, mkSchedulingInformation 0 no_ages).
Proof. by vm_compute. Qed.

(** The part of C2 that is left open, in a table that the handler itself
    produces (it never makes a slot that it marked running ready
    again): slots 0 and 1 are ready, slot 2 is running, the time slice
    is used up, and RoundRobin returns slot 2. *)
Lemma round_robin_returns_slot_that_is_not_ready :
  slot_ready table_slot_2_running 0 = true
  /\ slot_ready table_slot_2_running 2 = false
  /\ os_Scheduler_RoundRobin table_slot_2_running 0
       (mkSchedulingInformation 0 no_ages)
     = Ok (2, mkSchedulingInformation 0 no_ages).
Proof. by vm_compute. Qed.

(** Without a ready slot Random indexes its empty array. *)
Lemma random_faults_without_ready :
  os_Scheduler_Random 4711 table_all_unused 0 = Fault.
Proof. by vm_compute. Qed.

(** The successful path of [os_exec] does leave the critical section. *)
Lemma exec_success_leaves_critical_section :
  exists st',
    os_exec 768 2 power_on = Ok (0, st')
    /\ criticalSectionCount st' = criticalSectionCount power_on.
Proof. eexists. split; [vm_compute; reflexivity|]. reflexivity. Qed.

(** C2 fails as stated: with slot 0 running and slot 1 the only ready
    slot, Even, Random, RoundRobin and the fallback of RunToCompletion
    return slot 0, which is not ready while another slot is. *)
Lemma strategies_return_idle_that_is_not_ready :
  os_Scheduler_Even 7 table_idle_running 1 = Ok 0
  /\ os_Scheduler_Random 0 table_idle_running 1 = Ok 0
  /\ os_Scheduler_RunToCompletion 7 table_idle_running 0 = Ok 0
  /\ os_Scheduler_RoundRobin table_idle_running 0
       (mkSchedulingInformation 0 no_ages)
     = Ok (0, mkSchedulingInformation 0 no_ages)
  /\ ~ (slot_ready table_idle_running 0 = true
        \/ forall j, slot_ready table_idle_running j = true -> j = 0).
Proof.
  repeat (split; [by vm_compute|]).
  intros [Hidle|Honly]; [by vm_compute in Hidle|].
  by specialize (Honly 1 eq_refl).
Qed.

(** C4, what the code does when slot 0 is not ready but older than the
    ready slots: slot 0 is running with age 10, slot 1 is the only ready
    slot, with priority 2 and age 0.  The first loop raises the age of
    slot 1 to 2.  The second loop starts from [nextProcess = 0] and never
    looks at the state of that slot: no ready slot has an age of 10 or
    more, so it ends on slot 0, whose age is then reset, and the
    function returns slot 0 although slot 1 is the only ready slot. *)
Theorem inactive_aging_prefers_older_slot_0 :
  slot_ready table_idle_running 0 = false
  /\ slot_ready table_idle_running 1 = true
  /\ aged table_idle_running (<[0%nat := 10]> no_ages) 1 = 2
  /\ aged table_idle_running (<[0%nat := 10]> no_ages) 0 = 10
  /\ os_Scheduler_InactiveAging table_idle_running 1
       (mkSchedulingInformation 0 (<[0%nat := 10]> no_ages))
     = Ok (0, mkSchedulingInformation 0 (<[1%nat := 2]> no_ages)).
Proof. by vm_compute. Qed.

(** C6 fails as stated: from depth 0 with the timer-compare interrupt
    masked, the pair leaves it enabled. *)
Lemma enter_leave_unmasks_timer :
  criticalSectionCount power_on_masked = 0
  /\ Z.testbit (TIMSK2 power_on_masked) OCIE2A = false
  /\ Z.testbit
       (TIMSK2 (os_leaveCriticalSection
                  (os_enterCriticalSection power_on_masked))) OCIE2A
     ≠ Z.testbit (TIMSK2 power_on_masked) OCIE2A.
Proof. by vm_compute. Qed.

(** C8 fails as stated: slot 1 is ready, and neither Even nor the
    fallback of RunToCompletion returns a slot in 1..7: both return
    slot 0. *)
Lemma even_and_fallback_return_idle :
  slot_ready table_idle_running 1 = true
  /\ slot_ready table_idle_running 0 = false
  /\ os_Scheduler_Even 7 table_idle_running 0 = Ok 0
  /\ os_Scheduler_RunToCompletion 7 table_idle_running 0 = Ok 0
  /\ ~ (exists r, os_Scheduler_Even 7 table_idle_running 0 = Ok r
                  /\ 1 <= r < MAX_NUMBER_OF_PROCESSES)
  /\ ~ (exists r, os_Scheduler_RunToCompletion 7 table_idle_running 0 = Ok r
                  /\ 1 <= r < MAX_NUMBER_OF_PROCESSES).
Proof.
  repeat (split; [by vm_compute|]).
  split; intros [r [Hr Hrange]]; vm_compute in Hr; simplify_eq; lia.
Qed.

(** ** The theorems at concrete inputs *)

Lemma enter_leave_at_depth_0_witness :
  os_leaveCriticalSection (os_enterCriticalSection power_on) = power_on.
Proof.
  apply (enter_leave_at_depth_0 power_on); try (cbn; lia); reflexivity.
Defined.

Lemma exec_on_full_table_witness :
  exists st',
    os_exec 768 2 (with_os_processes table_full power_on)
    = Ok (INVALID_PROCESS, st')
    /\ os_processes st' = table_full
    /\ (criticalSectionCount (with_os_processes table_full power_on) ≠ 255
        -> errors st' = []).
Proof.
  apply (exec_on_full_table 768 2 (with_os_processes table_full power_on)).
  - reflexivity.
  - intros p Hp. apply elem_of_replicate in Hp as [-> _]. simpl. congruence.
Defined.

Lemma exec_failure_stays_in_critical_section_witness :
  exists st',
    os_exec 0 2 power_on = Ok (INVALID_PROCESS, st')
    /\ criticalSectionCount st' = u8 (criticalSectionCount power_on + 1)
    /\ criticalSectionCount st' ≠ criticalSectionCount power_on.
Proof.
  apply (exec_failure_stays_in_critical_section 0 2 power_on).
  - cbn. lia.
  - left. reflexivity.
Defined.

Lemma set_strategy_keeps_strategy_witness :
  exists st',
    os_setSchedulingStrategy OS_SS_INACTIVE_AGING power_on = Ok st'
    /\ actual st' = actual power_on
    /\ os_getSchedulingStrategy st' = os_getSchedulingStrategy power_on.
Proof.
  apply (set_strategy_keeps_strategy OS_SS_INACTIVE_AGING power_on).
  reflexivity.
Defined.

Lemma getCurrentProc_is_0_witness :
  exists st',
    run_calls [InitScheduler; StartScheduler; Tick 7 0 0] power_on = Ok st'
    /\ state <$> os_processes st' !! 1%nat = Some OS_PS_RUNNING
    /\ (currentProc power_on = 0 -> os_getCurrentProc st' = 0).
Proof.
  eexists. split; [vm_compute; reflexivity|]. split; [reflexivity|].
  eapply (getCurrentProc_is_0 [InitScheduler; StartScheduler; Tick 7 0 0]
            power_on).
  - intros s. reflexivity.
  - vm_compute. reflexivity.
Defined.

Lemma even_and_fallback_skip_idle_witness :
  (exists r, os_Scheduler_Even 7 table_prio_5_3 3 = Ok r
             /\ 1 <= r < MAX_NUMBER_OF_PROCESSES
             /\ slot_ready table_prio_5_3 r = true)
  /\ (slot_ready table_prio_5_3 3 = false ->
      exists r, os_Scheduler_RunToCompletion 7 table_prio_5_3 3 = Ok r
                /\ 1 <= r < MAX_NUMBER_OF_PROCESSES
                /\ slot_ready table_prio_5_3 r = true).
Proof.
  apply (even_and_fallback_skip_idle table_prio_5_3 7 3 1 0);
    try reflexivity; try (unfold MAX_NUMBER_OF_PROCESSES; lia).
Defined.

Lemma inactive_aging_by_design_witness :
  exists w si',
    os_Scheduler_InactiveAging table_prio_5_3 0
      (mkSchedulingInformation 0 no_ages) = Ok (w, si')
    /\ 0 <= w < MAX_NUMBER_OF_PROCESSES
    /\ timeSlice si' = 0
    /\ age_of (age si') w = 0
    /\ (forall i, 0 <= i < MAX_NUMBER_OF_PROCESSES -> i ≠ w ->
                  age_of (age si') i = aged table_prio_5_3 no_ages i)
    /\ (slot_ready table_prio_5_3 0 = true ->
        slot_ready table_prio_5_3 w = true
        /\ forall j, slot_ready table_prio_5_3 j = true -> j ≠ w ->
              aged table_prio_5_3 no_ages w > aged table_prio_5_3 no_ages j
              \/ (aged table_prio_5_3 no_ages w
                  = aged table_prio_5_3 no_ages j
                  /\ priority_of table_prio_5_3 w
                     > priority_of table_prio_5_3 j)
              \/ (aged table_prio_5_3 no_ages w
                  = aged table_prio_5_3 no_ages j
                  /\ priority_of table_prio_5_3 w
                     = priority_of table_prio_5_3 j
                  /\ w < j))
    /\ ((forall j, slot_ready table_prio_5_3 j = false) -> w = 0).
Proof.
  apply (inactive_aging_by_design table_prio_5_3 eq_refl 0
           (mkSchedulingInformation 0 no_ages)).
  reflexivity.
Defined.

Lemma strategies_by_design_witness :
  (slot_ready table_prio_5_3 0 = true ->
     (exists r, os_Scheduler_Even 7 table_prio_5_3 1 = Ok r
                /\ slot_ready table_prio_5_3 r = true)
     /\ (exists r, os_Scheduler_Random 4711 table_prio_5_3 1 = Ok r
                   /\ slot_ready table_prio_5_3 r = true)
     /\ (exists r, os_Scheduler_RunToCompletion 7 table_prio_5_3 1 = Ok r
                   /\ slot_ready table_prio_5_3 r = true)
     /\ (exists r si', os_Scheduler_InactiveAging table_prio_5_3 1
                         (mkSchedulingInformation 3 no_ages)
                       = Ok (r, si')
                       /\ slot_ready table_prio_5_3 r = true)
     /\ (exists r si', os_Scheduler_RoundRobin table_prio_5_3 1
                         (mkSchedulingInformation 3 no_ages)
                       = Ok (r, si')
                       /\ (slot_ready table_prio_5_3 1 = true ->
                           timeSlice (mkSchedulingInformation 3 no_ages) > 0
                           -> r = 1)
                       /\ ((forall j, slot_ready table_prio_5_3 j = true ->
                                      j = 0)
                           -> r = 0)))
  /\ ((forall j, slot_ready table_prio_5_3 j = false) ->
      exists si', os_Scheduler_InactiveAging table_prio_5_3 1
                    (mkSchedulingInformation 3 no_ages)
                  = Ok (0, si')).
Proof.
  apply (strategies_by_design table_prio_5_3 7 4711 1
           (mkSchedulingInformation 3 no_ages));
    try reflexivity; try (unfold MAX_NUMBER_OF_PROCESSES; lia).
Defined.

(** ** The further theorems at concrete inputs *)

Lemma example_stacks_in_memory : stacks_in_memory.
Proof.
  intros pid Hpid. unfold MAX_NUMBER_OF_PROCESSES in Hpid. cbn. lia.
Qed.

Lemma example_frames_apart : frames_apart.
Proof.
  intros i j Hi Hj Hij. unfold MAX_NUMBER_OF_PROCESSES in *. cbn. lia.
Qed.

Lemma power_on_well_formed : well_formed power_on.
Proof. unfold well_formed. split_and!; try reflexivity; cbn; lia. Qed.

Lemma power_on_programs (program : Z) :
  program ∈ started_from (autostart_head power_on) -> program ≠ 0.
Proof. intros Hin. apply list_elem_of_In in Hin. vm_compute in Hin. lia. Qed.

Lemma exec_takes_lowest_unused_slot_witness :
  exists st',
    os_exec 768 2 power_on = Ok (0, st')
    /\ os_processes st'
       = <[Z.to_nat 0 := mkProcess 768 OS_PS_READY 2
                           (PROCESS_STACK_BOTTOM 0 - 35) 0]>
           (os_processes power_on)
    /\ age (schedulingInfo st')
       = <[Z.to_nat 0 := 0]> (age (schedulingInfo power_on))
    /\ timeSlice (schedulingInfo st') = timeSlice (schedulingInfo power_on)
    /\ criticalSectionCount st' = criticalSectionCount power_on
    /\ errors st' = errors power_on
    /\ well_formed st'.
Proof.
  apply (exec_takes_lowest_unused_slot 768 2 power_on 0 unused_slot).
  - exact power_on_well_formed.
  - lia.
  - unfold MAX_NUMBER_OF_PROCESSES. lia.
  - reflexivity.
  - reflexivity.
  - intros i p Hi. lia.
  - cbn. lia.
Defined.

Lemma exec_primes_stack_witness :
  exists st' p',
    os_exec 768 2 power_on = Ok (0, st')
    /\ os_processes st' !! Z.to_nat 0 = Some p'
    /\ sp p' = PROCESS_STACK_BOTTOM 0 - 35
    /\ mem st' (PROCESS_STACK_BOTTOM 0) = Z.land (u16 768) 255
    /\ mem st' (PROCESS_STACK_BOTTOM 0 - 1) = Z.shiftr (u16 768) 8
    /\ (forall a, sp p' < a < PROCESS_STACK_BOTTOM 0 - 1 -> mem st' a = 0)
    /\ (forall a, a <= sp p' \/ PROCESS_STACK_BOTTOM 0 < a ->
                  mem st' a = mem power_on a).
Proof.
  apply (exec_primes_stack 768 2 power_on 0 unused_slot).
  - exact power_on_well_formed.
  - lia.
  - unfold MAX_NUMBER_OF_PROCESSES. lia.
  - reflexivity.
  - reflexivity.
  - intros i p Hi. lia.
  - cbn. lia.
Defined.

Lemma start_enters_program_of_slot_0_witness :
  exists st1 st2 p,
    os_exec 768 2 power_on = Ok (0, st1)
    /\ os_startScheduler st1 = Ok st2
    /\ PC st2 = u16 768
    /\ regs st2 = replicate 32 0
    /\ SREG st2 = 0
    /\ SP st2 = PROCESS_STACK_BOTTOM 0
    /\ os_getCurrentProc st2 = 0
    /\ os_processes st2 !! 0%nat = Some p
    /\ state p = OS_PS_RUNNING
    /\ program p = 768.
Proof.
  apply (start_enters_program_of_slot_0 768 2 power_on unused_slot).
  - exact power_on_well_formed.
  - lia.
  - reflexivity.
  - reflexivity.
  - cbn. lia.
  - reflexivity.
Defined.

Lemma initScheduler_starts_listed_programs_then_idle_witness :
  exists st',
    os_initScheduler power_on = Ok st'
    /\ table_holds (started_from (autostart_head power_on) ++ [idle])
         (os_processes st')
    /\ stacks_primed (started_from (autostart_head power_on) ++ [idle])
         (mem st')
    /\ autostart_head st' = []
    /\ criticalSectionCount st' = criticalSectionCount power_on
    /\ errors st' = errors power_on.
Proof.
  apply (initScheduler_starts_listed_programs_then_idle power_on).
  - exact example_stacks_in_memory.
  - exact example_frames_apart.
  - exact power_on_well_formed.
  - discriminate.
  - vm_compute. lia.
  - exact power_on_programs.
  - cbn. lia.
Defined.

Lemma boot_enters_first_listed_program_witness :
  exists st1 st2 first,
    os_initScheduler power_on = Ok st1
    /\ os_startScheduler st1 = Ok st2
    /\ (started_from (autostart_head power_on) ++ [idle]) !! 0%nat
       = Some first
    /\ PC st2 = u16 first
    /\ regs st2 = replicate 32 0
    /\ SREG st2 = 0
    /\ SP st2 = PROCESS_STACK_BOTTOM 0
    /\ os_getCurrentProc st2 = 0
    /\ state <$> os_processes st2
       = <[0%nat := OS_PS_RUNNING]> (state <$> os_processes st1).
Proof.
  apply (boot_enters_first_listed_program power_on).
  - exact example_stacks_in_memory.
  - exact example_frames_apart.
  - exact power_on_well_formed.
  - discriminate.
  - vm_compute. lia.
  - exact power_on_programs.
  - cbn. lia.
  - reflexivity.
Defined.

Lemma initScheduler_without_room_for_idle_witness :
  exists st',
    os_initScheduler power_on_crowded = Ok st'
    /\ table_holds
         (take (Z.to_nat MAX_NUMBER_OF_PROCESSES)
            (started_from (autostart_head power_on_crowded)))
         (os_processes st')
    /\ criticalSectionCount st'
       = criticalSectionCount power_on_crowded
         + Z.of_nat (length (started_from (autostart_head power_on_crowded))
                     - Z.to_nat MAX_NUMBER_OF_PROCESSES)
         + 1
    /\ Z.testbit (TIMSK2 st') OCIE2A = false
    /\ errors st' = errors power_on_crowded.
Proof.
  apply (initScheduler_without_room_for_idle power_on_crowded).
  - exact example_stacks_in_memory.
  - unfold well_formed. split_and!; try reflexivity; cbn; lia.
  - discriminate.
  - vm_compute. lia.
  - intros program Hin. apply list_elem_of_In in Hin.
    vm_compute in Hin. lia.
  - vm_compute. reflexivity.
  - cbn. lia.
Defined.

Lemma slot_0_running_frames : frames_keep_clear 64 slot_0_running.
Proof.
  unfold frames_keep_clear. cbn. split_and!.
  - intros line stx. lia.
  - right. lia.
  - right. lia.
  - left. lia.
Qed.

Lemma tick_resumes_interrupted_code_witness :
  exists st',
    tick 7 0 0 slot_0_running = Ok st'
    /\ PC st' = PC slot_0_running
    /\ regs st' = regs slot_0_running
    /\ SREG st' = SREG slot_0_running
    /\ SP st' = SP slot_0_running
    /\ currentProcess st' = currentProcess slot_0_running
    /\ criticalSectionCount st' = criticalSectionCount slot_0_running
    /\ TIMSK2 st' = TIMSK2 slot_0_running
    /\ errors st' = errors slot_0_running
    /\ (forall a,
          ~ (BOTTOM_OF_ISR_STACK - 64 < a <= BOTTOM_OF_ISR_STACK) ->
          ~ (SP slot_0_running - Z.of_nat (length (regs slot_0_running)) - 3
             - 64 < a <= SP slot_0_running) ->
          mem st' a = mem slot_0_running a).
Proof.
  apply (tick_resumes_interrupted_code 7 0 0 64 slot_0_running);
    try reflexivity; try (cbn; unfold MAX_NUMBER_OF_PROCESSES; lia).
  exact slot_0_running_frames.
Defined.


Lemma ticks_never_switch_witness :
  exists st',
    run_calls [Tick 7 0 0; Tick 9 1 4711] slot_0_running = Ok st'
    /\ PC st' = PC slot_0_running
    /\ regs st' = regs slot_0_running
    /\ SREG st' = SREG slot_0_running
    /\ SP st' = SP slot_0_running
    /\ currentProcess st' = currentProcess slot_0_running
    /\ errors st' = errors slot_0_running
    /\ (forall (j : nat) (s : ProcessState),
          j ≠ Z.to_nat (currentProcess slot_0_running) ->
          (state <$> os_processes st') !! j = Some s ->
          s = OS_PS_RUNNING
          \/ (state <$> os_processes slot_0_running) !! j = Some s)
    /\ (forall j : nat,
          j ≠ Z.to_nat (currentProcess slot_0_running) ->
          (state <$> os_processes slot_0_running) !! j
          = Some OS_PS_RUNNING ->
          (state <$> os_processes st') !! j = Some OS_PS_RUNNING).
Proof.
  apply (ticks_never_switch 64 [Tick 7 0 0; Tick 9 1 4711] slot_0_running);
    try reflexivity; try (cbn; unfold MAX_NUMBER_OF_PROCESSES; lia).
  - repeat constructor; cbn; lia.
  - exact slot_0_running_frames.
Defined.

Lemma nested_critical_sections_witness :
  (forall k : nat, (k < 3)%nat ->
     let inside :=
       Nat.iter k os_leaveCriticalSection
         (Nat.iter 3 os_enterCriticalSection power_on) in
     criticalSectionCount inside = Z.of_nat (3 - k)
     /\ Z.testbit (TIMSK2 inside) OCIE2A = false
     /\ errors inside = errors power_on)
  /\ Nat.iter 3 os_leaveCriticalSection
       (Nat.iter 3 os_enterCriticalSection power_on)
     = with_TIMSK2 (Z.lor (TIMSK2 power_on) (Z.shiftl 1 OCIE2A)) power_on.
Proof.
  apply (nested_critical_sections 3 power_on);
    try reflexivity; cbn; lia.
Defined.

Lemma checksum_sees_one_changed_byte_witness :
  exists c c',
    os_getStackChecksum 0 power_on = Ok c
    /\ os_getStackChecksum 0
         (with_mem (poke (mem power_on) 4130 1) power_on) = Ok c'
    /\ c' = Z.lxor c (Z.lxor (mem power_on 4130) 1)
    /\ c' ≠ c.
Proof.
  apply (checksum_sees_one_changed_byte 0 4130 1 power_on).
  - cbn. lia.
  - cbn. lia.
  - cbn. lia.
Defined.

Lemma checksum_misses_the_stack_below_its_bottom_witness :
  exists c,
    os_getStackChecksum 0 power_on = Ok c
    /\ os_getStackChecksum 0
         (with_mem (poke (mem power_on) 4126 1) power_on) = Ok c.
Proof.
  apply (checksum_misses_the_stack_below_its_bottom 0 4126 1 power_on).
  - cbn. lia.
  - left. cbn. lia.
Defined.

Lemma even_takes_next_ready_in_cycle_witness :
  os_Scheduler_Even 7 table_prio_5_3 1 = Ok 2
  /\ (slot_ready table_prio_5_3 1 = false ->
      os_Scheduler_RunToCompletion 7 table_prio_5_3 1 = Ok 2).
Proof.
  apply (even_takes_next_ready_in_cycle table_prio_5_3 7 1 2 0);
    try reflexivity; try (unfold MAX_NUMBER_OF_PROCESSES; lia).
  intros j Hj Hlt. unfold steps_to in Hlt.
  unfold MAX_NUMBER_OF_PROCESSES in Hj. repeat case_decide; lia.
Defined.

Lemma search_without_ready_slot_never_returns_witness :
  os_Scheduler_Even 1000 table_all_unused 0 = Diverge
  /\ os_Scheduler_RunToCompletion 1000 table_all_unused 0 = Diverge.
Proof.
  apply (search_without_ready_slot_never_returns table_all_unused 0).
  - reflexivity.
  - unfold MAX_NUMBER_OF_PROCESSES. lia.
  - intros j. unfold slot_ready, load. case_decide; [|reflexivity].
    destruct (table_all_unused !! Z.to_nat j) as [p|] eqn:Hp; [|reflexivity].
    apply lookup_replicate in Hp as [-> _]. reflexivity.
Defined.

Lemma random_never_returns_lowest_ready_witness :
  (exists r low,
     os_Scheduler_Random 4711 table_prio_5_3 1 = Ok r
     /\ ready_ids table_prio_5_3
          !! Z.to_nat (4711 mod (Z.of_nat (length (ready_ids table_prio_5_3))
                                 - 1) + 1) = Some r
     /\ slot_ready table_prio_5_3 r = true
     /\ slot_ready table_prio_5_3 low = true
     /\ low < r)
  /\ (forall (i : nat) (r : Z),
        (1 <= i)%nat -> ready_ids table_prio_5_3 !! i = Some r ->
        os_Scheduler_Random (Z.of_nat i - 1) table_prio_5_3 1 = Ok r).
Proof.
  apply (random_never_returns_lowest_ready table_prio_5_3 4711 1).
  - reflexivity.
  - lia.
  - vm_compute. lia.
Defined.

Lemma round_robin_time_slice_runs_out_witness :
  exists r0, forall (n : nat) (si : SchedulingInformation),
    0 <= timeSlice si < 256 ->
    exists rs si',
      round_robin_calls n table_prio_5_3 1 si = Ok (rs, si')
      /\ rs = replicate (n `min` Z.to_nat (timeSlice si)) 1
              ++ replicate (n - Z.to_nat (timeSlice si)) r0
      /\ timeSlice si' = Z.max (timeSlice si - Z.of_nat n) 0
      /\ age si' = age si.
Proof.
  apply (round_robin_time_slice_runs_out table_prio_5_3 1).
  - reflexivity.
  - unfold MAX_NUMBER_OF_PROCESSES. lia.
  - reflexivity.
Defined.

Lemma round_robin_on_equal_priorities_witness :
  os_Scheduler_RoundRobin table_full 0 (mkSchedulingInformation 0 no_ages)
  = Ok (Z.min 2 7, mkSchedulingInformation 0 no_ages).
Proof.
  apply (round_robin_on_equal_priorities table_full 0 2
           (mkSchedulingInformation 0 no_ages)).
  - reflexivity.
  - unfold MAX_NUMBER_OF_PROCESSES. lia.
  - lia.
  - intros i Hi. unfold priority_of, load.
    unfold MAX_NUMBER_OF_PROCESSES in Hi.
    rewrite decide_True by (cbn; lia).
    destruct (table_full !! Z.to_nat i) as [p|] eqn:Hp.
    + apply lookup_replicate in Hp as [-> _]. reflexivity.
    + apply lookup_ge_None in Hp. cbn in Hp. lia.
  - vm_compute. lia.
  - right. cbn. lia.
Defined.

Lemma set_strategy_resets_age_of_slot_0_only_witness :
  (exists st',
     os_setSchedulingStrategy OS_SS_INACTIVE_AGING power_on = Ok st'
     /\ age_of (age (schedulingInfo st')) 0 = 0
     /\ (forall i, i ≠ 0 ->
           age_of (age (schedulingInfo st')) i
           = age_of (age (schedulingInfo power_on)) i)
     /\ timeSlice (schedulingInfo st') = timeSlice (schedulingInfo power_on)
     /\ os_processes st' = os_processes power_on)
  /\ (forall strategy,
        strategy ≠ OS_SS_ROUND_ROBIN -> strategy ≠ OS_SS_INACTIVE_AGING ->
        os_setSchedulingStrategy strategy power_on = Ok power_on).
Proof.
  apply (set_strategy_resets_age_of_slot_0_only power_on). cbn. lia.
Defined.

Lemma exec_unmasks_timer_only_at_depth_0_witness :
  exists st',
    os_exec 768 2 power_on_masked = Ok (0, st')
    /\ (criticalSectionCount power_on_masked = 0 ->
        TIMSK2 st' = Z.lor (TIMSK2 power_on_masked) (Z.shiftl 1 OCIE2A)
        /\ Z.testbit (TIMSK2 st') OCIE2A = true)
    /\ (criticalSectionCount power_on_masked ≠ 0 ->
        Z.testbit (TIMSK2 st') OCIE2A = false
        /\ (Z.testbit (TIMSK2 power_on_masked) OCIE2A = false ->
            TIMSK2 st' = TIMSK2 power_on_masked)).
Proof.
  apply (exec_unmasks_timer_only_at_depth_0 768 2 power_on_masked 0
           unused_slot).
  - unfold well_formed. split_and!; try reflexivity; cbn; lia.
  - lia.
  - unfold MAX_NUMBER_OF_PROCESSES. lia.
  - reflexivity.
  - reflexivity.
  - intros i p Hi. lia.
  - cbn. lia.
  - cbn. lia.
  - cbn. lia.
Defined.
